(** * The thumbs.com server: ledger, charts, arenas, settlement and the
      connection registry

    A shallow embedding of the Express/WebSocket server.  The MongoDB
    collections, the [connectedClients] map and the sockets form one explicit
    [World]; every route and message handler is a computation in a small
    state-and-exception monad over it, run to completion (handlers are not
    interleaved here).

    Conventions of the model:
    - JavaScript numbers that carry money, scores and times are integers ([Z]);
      request fields that the code uses as numbers are numbers.
    - document ids, user ids and socket handles are natural numbers; a new
      document takes the next id of the world's counter.
    - [Date.now()] and [Math.random()] are inputs of a handler; within one
      handler the clock stands still.
    - the [authenticateToken] middleware has run: a route receives the id of
      the authenticated user, who may or may not be stored.
    - text is ASCII: [toLowerCase] and [trim] act on ASCII letters and blanks.
    - a document loaded by [findById] is a copy: [save] writes the assigned
      paths of the copy to the store, whatever the store holds by then.
    - schema paths that no modelled handler reads (avatar, bio, country,
      reputation, followers, tags, chat, time limit, difficulty, ...) are left
      out of the records, and their validators with them.  The validators of
      the paths that are kept are checked where a new document is saved; a
      loaded document is valid already, and the guards of the handlers keep
      the [min: 0] paths they assign non-negative.
    - the shoutout, chat, follow, profile and read-only routes are not
      modelled. *)

From stdpp Require Import gmap strings list fin_maps pretty.
From Stdlib Require Import ZArith Lia.
Open Scope Z_scope.

Abbreviation Id := nat.
Abbreviation Handle := nat.
Abbreviation Time := Z.

(** ** JavaScript values and containers *)

Module Js.

(** [!s] for a possibly missing string: [undefined] and [''] are falsy. *)
Definition falsy (s : option string) : bool :=
  match s with
  | None => true
  | Some s => bool_decide (s = "")
  end.

(** [a || b] on possibly missing strings. *)
Definition or_else (a : option string) (b : string) : string :=
  match a with
  | Some s => if bool_decide (s = "") then b else s
  | None => b
  end.

(** [n || d] on a possibly missing number: [undefined] and [0] are falsy. *)
Definition num_or (n : option Z) (d : Z) : Z :=
  match n with
  | Some v => if v =? 0 then d else v
  | None => d
  end.

Definition lower_ascii (c : Ascii.ascii) : Ascii.ascii :=
  let n := Ascii.N_of_ascii c in
  if ((65 <=? n) && (n <=? 90))%N then Ascii.ascii_of_N (n + 32) else c.

Fixpoint toLowerCase (s : string) : string :=
  match s with
  | EmptyString => EmptyString
  | String c r => String (lower_ascii c) (toLowerCase r)
  end.

(** [\w]: a letter, a digit or the underscore. *)
Definition word_char (c : Ascii.ascii) : bool :=
  let n := Ascii.N_of_ascii c in
  (((48 <=? n) && (n <=? 57)) || ((65 <=? n) && (n <=? 90))
   || ((97 <=? n) && (n <=? 122)) || (n =? 95))%N.

Fixpoint all_word (s : string) : bool :=
  match s with
  | EmptyString => true
  | String c r => word_char c && all_word r
  end.

(** [/^\w+$/.test(s)] *)
Definition is_word (s : string) : bool :=
  negb (bool_decide (s = "")) && all_word s.

Fixpoint trim_left (s : string) : string :=
  match s with
  | EmptyString => EmptyString
  | String c r => if Ascii.is_space c then trim_left r else s
  end.

Definition trim (s : string) : string :=
  String.rev (trim_left (String.rev (trim_left s))).

(** [s.length] as a number. *)
Definition length (s : string) : Z := Z.of_nat (String.length s).

(** An object (or a [Map]) as its list of entries in insertion order.
    Writing a key that is present replaces its value in place, so an object
    literal that spells a key twice keeps the last value only. *)
Section Entries.
Context {K V : Type} `{EqDecision K}.

Fixpoint assign (k : K) (v : V) (o : list (K * V)) : list (K * V) :=
  match o with
  | [] => [(k, v)]
  | (k', v') :: r =>
      if decide (k' = k) then (k, v) :: r else (k', v') :: assign k v r
  end.

Fixpoint get (k : K) (o : list (K * V)) : option V :=
  match o with
  | [] => None
  | (k', v') :: r => if decide (k' = k) then Some v' else get k r
  end.

Fixpoint remove (k : K) (o : list (K * V)) : list (K * V) :=
  match o with
  | [] => []
  | (k', v') :: r =>
      if decide (k' = k) then remove k r else (k', v') :: remove k r
  end.

(** [{ k1: v1, k2: v2, ... }] *)
Definition literal (kvs : list (K * V)) : list (K * V) :=
  foldl (fun o kv => assign kv.1 kv.2 o) [] kvs.
End Entries.

(** A [Set] as its members in insertion order. *)
Definition set_add {A} `{EqDecision A} (x : A) (s : list A) : list A :=
  if bool_decide (x ∈ s) then s else s ++ [x].

End Js.

(** ** Documents *)

Inductive Hashed := Bcrypt (password : string) (rounds : nat).

Inductive Token :=
| Jwt (id : Id) (username : string) (exp : Time)
| BadToken (raw : string).

Module User.
Inductive Status := online | offline | in_game | away.

Record t := mk {
  username : string;
  email : string;
  password : Hashed;
  displayName : string;
  chartsCreated : Z;
  chartsWon : Z;
  balance : Z;
  totalEarned : Z;
  totalSupported : Z;
  status : Status;
  lastSeen : Time;
  }.

Definition set_balance (v : Z) (u : t) : t :=
  mk (username u) (email u) (password u) (displayName u) (chartsCreated u)
     (chartsWon u) v (totalEarned u) (totalSupported u) (status u) (lastSeen u).
Definition set_totalEarned (v : Z) (u : t) : t :=
  mk (username u) (email u) (password u) (displayName u) (chartsCreated u)
     (chartsWon u) (balance u) v (totalSupported u) (status u) (lastSeen u).
Definition set_totalSupported (v : Z) (u : t) : t :=
  mk (username u) (email u) (password u) (displayName u) (chartsCreated u)
     (chartsWon u) (balance u) (totalEarned u) v (status u) (lastSeen u).
Definition set_chartsWon (v : Z) (u : t) : t :=
  mk (username u) (email u) (password u) (displayName u) (chartsCreated u)
     v (balance u) (totalEarned u) (totalSupported u) (status u) (lastSeen u).
Definition set_chartsCreated (v : Z) (u : t) : t :=
  mk (username u) (email u) (password u) (displayName u) v
     (chartsWon u) (balance u) (totalEarned u) (totalSupported u) (status u)
     (lastSeen u).
Definition set_presence (s : Status) (seen : Time) (u : t) : t :=
  mk (username u) (email u) (password u) (displayName u) (chartsCreated u)
     (chartsWon u) (balance u) (totalEarned u) (totalSupported u) s seen.
End User.

Inductive Reference := RefId (id : Id) | RefText (s : string).

Module Transaction.
Inductive Type_ :=
  | deposit | withdrawal | entry_fee | prize | donation | shoutout | refund | bonus.

Inductive Status := pending | completed | failed.

Record t := mk {
  _id : Id;
  user : Id;
  type : Type_;
  amount : Z;
  balance : Z;
  reference : option Reference;
  description : string;
  status : Status;
  }.
End Transaction.

Module Chart.
Inductive Status := open | in_progress | completed | cancelled.
Inductive PStatus := pending | active | pcompleted | withdrawn.

Record Participant := mkP {
  user : Id;
  joinedAt : Time;
  score : Z;
  moves : Z;
  pstatus : PStatus;
  }.

Record t := mk {
  creator : Id;
  title : string;
  game : string;
  entryFee : Z;
  prize : Z;
  prizePool : Z;
  status : Status;
  participants : list Participant;
  maxParticipants : Z;
  minParticipants : Z;
  startsAt : Time;
  endsAt : option Time;
  donations : list Id;
  totalDonations : Z;
  winner : option Id;
  }.

Definition set_status (v : Status) (c : t) : t :=
  mk (creator c) (title c) (game c) (entryFee c) (prize c) (prizePool c) v
     (participants c) (maxParticipants c) (minParticipants c) (startsAt c)
     (endsAt c) (donations c) (totalDonations c) (winner c).
Definition set_winner (v : option Id) (c : t) : t :=
  mk (creator c) (title c) (game c) (entryFee c) (prize c) (prizePool c)
     (status c) (participants c) (maxParticipants c) (minParticipants c)
     (startsAt c) (endsAt c) (donations c) (totalDonations c) v.
Definition set_endsAt (v : option Time) (c : t) : t :=
  mk (creator c) (title c) (game c) (entryFee c) (prize c) (prizePool c)
     (status c) (participants c) (maxParticipants c) (minParticipants c)
     (startsAt c) v (donations c) (totalDonations c) (winner c).
Definition set_prizePool (v : Z) (c : t) : t :=
  mk (creator c) (title c) (game c) (entryFee c) (prize c) v
     (status c) (participants c) (maxParticipants c) (minParticipants c)
     (startsAt c) (endsAt c) (donations c) (totalDonations c) (winner c).
Definition set_participants (v : list Participant) (c : t) : t :=
  mk (creator c) (title c) (game c) (entryFee c) (prize c) (prizePool c)
     (status c) v (maxParticipants c) (minParticipants c)
     (startsAt c) (endsAt c) (donations c) (totalDonations c) (winner c).
Definition set_donations (v : list Id) (c : t) : t :=
  mk (creator c) (title c) (game c) (entryFee c) (prize c) (prizePool c)
     (status c) (participants c) (maxParticipants c) (minParticipants c)
     (startsAt c) (endsAt c) v (totalDonations c) (winner c).
Definition set_totalDonations (v : Z) (c : t) : t :=
  mk (creator c) (title c) (game c) (entryFee c) (prize c) (prizePool c)
     (status c) (participants c) (maxParticipants c) (minParticipants c)
     (startsAt c) (endsAt c) (donations c) v (winner c).
End Chart.

Module Donation.
Inductive Status := pending | completed | refunded | failed.

Record t := mk {
  _id : Id;
  user : Id;
  chart : Id;
  recipient : Id;
  amount : Z;
  message : string;
  status : Status;
  transactionId : string;
  completedAt : option Time;
  }.
End Donation.

Module Arena.
Inductive Status := waiting | live | paused | finished.
Inductive PStatus := pwaiting | playing | pfinished | disconnected.

Record Player := mkP {
  user : Id;
  score : Z;
  moves : Z;
  pstatus : PStatus;
  joinedAt : Time;
  }.

Record Spectator := mkS {
  suser : Id;
  sjoinedAt : Time;
  }.

Record t := mk {
  chart : Id;
  players : list Player;
  status : Status;
  spectators : list Spectator;
  startedAt : option Time;
  endedAt : option Time;
  winner : option Id;
  updatedAt : Time;
  }.

Definition set_players (v : list Player) (a : t) : t :=
  mk (chart a) v (status a) (spectators a) (startedAt a) (endedAt a)
     (winner a) (updatedAt a).
Definition set_status (v : Status) (a : t) : t :=
  mk (chart a) (players a) v (spectators a) (startedAt a) (endedAt a)
     (winner a) (updatedAt a).
Definition set_spectators (v : list Spectator) (a : t) : t :=
  mk (chart a) (players a) (status a) v (startedAt a) (endedAt a)
     (winner a) (updatedAt a).
Definition set_endedAt (v : option Time) (a : t) : t :=
  mk (chart a) (players a) (status a) (spectators a) (startedAt a) v
     (winner a) (updatedAt a).
Definition set_winner (v : option Id) (a : t) : t :=
  mk (chart a) (players a) (status a) (spectators a) (startedAt a)
     (endedAt a) v (updatedAt a).
Definition set_updatedAt (v : Time) (a : t) : t :=
  mk (chart a) (players a) (status a) (spectators a) (startedAt a)
     (endedAt a) (winner a) v.
End Arena.

Module Notification.
Inductive Type_ :=
  | shoutout | donation | chart_joined | chart_completed | arena_invite
  | follow | achievement | system | match_start | prize_won.

Inductive Data :=
  | ChartCompleted (chartId winnerId : Id) (prize : Z)
  | MatchStart (chartId arenaId : Id)
  | ChartJoined (chartId userId : Id)
  | Donated (chartId donationId : Id) (amount : Z) (donorId : Id)
          (donorName : string).

Record t := mk {
  _id : Id;
  user : Id;
  type : Type_;
  title : string;
  message : string;
  data : Data;
  read : bool;
  }.
End Notification.

#[global] Instance User_Status_eq_dec : EqDecision User.Status.
Proof. solve_decision. Defined.
#[global] Instance Chart_Status_eq_dec : EqDecision Chart.Status.
Proof. solve_decision. Defined.
#[global] Instance Arena_Status_eq_dec : EqDecision Arena.Status.
Proof. solve_decision. Defined.
#[global] Instance Arena_Spectator_eq_dec : EqDecision Arena.Spectator.
Proof. solve_decision. Defined.
#[global] Instance Transaction_Type_eq_dec : EqDecision Transaction.Type_.
Proof. solve_decision. Defined.

(** ** Sockets, the connection registry and outbound messages *)

Record UserInfo := mkInfo {
  info_id : Id;
  info_username : string;
  info_displayName : string;
}.

Module Msg.
Inductive t :=
| auth_success (userId : Id) (timestamp : Time)
| auth_error (error : string) (timestamp : Time)
| error (error : string) (timestamp : option Time)
| user_status (userId : Id) (status : User.Status) (timestamp : option Time)
| spectator_joined (userId : Id) (user : option UserInfo) (arenaId : Id)
                   (timestamp : Time)
| spectator_left (userId arenaId : Id) (timestamp : Time)
| arena_state (arena : option (Arena.t * list (option UserInfo)
                               * list (option UserInfo)))
              (timestamp : Time)
| score_update (arenaId playerId : Id) (score : Z) (moves : option Z)
               (timestamp : Time)
| arena_completed (arenaId winnerId : Id) (prize : Z) (timestamp : Time)
| notification (n : Notification.t)
| pong (timestamp : Time).
End Msg.

Inductive ReadyState := OPEN | CLOSED.

#[global] Instance ReadyState_eq_dec : EqDecision ReadyState.
Proof. solve_decision. Defined.

(** The per-connection object [ws] with the fields the handlers put on it. *)
Module Socket.
Record t := mk {
  userId : option Id;
  arenas : list Id;
  readyState : ReadyState;
}.
End Socket.

(** An entry of [connectedClients]. *)
Module Client.
Record t := mk {
  ws : Handle;
  userId : Id;
  arenas : list Id;
  connectedAt : Time;
}.
End Client.

(** ** The world *)

Module World.
Record t := mk {
  users : gmap nat User.t;
  charts : gmap nat Chart.t;
  arenas : gmap nat Arena.t;
  donations : list Donation.t;
  transactions : list Transaction.t;
  notifications : list Notification.t;
  nextId : Id;
  connectedClients : list (Id * Client.t);
  sockets : gmap nat Socket.t;
  outbox : list (Handle * Msg.t);
}.

Definition init : t := mk ∅ ∅ ∅ [] [] [] 0%nat [] ∅ [].

Definition set_users (v : gmap nat User.t) (w : t) : t :=
  mk v (charts w) (arenas w) (donations w) (transactions w) (notifications w)
     (nextId w) (connectedClients w) (sockets w) (outbox w).
Definition set_charts (v : gmap nat Chart.t) (w : t) : t :=
  mk (users w) v (arenas w) (donations w) (transactions w) (notifications w)
     (nextId w) (connectedClients w) (sockets w) (outbox w).
Definition set_arenas (v : gmap nat Arena.t) (w : t) : t :=
  mk (users w) (charts w) v (donations w) (transactions w) (notifications w)
     (nextId w) (connectedClients w) (sockets w) (outbox w).
Definition set_donations (v : list Donation.t) (w : t) : t :=
  mk (users w) (charts w) (arenas w) v (transactions w) (notifications w)
     (nextId w) (connectedClients w) (sockets w) (outbox w).
Definition set_transactions (v : list Transaction.t) (w : t) : t :=
  mk (users w) (charts w) (arenas w) (donations w) v (notifications w)
     (nextId w) (connectedClients w) (sockets w) (outbox w).
Definition set_notifications (v : list Notification.t) (w : t) : t :=
  mk (users w) (charts w) (arenas w) (donations w) (transactions w) v
     (nextId w) (connectedClients w) (sockets w) (outbox w).
Definition set_nextId (v : Id) (w : t) : t :=
  mk (users w) (charts w) (arenas w) (donations w) (transactions w)
     (notifications w) v (connectedClients w) (sockets w) (outbox w).
Definition set_connectedClients (v : list (Id * Client.t)) (w : t) : t :=
  mk (users w) (charts w) (arenas w) (donations w) (transactions w)
     (notifications w) (nextId w) v (sockets w) (outbox w).
Definition set_sockets (v : gmap nat Socket.t) (w : t) : t :=
  mk (users w) (charts w) (arenas w) (donations w) (transactions w)
     (notifications w) (nextId w) (connectedClients w) v (outbox w).
Definition set_outbox (v : list (Handle * Msg.t)) (w : t) : t :=
  mk (users w) (charts w) (arenas w) (donations w) (transactions w)
     (notifications w) (nextId w) (connectedClients w) (sockets w) v.
End World.

(** ** Handlers as computations: state threaded, exceptions propagated *)

Inductive Thrown :=
| TypeError (what : string)
| ValidationError (path : string)
| DuplicateKey (path : string)
| JsonWebTokenError.

Inductive outcome (A : Type) :=
| Val (a : A)
| Exn (e : Thrown).
Arguments Val {A} a.
Arguments Exn {A} e.

Definition M (A : Type) : Type := World.t -> outcome A * World.t.

Definition ret {A} (a : A) : M A := fun w => (Val a, w).

Definition bind {A B} (m : M A) (k : A -> M B) : M B :=
  fun w =>
    match m w with
    | (Val a, w') => k a w'
    | (Exn e, w') => (Exn e, w')
    end.

Definition throw {A} (e : Thrown) : M A := fun w => (Exn e, w).

Definition gets {A} (f : World.t -> A) : M A := fun w => (Val (f w), w).

Definition modify (f : World.t -> World.t) : M unit := fun w => (Val tt, f w).

Notation "'let*' x := m 'in' k" := (bind m (fun x => k))
  (at level 10, x name, m at level 100, k at level 200).
Notation "m ;;; k" := (bind m (fun _ => k))
  (at level 100, k at level 200, right associativity).

(** [try { body } catch (e) { handler }] *)
Definition try_catch {A} (body : M A) (handler : Thrown -> M A) : M A :=
  fun w =>
    match body w with
    | (Val a, w') => (Val a, w')
    | (Exn e, w') => handler e w'
    end.

(** Reading a property of [null] or [undefined] throws. *)
Definition deref {A} (what : string) (o : option A) : M A :=
  match o with
  | Some a => ret a
  | None => throw (TypeError what)
  end.

(** The [_id] given to a document by [new Model(...)]. *)
Definition fresh : M Id :=
  fun w => (Val (World.nextId w), World.set_nextId (S (World.nextId w)) w).

(** [for (const x of xs) { body }] *)
Fixpoint for_of {A} (xs : list A) (body : A -> M unit) : M unit :=
  match xs with
  | [] => ret tt
  | x :: r => body x ;;; for_of r body
  end.

Definition when (b : bool) (m : M unit) : M unit := if b then m else ret tt.

(** ** Persistence: the Mongoose calls the handlers make *)

Definition User_findById (id : Id) : M (option User.t) :=
  gets (fun w => World.users w !! id).

Definition Chart_findById (id : Id) : M (option Chart.t) :=
  gets (fun w => World.charts w !! id).

Definition Arena_findById (id : Id) : M (option Arena.t) :=
  gets (fun w => World.arenas w !! id).

(** [doc.save()] on a loaded document writes the paths that were assigned
    since it was loaded: [f] carries those assignments over to the stored
    document, whatever the store holds by then. *)
Definition User_save (id : Id) (f : User.t -> User.t) : M unit :=
  modify (fun w => World.set_users (alter f id (World.users w)) w).

Definition Chart_save (id : Id) (f : Chart.t -> Chart.t) : M unit :=
  modify (fun w => World.set_charts (alter f id (World.charts w)) w).

Definition Arena_save (id : Id) (f : Arena.t -> Arena.t) : M unit :=
  modify (fun w => World.set_arenas (alter f id (World.arenas w)) w).

(** [Model.findByIdAndUpdate(id, update)]: nothing happens for an unknown id. *)
Definition User_findByIdAndUpdate (id : Id) (f : User.t -> User.t) : M unit :=
  modify (fun w => World.set_users (alter f id (World.users w)) w).

Definition Arena_findByIdAndUpdate (id : Id) (f : Arena.t -> Arena.t) : M unit :=
  modify (fun w => World.set_arenas (alter f id (World.arenas w)) w).

Definition Transaction_save (tx : Transaction.t) : M unit :=
  modify (fun w => World.set_transactions (World.transactions w ++ [tx]) w).

Definition Notification_save (n : Notification.t) : M unit :=
  modify (fun w => World.set_notifications (World.notifications w ++ [n]) w).

(** [ws.send(JSON.stringify(msg))] *)
Definition send (h : Handle) (msg : Msg.t) : M unit :=
  modify (fun w => World.set_outbox (World.outbox w ++ [(h, msg)]) w).

(** [const client = connectedClients.get(id);
     if (client && client.ws.readyState === WebSocket.OPEN) client.ws.send(msg)] *)
Definition send_if_open (id : Id) (msg : Msg.t) : M unit :=
  let* client := gets (fun w => Js.get id (World.connectedClients w)) in
  match client with
  | None => ret tt
  | Some c =>
      let* sock := gets (fun w => World.sockets w !! Client.ws c) in
      match sock with
      | Some so =>
          when (bool_decide (Socket.readyState so = OPEN)) (send (Client.ws c) msg)
      | None => ret tt
      end
  end.

(** ** HTTP responses *)

Inductive Body :=
| JsonError (error : string)
| JsonRegistered (token : Token) (id : Id) (user : User.t)
| JsonChart (id : Id) (chart : Chart.t)
| JsonJoined (chart : Chart.t) (participantCount spotsLeft : Z)
| JsonDonation (donation : Donation.t) (balance recipientBalance : Z)
| JsonCompleted (winner : User.t) (prize : Z)
| JsonDeposit (balance : Z) (transaction : Transaction.t) (message : string).

Record Response := mkResponse {
  code : Z;
  body : Body;
}.

Definition json (c : Z) (b : Body) : M Response := ret (mkResponse c b).

(** A route: [try { ... } catch (error) { res.status(500).json({ error }) }] *)
Definition route (failure : string) (handler : M Response)
  : World.t -> Response * World.t :=
  fun w =>
    match handler w with
    | (Val r, w') => (r, w')
    | (Exn _, w') => (mkResponse 500 (JsonError failure), w')
    end.

(** ** POST /api/auth/register *)

Record RegisterBody := mkRegisterBody {
  reg_username : option string;
  reg_email : option string;
  reg_password : option string;
  reg_displayName : option string;
}.

(** [User.findOne(filter)]: the first stored user that matches. *)
Definition User_findOne (p : User.t -> bool) : M (option (Id * User.t)) :=
  gets (fun w => List.find (fun kv => p kv.2) (map_to_list (World.users w))).

(** [new User({...})]: the schema trims and lower-cases [username] and [email]
    and trims [displayName]; the other paths take the given values or their
    defaults. *)
Definition User_new (username email : string) (password : Hashed)
    (displayName : string) (balance : Z) (now : Time) : User.t :=
  User.mk (Js.toLowerCase (Js.trim username)) (Js.toLowerCase (Js.trim email))
          password (Js.trim displayName) 0 0 balance 0 0 User.offline now.

(** [user.save()] of a new user: the [required] validators, then the unique
    indexes on [username] and [email], then the insert. *)
Definition User_insert (id : Id) (u : User.t) : M unit :=
  if bool_decide (User.username u = "") then throw (ValidationError "username")
  else if bool_decide (User.email u = "") then throw (ValidationError "email")
  else if bool_decide (User.displayName u = "")
  then throw (ValidationError "displayName")
  else
    let* clash :=
      User_findOne (fun v => bool_decide (User.username v = User.username u)
                             || bool_decide (User.email v = User.email u)) in
    match clash with
    | Some _ => throw (DuplicateKey "users")
    | None => modify (fun w => World.set_users (<[id := u]> (World.users w)) w)
    end.

(** [jwt.sign({ id, username }, secret, { expiresIn: '30d' })] *)
Definition jwt_sign (id : Id) (username : string) (now : Time) : Token :=
  Jwt id username (now / 1000 + 30 * 24 * 3600).

(** [jwt.verify(token, secret)]: the payload, or an exception. *)
Definition jwt_verify (token : Token) (now : Time) : M (Id * string) :=
  match token with
  | Jwt id username exp =>
      if exp <=? now / 1000 then throw JsonWebTokenError else ret (id, username)
  | BadToken _ => throw JsonWebTokenError
  end.

Definition register (now : Time) (b : RegisterBody)
  : World.t -> Response * World.t :=
  route "Registration failed. Please try again." (
    if Js.falsy (reg_username b) || Js.falsy (reg_email b)
       || Js.falsy (reg_password b)
    then json 400 (JsonError "Missing required fields")
    else
      let username := Js.or_else (reg_username b) "" in
      let email := Js.or_else (reg_email b) "" in
      let password := Js.or_else (reg_password b) "" in
      if (Js.length username <? 3) || (20 <? Js.length username)
      then json 400 (JsonError "Username must be 3-20 characters")
      else if Js.length password <? 6
      then json 400 (JsonError "Password must be at least 6 characters")
      else if negb (Js.is_word username)
      then json 400 (JsonError
             "Username can only contain letters, numbers, and underscores")
      else
        let* existingUser :=
          User_findOne (fun v =>
            bool_decide (User.email v = Js.toLowerCase email)
            || bool_decide (User.username v = Js.toLowerCase username)) in
        match existingUser with
        | Some (_, v) =>
            if bool_decide (User.email v = Js.toLowerCase email)
            then json 400 (JsonError "Email already registered")
            else json 400 (JsonError "Username already taken")
        | None =>
            let hashedPassword := Bcrypt password 12 in
            let* id := fresh in
            let user :=
              User_new (Js.toLowerCase username) (Js.toLowerCase email)
                       hashedPassword (Js.or_else (reg_displayName b) username)
                       100 now in
            User_insert id user ;;;
            let* txid := fresh in
            Transaction_save
              (Transaction.mk txid id Transaction.bonus 100 100 None
                              "Welcome bonus" Transaction.completed) ;;;
            let token := jwt_sign id (User.username user) now in
            json 201 (JsonRegistered token id user)
        end).

(** ** The ledger of a user *)

(** The signed amounts of the entries of user [u], summed in creation order. *)
Definition ledger_sum (u : Id) (txs : list Transaction.t) : Z :=
  foldr (fun tx acc =>
           if decide (Transaction.user tx = u)
           then Transaction.amount tx + acc else acc) 0 txs.

Definition ledger_of (u : Id) (txs : list Transaction.t) : list Transaction.t :=
  List.filter (fun tx => bool_decide (Transaction.user tx = u)) txs.

(** Every stored user's balance is the sum of the user's ledger entries. *)
Definition ledger_ok (w : World.t) : Prop :=
  forall u usr, World.users w !! u = Some usr ->
    User.balance usr = ledger_sum u (World.transactions w).

(** Ids in use lie below the counter, and ledger entries belong to stored
    users. *)
Definition ids_ok (w : World.t) : Prop :=
  (forall u usr, World.users w !! u = Some usr -> (u < World.nextId w)%nat)
  /\ (forall tx, tx ∈ World.transactions w ->
        is_Some (World.users w !! Transaction.user tx)).

(** ** POST /api/charts *)

Record ChartBody := mkChartBody {
  cb_title : option string;
  cb_game : option string;
  cb_entryFee : Z;
  cb_prize : option Z;
  cb_maxParticipants : option Z;
  cb_minParticipants : option Z;
}.

(** [a < b] where [a] may be [undefined]: the comparison is then false. *)
Definition lt_opt (a : option Z) (b : Z) : bool :=
  match a with Some v => v <? b | None => false end.

Definition gt_opt (a : option Z) (b : Z) : bool :=
  match a with Some v => b <? v | None => false end.

(** The validators of the chart schema on the paths of the model. *)
Definition Chart_valid (c : Chart.t) : bool :=
  negb (bool_decide (Chart.title c = ""))
  && (Js.length (Chart.title c) <=? 100)
  && negb (bool_decide (Chart.game c = ""))
  && (0 <=? Chart.entryFee c) && (0 <=? Chart.prize c)
  && (0 <=? Chart.prizePool c)
  && (2 <=? Chart.maxParticipants c) && (Chart.maxParticipants c <=? 8).

(** [chart.save()] of a new chart. *)
Definition Chart_insert (id : Id) (c : Chart.t) : M unit :=
  if Chart_valid c
  then modify (fun w => World.set_charts (<[id := c]> (World.charts w)) w)
  else throw (ValidationError "chart").

Definition createChart (now : Time) (uid : Id) (b : ChartBody)
  : World.t -> Response * World.t :=
  route "Failed to create chart" (
    if Js.falsy (cb_title b) || Js.falsy (cb_game b)
    then json 400 (JsonError "Title and game are required")
    else
      let title := Js.or_else (cb_title b) "" in
      let game := Js.or_else (cb_game b) "" in
      let entryFee := cb_entryFee b in
      if entryFee <? 0
      then json 400 (JsonError "Entry fee cannot be negative")
      else if lt_opt (cb_maxParticipants b) 2 || gt_opt (cb_maxParticipants b) 8
      then json 400 (JsonError "Max participants must be between 2 and 8")
      else
        let* user := User_findById uid in
        let* user := deref "user.balance" user in
        if User.balance user <? entryFee
        then json 400 (JsonError "Insufficient balance to create chart")
        else
          let balance := User.balance user - entryFee in
          User_save uid (User.set_balance balance) ;;;
          let* txid := fresh in
          Transaction_save
            (Transaction.mk txid uid Transaction.entry_fee (- entryFee) balance
               (Some (RefText "chart_creation")) ("Created chart: " +:+ title)
               Transaction.completed) ;;;
          let* cid := fresh in
          let chart :=
            Chart.mk uid (Js.trim title) game entryFee
              (Js.num_or (cb_prize b) (entryFee * 2)) (entryFee * 2)
              Chart.open [Chart.mkP uid now 0 0 Chart.active]
              (Js.num_or (cb_maxParticipants b) 2)
              (Js.num_or (cb_minParticipants b) 2)
              (now + 5 * 60000) None [] 0 None in
          Chart_insert cid chart ;;;
          User_findByIdAndUpdate uid
            (fun u => User.set_chartsCreated (User.chartsCreated u + 1) u) ;;;
          json 201 (JsonChart cid chart)).

(** ** POST /api/charts/:chartId/join *)

Definition joinChart (now : Time) (uid : Id) (chartId : Id)
  : World.t -> Response * World.t :=
  route "Failed to join chart" (
    let* chart := Chart_findById chartId in
    match chart with
    | None => json 404 (JsonError "Chart not found")
    | Some chart =>
      if negb (bool_decide (Chart.status chart = Chart.open))
      then json 400 (JsonError "Chart is not open")
      else if Chart.maxParticipants chart
              <=? Z.of_nat (length (Chart.participants chart))
      then json 400 (JsonError "Chart is full")
      else if existsb (fun p => bool_decide (Chart.user p = uid))
                      (Chart.participants chart)
      then json 400 (JsonError "Already joined this chart")
      else if Chart.startsAt chart <? now
      then json 400 (JsonError "Chart has already started")
      else
        let* user := User_findById uid in
        let* user := deref "user.balance" user in
        if User.balance user <? Chart.entryFee chart
        then json 400 (JsonError "Insufficient balance")
        else
          let balance := User.balance user - Chart.entryFee chart in
          User_save uid (User.set_balance balance) ;;;
          let* txid := fresh in
          Transaction_save
            (Transaction.mk txid uid Transaction.entry_fee
               (- Chart.entryFee chart) balance (Some (RefId chartId))
               ("Entry fee for: " +:+ Chart.title chart)
               Transaction.completed) ;;;
          let prizePool := Chart.prizePool chart + Chart.entryFee chart in
          let participants :=
            Chart.participants chart ++ [Chart.mkP uid now 0 0 Chart.pending] in
          Chart_save chartId (fun c =>
            Chart.set_participants participants
              (Chart.set_prizePool prizePool c)) ;;;
          let chart :=
            Chart.set_participants participants
              (Chart.set_prizePool prizePool chart) in
          let* chart :=
            if Chart.maxParticipants chart <=? Z.of_nat (length participants)
            then
              Chart_save chartId (Chart.set_status Chart.in_progress) ;;;
              let chart := Chart.set_status Chart.in_progress chart in
              let* arenaId := fresh in
              let arena :=
                Arena.mk chartId
                  (map (fun p => Arena.mkP (Chart.user p) 0 0 Arena.playing now)
                       participants)
                  Arena.live [] (Some now) None None now in
              modify (fun w =>
                World.set_arenas (<[arenaId := arena]> (World.arenas w)) w) ;;;
              for_of participants (fun participant =>
                let* nid := fresh in
                let notification :=
                  Notification.mk nid (Chart.user participant)
                    Notification.match_start "🎮 Match Started!"
                    ("Your chart " +:+ String.String (Ascii.ascii_of_nat 34)
                                        (Chart.title chart)
                     +:+ String.String (Ascii.ascii_of_nat 34)
                           " has started. Join the arena now!")
                    (Notification.MatchStart chartId arenaId) false in
                Notification_save notification ;;;
                send_if_open (Chart.user participant)
                             (Msg.notification notification)) ;;;
              ret chart
            else ret chart in
          let* creator := User_findById (Chart.creator chart) in
          let* joiner := User_findById uid in
          let* joiner := deref "joiner.displayName" joiner in
          let* nid := fresh in
          let notification :=
            Notification.mk nid (Chart.creator chart)
              Notification.chart_joined "👥 New Participant"
              (User.displayName joiner +:+ " joined your chart "
               +:+ String.String (Ascii.ascii_of_nat 34) (Chart.title chart)
               +:+ String.String (Ascii.ascii_of_nat 34) "")
              (Notification.ChartJoined chartId uid) false in
          Notification_save notification ;;;
          send_if_open (Chart.creator chart) (Msg.notification notification) ;;;
          json 200 (JsonJoined chart (Z.of_nat (length participants))
                      (Chart.maxParticipants chart
                       - Z.of_nat (length participants)))
    end).

(** ** Fan-out *)

(** [broadcastToArena(arenaId, message, excludeUserId)]: the spectators whose
    user document exists, then the players.  The caller does not await it;
    here it runs where it is called. *)
Definition broadcastToArena (arenaId : Id) (message : Msg.t)
    (excludeUserId : option Id) : M unit :=
  let* arena := Arena_findById arenaId in
  match arena with
  | None => ret tt
  | Some arena =>
      let* populated :=
        gets (fun w =>
          map (fun sp => (Arena.suser sp, World.users w !! Arena.suser sp))
              (Arena.spectators arena)) in
      for_of populated (fun '(user, doc) =>
        match doc with
        | Some _ =>
            when (negb (bool_decide (Some user = excludeUserId)))
                 (send_if_open user message)
        | None => ret tt
        end) ;;;
      for_of (Arena.players arena) (fun p =>
        when (negb (bool_decide (Some (Arena.user p) = excludeUserId)))
             (send_if_open (Arena.user p) message))
  end.

(** [broadcastToAll(message, excludeUserId)] *)
Definition broadcastToAll (message : Msg.t) (excludeUserId : option Id)
  : M unit :=
  let* clients := gets World.connectedClients in
  for_of clients (fun '(userId, client) =>
    let* sock := gets (fun w => World.sockets w !! Client.ws client) in
    match sock with
    | Some so =>
        when (negb (bool_decide (Some userId = excludeUserId))
              && bool_decide (Socket.readyState so = OPEN))
             (send (Client.ws client) message)
    | None => ret tt
    end).

(** ** Settlement *)

(** [completeArena(arenaId, winnerId)]: [None] is the bare [return;] of the
    guard, [Some (winner, prize)] the settled result. *)
Definition completeArena (now : Time) (arenaId winnerId : Id)
  : M (option (User.t * Z)) :=
  try_catch (
    let* arena := Arena_findById arenaId in
    match arena with
    | None => ret None
    | Some arena =>
      if bool_decide (Arena.status arena = Arena.finished) then ret None
      else
        let* populated := Chart_findById (Arena.chart arena) in
        Arena_save arenaId (fun a =>
          Arena.set_winner (Some winnerId)
            (Arena.set_endedAt (Some now)
               (Arena.set_status Arena.finished a))) ;;;
        let* _ := deref "arena.chart._id" populated in
        let chartId := Arena.chart arena in
        let* chart := Chart_findById chartId in
        let* chart := deref "chart.status" chart in
        Chart_save chartId (fun c =>
          Chart.set_endsAt (Some now)
            (Chart.set_winner (Some winnerId)
               (Chart.set_status Chart.completed c))) ;;;
        let totalPrize :=
          Chart.entryFee chart * Z.of_nat (length (Chart.participants chart)) in
        let* winner := User_findById winnerId in
        let* winner := deref "winner.balance" winner in
        let winner :=
          User.set_chartsWon (User.chartsWon winner + 1)
            (User.set_totalEarned (User.totalEarned winner + totalPrize)
               (User.set_balance (User.balance winner + totalPrize) winner)) in
        User_save winnerId (fun u =>
          User.set_chartsWon (User.chartsWon winner)
            (User.set_totalEarned (User.totalEarned winner)
               (User.set_balance (User.balance winner) u))) ;;;
        let* txid := fresh in
        Transaction_save
          (Transaction.mk txid winnerId Transaction.prize totalPrize
             (User.balance winner) (Some (RefId chartId))
             ("Winner prize for: " +:+ Chart.title chart)
             Transaction.completed) ;;;
        for_of (Arena.players arena) (fun participant =>
          when (negb (bool_decide (Arena.user participant = winnerId))) (
            let* nid := fresh in
            let notification :=
              Notification.mk nid (Arena.user participant)
                Notification.chart_completed "🏆 Chart Completed"
                (Chart.title chart +:+ " has ended. "
                 +:+ User.displayName winner +:+ " won "
                 +:+ pretty totalPrize +:+ " THB!")
                (Notification.ChartCompleted chartId winnerId totalPrize)
                false in
            Notification_save notification ;;;
            send_if_open (Arena.user participant)
                         (Msg.notification notification))) ;;;
        broadcastToArena arenaId
          (Msg.arena_completed arenaId winnerId totalPrize now) None ;;;
        ret (Some (winner, totalPrize))
    end)
    (fun error => throw error).

(** ** POST /api/arenas/:arenaId/complete *)

Definition completeRoute (now : Time) (arenaId winnerId : Id)
  : World.t -> Response * World.t :=
  route "Failed to complete arena" (
    let* result := completeArena now arenaId winnerId in
    let* result := deref "result.winner" result in
    json 200 (JsonCompleted result.1 result.2)).

(** ** POST /api/donations *)

Record DonationBody := mkDonationBody {
  db_chartId : Id;
  db_recipientId : Id;
  db_amount : Z;
  db_message : option string;
}.

(** [donation.save()] of a new donation: the [maxlength] of the message, the
    unique index on [transactionId], then the insert. *)
Definition Donation_insert (d : Donation.t) : M unit :=
  if 280 <? Js.length (Donation.message d)
  then throw (ValidationError "message")
  else
    let* clash :=
      gets (fun w =>
        existsb (fun e => bool_decide
                   (Donation.transactionId e = Donation.transactionId d))
                (World.donations w)) in
    if clash then throw (DuplicateKey "donations")
    else modify (fun w => World.set_donations (World.donations w ++ [d]) w).

(** [message ? prefix + text : ''] *)
Definition if_message (message : option string) (text : string -> string)
  : string :=
  if Js.falsy message then "" else text (Js.or_else message "").

Definition donate (now : Time) (rnd : string) (uid : Id) (b : DonationBody)
  : World.t -> Response * World.t :=
  route "Failed to process donation" (
    let chartId := db_chartId b in
    let recipientId := db_recipientId b in
    let amount := db_amount b in
    let message := db_message b in
    if (amount =? 0) || (amount <=? 0)
    then json 400 (JsonError "Invalid donation amount")
    else if amount <? 10
    then json 400 (JsonError "Minimum donation is 10 THB")
    else
      let* user := User_findById uid in
      let* user := deref "user.balance" user in
      if User.balance user <? amount
      then json 400 (JsonError "Insufficient balance")
      else
        let* chart := Chart_findById chartId in
        match chart with
        | None => json 404 (JsonError "Chart not found")
        | Some chart =>
          let* recipient := User_findById recipientId in
          match recipient with
          | None => json 404 (JsonError "Recipient not found")
          | Some recipient =>
            let transactionId := "DON-" +:+ pretty now +:+ "-" +:+ rnd in
            let* did := fresh in
            let donation :=
              Donation.mk did uid chartId recipientId amount
                (Js.or_else (Js.trim <$> message) "")
                Donation.completed transactionId (Some now) in
            Donation_insert donation ;;;
            let user :=
              User.set_totalSupported (User.totalSupported user + amount)
                (User.set_balance (User.balance user - amount) user) in
            User_save uid (fun u =>
              User.set_totalSupported (User.totalSupported user)
                (User.set_balance (User.balance user) u)) ;;;
            let recipient :=
              User.set_totalEarned (User.totalEarned recipient + amount)
                (User.set_balance (User.balance recipient + amount)
                   recipient) in
            User_save recipientId (fun u =>
              User.set_totalEarned (User.totalEarned recipient)
                (User.set_balance (User.balance recipient) u)) ;;;
            let* txid := fresh in
            Transaction_save
              (Transaction.mk txid uid Transaction.donation (- amount)
                 (User.balance user) (Some (RefId did))
                 ("Donation to " +:+ User.displayName recipient
                  +:+ if_message message
                        (fun m => ": " +:+ String.substring 0 30 m))
                 Transaction.completed) ;;;
            let* txid := fresh in
            Transaction_save
              (Transaction.mk txid recipientId Transaction.donation amount
                 (User.balance recipient) (Some (RefId did))
                 ("Donation from " +:+ User.displayName user)
                 Transaction.completed) ;;;
            Chart_save chartId (fun c =>
              Chart.set_totalDonations (Chart.totalDonations chart + amount)
                (Chart.set_donations (Chart.donations chart ++ [did]) c)) ;;;
            let* donor := User_findById uid in
            let* donor := deref "donor.displayName" donor in
            let* nid := fresh in
            let notification :=
              Notification.mk nid recipientId Notification.donation
                "💰 Received Donation!"
                (User.displayName donor +:+ " donated " +:+ pretty amount
                 +:+ " THB" +:+ if_message message (fun m => ": " +:+ m))
                (Notification.Donated chartId did amount uid
                   (User.displayName donor)) false in
            Notification_save notification ;;;
            send_if_open recipientId (Msg.notification notification) ;;;
            json 201 (JsonDonation donation (User.balance user)
                        (User.balance recipient))
          end
        end).

(** ** POST /api/transactions/deposit *)

Definition depositRoute (uid : Id) (amount : Z)
  : World.t -> Response * World.t :=
  route "Failed to process deposit" (
    if (amount =? 0) || (amount <=? 0)
    then json 400 (JsonError "Invalid amount")
    else if 10000 <? amount
    then json 400 (JsonError "Maximum deposit is 10,000 THB")
    else
      let* user := User_findById uid in
      let* user := deref "user.balance" user in
      let balance := User.balance user + amount in
      User_save uid (User.set_balance balance) ;;;
      let* txid := fresh in
      let transaction :=
        Transaction.mk txid uid Transaction.deposit amount balance None
          ("Deposit " +:+ pretty amount +:+ " THB") Transaction.completed in
      Transaction_save transaction ;;;
      json 200 (JsonDeposit balance transaction
                  ("Successfully deposited " +:+ pretty amount +:+ " THB"))).

(** ** The WebSocket server *)

Module Cmd.
Inductive t :=
| auth (token : Token)
| join_arena (arenaId : Id)
| update_score (arenaId playerId : Id) (score : Z) (moves : option Z)
| leave_arena
| ping.
End Cmd.

(** [wss.on('connection', ws => ...)]: a new socket [h]. *)
Definition ws_connection (h : Handle) (w : World.t) : World.t :=
  World.set_sockets (<[h := Socket.mk None [] OPEN]> (World.sockets w)) w.

Definition Socket_update (h : Handle) (f : Socket.t -> Socket.t) : M unit :=
  modify (fun w => World.set_sockets (alter f h (World.sockets w)) w).

Definition select_info (id : Id) (u : User.t) : UserInfo :=
  mkInfo id (User.username u) (User.displayName u).

(** The update document of the score handler, as its object literals build
    it. *)
Definition score_fields (score : Z) (moves : option Z) : list (string * Z) :=
  let update := Js.literal [("players.$.score", score)] in
  match moves with
  | Some m => Js.assign "players.$.moves" m update
  | None => update
  end.

Definition score_update_doc (now : Time) (score : Z) (moves : option Z)
  : list (string * list (string * Z)) :=
  Js.literal [("$set", score_fields score moves);
              ("$set", Js.literal [("updatedAt", now)])].

(** One path of a [$set] applied to an arena; [pos] is the player matched by
    the filter, which [$] stands for. *)
Definition Arena_set_path (pos : nat) (path : string) (v : Z) (a : Arena.t)
  : Arena.t :=
  if bool_decide (path = "players.$.score") then
    Arena.set_players
      (alter (fun p => Arena.mkP (Arena.user p) v (Arena.moves p)
                                 (Arena.pstatus p) (Arena.joinedAt p))
             pos (Arena.players a)) a
  else if bool_decide (path = "players.$.moves") then
    Arena.set_players
      (alter (fun p => Arena.mkP (Arena.user p) (Arena.score p) v
                                 (Arena.pstatus p) (Arena.joinedAt p))
             pos (Arena.players a)) a
  else if bool_decide (path = "updatedAt") then Arena.set_updatedAt v a
  else a.

(** The index of the first player whose user is [playerId]. *)
Fixpoint player_index (playerId : Id) (ps : list Arena.Player) : option nat :=
  match ps with
  | [] => None
  | p :: r =>
      if bool_decide (Arena.user p = playerId) then Some 0%nat
      else S <$> player_index playerId r
  end.

(** [Arena.updateOne({ _id: arenaId, 'players.user': playerId }, doc)] *)
Definition Arena_updateOne (arenaId playerId : Id)
    (doc : list (string * list (string * Z))) : M unit :=
  modify (fun w =>
    match World.arenas w !! arenaId with
    | None => w
    | Some a =>
        match player_index playerId (Arena.players a) with
        | None => w
        | Some pos =>
            let fields := default [] (Js.get "$set" doc) in
            let a' :=
              foldl (fun acc kv => Arena_set_path pos kv.1 kv.2 acc) a fields in
            World.set_arenas (<[arenaId := a']> (World.arenas w)) w
        end
    end).

(** [$addToSet: { spectators: entry }]: added unless an equal entry is
    there.  Entries are compared as whole values, here user and time (the
    [_id] that Mongoose gives each entry is left out). *)
Definition addToSet_spectators (entry : Arena.Spectator) (a : Arena.t)
  : Arena.t :=
  if bool_decide (entry ∈ Arena.spectators a) then a
  else Arena.set_spectators (Arena.spectators a ++ [entry]) a.

(** [$pull: { spectators: { user: id } }] *)
Definition pull_spectators (id : Id) (a : Arena.t) : Arena.t :=
  Arena.set_spectators
    (List.filter (fun sp => negb (bool_decide (Arena.suser sp = id)))
                 (Arena.spectators a)) a.

(** The chart schema has no [winScore] path, so [chart?.winScore] is
    [undefined] and the threshold is the default. *)
Definition winScore : Z := 100.

Definition leave_arenas (now : Time) (userId : Id) (arenas : list Id)
  : M unit :=
  for_of arenas (fun arenaId =>
    Arena_findByIdAndUpdate arenaId (pull_spectators userId) ;;;
    broadcastToArena arenaId (Msg.spectator_left userId arenaId now) None).

(** [ws.on('message', ...)] for a parsed message. *)
Definition ws_message (now : Time) (h : Handle) (message : Cmd.t)
  : World.t -> World.t :=
  fun w0 =>
  match World.sockets w0 !! h with
  | None => w0
  | Some ws =>
    snd (try_catch (
      match message with
      | Cmd.auth token =>
          try_catch (
            let* decoded := jwt_verify token now in
            let id := decoded.1 in
            Socket_update h (fun so =>
              Socket.mk (Some id) (Socket.arenas so) (Socket.readyState so)) ;;;
            modify (fun w =>
              World.set_connectedClients
                (Js.assign id (Client.mk h id [] now)
                           (World.connectedClients w)) w) ;;;
            User_findByIdAndUpdate id (User.set_presence User.online now) ;;;
            send h (Msg.auth_success id now) ;;;
            broadcastToAll (Msg.user_status id User.online None) (Some id))
            (fun _ => send h (Msg.auth_error "Invalid token" now))
      | Cmd.join_arena arenaId =>
          match Socket.userId ws with
          | None => send h (Msg.error "Not authenticated" None)
          | Some userId =>
              Socket_update h (fun so =>
                Socket.mk (Socket.userId so)
                          (Js.set_add arenaId (Socket.arenas so))
                          (Socket.readyState so)) ;;;
              Arena_findByIdAndUpdate arenaId
                (addToSet_spectators (Arena.mkS userId now)) ;;;
              let* user := User_findById userId in
              broadcastToArena arenaId
                (Msg.spectator_joined userId (select_info userId <$> user)
                                      arenaId now)
                (Some userId) ;;;
              let* arenaState :=
                gets (fun w =>
                  (fun a =>
                     (a,
                      map (fun p => select_info (Arena.user p)
                                      <$> World.users w !! Arena.user p)
                          (Arena.players a),
                      map (fun sp => select_info (Arena.suser sp)
                                       <$> World.users w !! Arena.suser sp)
                          (Arena.spectators a)))
                  <$> World.arenas w !! arenaId) in
              send h (Msg.arena_state arenaState now)
          end
      | Cmd.update_score scoreArenaId playerId score moves =>
          match Socket.userId ws with
          | None => ret tt
          | Some userId =>
              let* scoreArena := Arena_findById scoreArenaId in
              match scoreArena with
              | Some a =>
                  if existsb (fun p => bool_decide (Arena.user p = userId))
                             (Arena.players a)
                  then
                    Arena_updateOne scoreArenaId playerId
                      (score_update_doc now score moves) ;;;
                    broadcastToArena scoreArenaId
                      (Msg.score_update scoreArenaId playerId score moves now)
                      None ;;;
                    let* updatedArena := Arena_findById scoreArenaId in
                    let* _ := deref "updatedArena.chart" updatedArena in
                    if winScore <=? score
                    then
                      let* _ := completeArena now scoreArenaId playerId in
                      ret tt
                    else ret tt
                  else ret tt
              | None => ret tt
              end
          end
      | Cmd.leave_arena =>
          match Socket.userId ws with
          | Some userId =>
              leave_arenas now userId (Socket.arenas ws) ;;;
              Socket_update h (fun so =>
                Socket.mk (Socket.userId so) [] (Socket.readyState so))
          | None => ret tt
          end
      | Cmd.ping => send h (Msg.pong now)
      end)
      (fun _ => send h (Msg.error "Failed to process message" (Some now)))
      w0)
  end.

(** [ws.on('close', ...)]: the socket [h] has closed. *)
Definition ws_close (now : Time) (h : Handle) : World.t -> World.t :=
  fun w0 =>
  match World.sockets w0 !! h with
  | None => w0
  | Some ws =>
    snd ((
      Socket_update h (fun so =>
        Socket.mk (Socket.userId so) (Socket.arenas so) CLOSED) ;;;
      match Socket.userId ws with
      | Some userId =>
          modify (fun w =>
            World.set_connectedClients
              (Js.remove userId (World.connectedClients w)) w) ;;;
          User_findByIdAndUpdate userId (User.set_presence User.offline now) ;;;
          broadcastToAll (Msg.user_status userId User.offline (Some now))
                         (Some userId) ;;;
          leave_arenas now userId (Socket.arenas ws)
      | None => ret tt
      end) w0)
  end.

(** [connectedClients.get(userId)]: the socket registered for a user. *)
Definition lookup_client (userId : Id) (w : World.t) : option Handle :=
  Client.ws <$> Js.get userId (World.connectedClients w).

(** ** Sample requests and worlds, for the concrete runs below *)

Definition alice_body : RegisterBody :=
  mkRegisterBody (Some "alice") (Some "alice@thumbs.io") (Some "secret1") None.
Definition bob_body : RegisterBody :=
  mkRegisterBody (Some "Bob") (Some "Bob@thumbs.io") (Some "secret2")
                 (Some "Bobby").
Definition carol_body : RegisterBody :=
  mkRegisterBody (Some "carol") (Some "carol@thumbs.io") (Some "secret3") None.

(** Alice is user 0, Bob user 2, Carol user 4; each holds the welcome bonus. *)
Definition w_users : World.t :=
  (register 1000 carol_body
     (register 1000 bob_body (register 1000 alice_body World.init).2).2).2.

Definition duel_body : ChartBody :=
  mkChartBody (Some "Duel") (Some "chess") 20 None (Some 2) None.

(** Alice opens chart 7: two seats, entry fee 20. *)
Definition w_chart : World.t := (createChart 2000 0%nat duel_body w_users).2.

(** Bob takes the second seat; arena 9 starts. *)
Definition w_arena : World.t := (joinChart 3000 2%nat 7%nat w_chart).2.

(** Carol and Bob connect on sockets 1 and 2 and authenticate. *)
Definition w_live : World.t :=
  ws_message 3200 2%nat (Cmd.auth (Jwt 2%nat "bob" 2592001))
    (ws_message 3100 1%nat (Cmd.auth (Jwt 4%nat "carol" 2592001))
       (ws_connection 2%nat (ws_connection 1%nat w_arena))).

(** ** Notions used in the statements *)

(** Worlds that agree on everything but the notifications, the id counter
    (which may only grow) and the outbox. *)
Definition same_core (w w' : World.t) : Prop :=
  World.users w' = World.users w /\ World.charts w' = World.charts w
  /\ World.arenas w' = World.arenas w
  /\ World.donations w' = World.donations w
  /\ World.transactions w' = World.transactions w
  /\ World.connectedClients w' = World.connectedClients w
  /\ World.sockets w' = World.sockets w
  /\ (World.nextId w <= World.nextId w')%nat.

(** A computation that only notifies and sends, and never throws. *)
Definition quiet {A} (m : M A) : Prop :=
  forall w, (exists a, (m w).1 = Val a) /\ same_core w (m w).2.

(** What a repeated settlement may answer according to the specification:
    the result of the first settlement, or an error. *)
Definition settled_or_conflict (first : User.t * Z)
    (second : outcome (option (User.t * Z))) : Prop :=
  second = Val (Some first) \/ exists e, second = Exn e.

(** The donation document that [donate] builds. *)
Definition donation_of (now : Time) (rnd : string) (uid : Id)
    (b : DonationBody) (w : World.t) : Donation.t :=
  Donation.mk (World.nextId w) uid (db_chartId b) (db_recipientId b)
    (db_amount b) (Js.or_else (Js.trim <$> db_message b) "")
    Donation.completed ("DON-" +:+ pretty now +:+ "-" +:+ rnd) (Some now).

(** A run of join requests (time, user) on one chart. *)
Definition joins (reqs : list (Time * Id)) (chartId : Id) (w : World.t)
  : World.t :=
  foldl (fun w req => (joinChart req.1 req.2 chartId w).2) w reqs.

(** The player that the arena of a filled chart holds for a participant. *)
Definition snapshot (now : Time) (p : Chart.Participant) : Arena.Player :=
  Arena.mkP (Chart.user p) 0 0 Arena.playing now.

(** The balance of a stored user. *)
Definition balance_of (u : Id) (w : World.t) : option Z :=
  User.balance <$> World.users w !! u.

(** Arena 9 settled in favour of Bob. *)
Definition w_settled : World.t := (completeArena 4000 9%nat 2%nat w_arena).2.

(** [ledger_ok] as a test: every stored user's balance equals the sum of the
    user's entries. *)
Definition ledger_okb (w : World.t) : bool :=
  forallb (fun kv => User.balance kv.2 =? ledger_sum kv.1 (World.transactions w))
          (map_to_list (World.users w)).

(** Alice donates 30 to herself on chart 7. *)
Definition self_donation : DonationBody := mkDonationBody 7%nat 0%nat 30 None.

Definition w_self_donated : World.t :=
  (donate 5000 "K3X9" 0%nat self_donation w_chart).2.

(** The (user, signed amount, recorded balance) of the entries appended
    between two worlds. *)
Definition new_entries (w w' : World.t) : list (Id * Z * Z) :=
  map (fun tx => (Transaction.user tx, Transaction.amount tx,
                  Transaction.balance tx))
      (drop (length (World.transactions w)) (World.transactions w')).

(** The responses of a donation that fails a precondition. *)
Definition donation_refusals : list Response :=
  [ mkResponse 400 (JsonError "Invalid donation amount");
    mkResponse 400 (JsonError "Minimum donation is 10 THB");
    mkResponse 400 (JsonError "Insufficient balance");
    mkResponse 404 (JsonError "Chart not found");
    mkResponse 404 (JsonError "Recipient not found") ].

(** The chart that Alice opened, as stored in [w_chart]. *)
Definition duel_chart : Chart.t :=
  Chart.mk 0%nat "Duel" "chess" 20 40 40 Chart.open
           [Chart.mkP 0%nat 2000 0 0 Chart.active] 2 2 302000 None [] 0 None.

(** Carol connects twice (sockets 1 and 2) and authenticates on both; then
    the first socket closes. *)
Definition carol_token : Token := Jwt 4%nat "carol" 2592001.

Definition w_reconnected : World.t :=
  ws_message 200 2%nat (Cmd.auth carol_token)
    (ws_message 100 1%nat (Cmd.auth carol_token)
       (ws_connection 2%nat (ws_connection 1%nat w_users))).

Definition w_stale_closed : World.t := ws_close 300 1%nat w_reconnected.

(** Carol watches arena 9, and asks to watch it once more. *)
Definition w_watching : World.t :=
  ws_message 6000 1%nat (Cmd.join_arena 9%nat) w_live.

Definition w_watching_twice : World.t :=
  ws_message 7000 1%nat (Cmd.join_arena 9%nat) w_watching.

(** Bob reports a score of 50 after 3 moves for himself. *)
Definition w_scored : World.t :=
  ws_message 6000 2%nat (Cmd.update_score 9%nat 2%nat 50 (Some 3)) w_live.

(** (user, score, moves) of the players of an arena. *)
Definition scores (arenaId : Id) (w : World.t) : option (list (Id * Z * Z)) :=
  map (fun p => (Arena.user p, Arena.score p, Arena.moves p))
  <$> (Arena.players <$> World.arenas w !! arenaId).

(** ** Operations, for statements about every sequence of them *)

Inductive Op :=
| OpRegister (now : Time) (b : RegisterBody)
| OpCreateChart (now : Time) (uid : Id) (b : ChartBody)
| OpJoinChart (now : Time) (uid chartId : Id)
| OpDonate (now : Time) (rnd : string) (uid : Id) (b : DonationBody)
| OpDeposit (uid : Id) (amount : Z)
| OpComplete (now : Time) (arenaId winnerId : Id)
| OpConnection (h : Handle)
| OpMessage (now : Time) (h : Handle) (message : Cmd.t)
| OpClose (now : Time) (h : Handle).

Definition perform (op : Op) (w : World.t) : World.t :=
  match op with
  | OpRegister now b => (register now b w).2
  | OpCreateChart now uid b => (createChart now uid b w).2
  | OpJoinChart now uid chartId => (joinChart now uid chartId w).2
  | OpDonate now rnd uid b => (donate now rnd uid b w).2
  | OpDeposit uid amount => (depositRoute uid amount w).2
  | OpComplete now arenaId winnerId => (completeRoute now arenaId winnerId w).2
  | OpConnection h => ws_connection h w
  | OpMessage now h message => ws_message now h message w
  | OpClose now h => ws_close now h w
  end.

Definition perform_all (ops : list Op) (w : World.t) : World.t :=
  foldl (fun w op => perform op w) w ops.

(** A donation whose recipient is the donor. *)
Definition self_donating (op : Op) : Prop :=
  match op with
  | OpDonate _ _ uid b => uid = db_recipientId b
  | _ => False
  end.

(** The two ledger conditions on the parts of the world they read: stored
    users lie below the id counter and hold the sum of their entries, and
    entries belong to stored users. *)
Definition inv (us : gmap nat User.t) (txs : list Transaction.t) (next : Id)
  : Prop :=
  (forall u usr, us !! u = Some usr ->
     (u < next)%nat /\ User.balance usr = ledger_sum u txs)
  /\ (forall tx, tx ∈ txs -> is_Some (us !! Transaction.user tx)).

Definition world_ok (w : World.t) : Prop :=
  inv (World.users w) (World.transactions w) (World.nextId w).

(** A computation that moves every world to one related to it by [R],
    however it ends. *)
Definition respects (R : World.t -> World.t -> Prop) {A} (m : M A) : Prop :=
  forall w, R w (m w).2.

(** The ledger conditions carry over from [w] to [w']. *)
Definition ok_step (w w' : World.t) : Prop := world_ok w -> world_ok w'.

(** The arenas of [w'] have the players, with their scores and moves, that
    they have in [w]. *)
Definition players_kept (w w' : World.t) : Prop :=
  forall a, Arena.players <$> World.arenas w' !! a
            = Arena.players <$> World.arenas w !! a.
(** * More of the server: logging in and out, notifications *)

(** ** POST /api/auth/login and POST /api/auth/logout *)

Record LoginBody := mkLoginBody {
  login_email : option string;
  login_password : option string;
}.

(** [bcrypt.compare(password, hash)] *)
Definition bcrypt_compare (password : string) (hash : Hashed) : bool :=
  match hash with
  | Bcrypt hashed _ => bool_decide (password = hashed)
  end.

(** The answers of the session and notification routes.  Of the user
    object that a login returns, the fields of the model are kept. *)
Inductive Reply :=
| ReplyError (error : string)
| ReplyLogin (token : Token) (id : Id) (user : User.t)
| ReplySuccess.

Record Answer := mkAnswer {
  answer_code : Z;
  answer_body : Reply;
}.

(** A route: [try { ... } catch (error) { res.status(500).json({ error }) }] *)
Definition answer_route (failure : string) (handler : M Answer)
  : World.t -> Answer * World.t :=
  fun w =>
    match handler w with
    | (Val r, w') => (r, w')
    | (Exn _, w') => (mkAnswer 500 (ReplyError failure), w')
    end.

Definition login (now : Time) (b : LoginBody) : World.t -> Answer * World.t :=
  answer_route "Login failed. Please try again." (
    if Js.falsy (login_email b) || Js.falsy (login_password b)
    then ret (mkAnswer 400 (ReplyError "Email and password required"))
    else
      let email := Js.or_else (login_email b) "" in
      let password := Js.or_else (login_password b) "" in
      let* user :=
        User_findOne (fun v =>
          bool_decide (User.email v = Js.toLowerCase email)) in
      match user with
      | None => ret (mkAnswer 401 (ReplyError "Invalid email or password"))
      | Some (id, user) =>
          let validPassword := bcrypt_compare password (User.password user) in
          if negb validPassword
          then ret (mkAnswer 401 (ReplyError "Invalid email or password"))
          else
            User_save id (User.set_presence User.online now) ;;;
            let user := User.set_presence User.online now user in
            let token := jwt_sign id (User.username user) now in
            ret (mkAnswer 200 (ReplyLogin token id user))
      end).

Definition logout (now : Time) (uid : Id) : World.t -> Answer * World.t :=
  answer_route "Logout failed" (
    User_findByIdAndUpdate uid (User.set_presence User.offline now) ;;;
    ret (mkAnswer 200 ReplySuccess)).

(** ** Notifications: unread count, mark as read *)

(** [{ read: true, readAt: Date.now() }] applied to a notification; the
    [readAt] path is not part of the record. *)
Definition Notification_read (n : Notification.t) : Notification.t :=
  Notification.mk (Notification._id n) (Notification.user n)
    (Notification.type n) (Notification.title n) (Notification.message n)
    (Notification.data n) true.

(** [Notification.findByIdAndUpdate(id, update)]: the stored notification
    with that id, if there is one. *)
Fixpoint Notification_findByIdAndUpdate_in (id : Id)
    (f : Notification.t -> Notification.t) (l : list Notification.t)
  : list Notification.t :=
  match l with
  | [] => []
  | n :: r =>
      if bool_decide (Notification._id n = id) then f n :: r
      else n :: Notification_findByIdAndUpdate_in id f r
  end.

(** PUT /api/notifications/:notificationId/read.  The route does not use
    the id of the authenticated user. *)
Definition markNotificationRead (notificationId : Id)
  : World.t -> Answer * World.t :=
  answer_route "Failed to mark notification as read" (
    modify (fun w =>
      World.set_notifications
        (Notification_findByIdAndUpdate_in notificationId Notification_read
           (World.notifications w)) w) ;;;
    ret (mkAnswer 200 ReplySuccess)).

(** The filter [{ user: uid, read: false }] *)
Definition unread_of (uid : Id) (n : Notification.t) : bool :=
  bool_decide (Notification.user n = uid) && negb (Notification.read n).

(** PUT /api/notifications/read-all: [Notification.updateMany] on the
    unread notifications of the user. *)
Definition markAllNotificationsRead (uid : Id) : World.t -> Answer * World.t :=
  answer_route "Failed to mark notifications as read" (
    modify (fun w =>
      World.set_notifications
        (map (fun n => if unread_of uid n then Notification_read n else n)
             (World.notifications w)) w) ;;;
    ret (mkAnswer 200 ReplySuccess)).

(** [Notification.countDocuments({ user: uid, read: false })], the
    [unreadCount] of GET /api/notifications. *)
Definition unreadCount (uid : Id) (w : World.t) : Z :=
  Z.of_nat (length (List.filter (unread_of uid) (World.notifications w))).

(** [Notification.countDocuments({ user: uid })], the [total] of
    GET /api/notifications. *)
Definition totalCount (uid : Id) (w : World.t) : Z :=
  Z.of_nat (length (List.filter
                      (fun n => bool_decide (Notification.user n = uid))
                      (World.notifications w))).

(** * The browser side *)

(** ** The API client: reconnecting the WebSocket *)

Module ApiClient.

(** The fields of [ThumbsAppAPI] that the reconnect logic reads. *)
Record t := mk {
  token : option string;
  reconnectAttempts : Z;
  maxReconnectAttempts : Z;
}.

(** [new ThumbsAppAPI()], with the token found in local storage. *)
Definition new (stored : option string) : t := mk stored 0 5.

(** [ws.onopen]: the attempts are counted from zero again. *)
Definition onopen (c : t) : t := mk (token c) 0 (maxReconnectAttempts c).

(** [ws.onclose]: the client afterwards, and the delay in milliseconds of
    the reconnect that is scheduled, if one is. *)
Definition onclose (c : t) : t * option Z :=
  if reconnectAttempts c <? maxReconnectAttempts c then
    let attempts := reconnectAttempts c + 1 in
    let delay := Z.min (1000 * 2 ^ attempts) 30000 in
    (mk (token c) attempts (maxReconnectAttempts c), Some delay)
  else (c, None).

(** The socket closes [n] times in a row without opening in between: the
    client at the end and what each close scheduled. *)
Fixpoint closes (n : nat) (c : t) : t * list (option Z) :=
  match n with
  | O => (c, [])
  | S n =>
      let '(c1, delay) := onclose c in
      let '(c2, delays) := closes n c1 in
      (c2, delay :: delays)
  end.

End ApiClient.

(** ** What the pages show *)

(** [formatDate(date)] of the API client; the texts are ['Just now'],
    [`${n}m ago`], [`${n}h ago`], [`${n}d ago`] and the local date. *)
Inductive Ago :=
| JustNow
| MinutesAgo (n : Z)
| HoursAgo (n : Z)
| DaysAgo (n : Z)
| OnDate (date : Time).

Definition formatDate (date now : Time) : Ago :=
  let diffMs := now - date in
  let diffMins := diffMs / 60000 in
  let diffHours := diffMs / 3600000 in
  let diffDays := diffMs / 86400000 in
  if diffMins <? 1 then JustNow
  else if diffMins <? 60 then MinutesAgo diffMins
  else if diffHours <? 24 then HoursAgo diffHours
  else if diffDays <? 7 then DaysAgo diffDays
  else OnDate date.


(** * Further notions used in the statements *)

(** ** Opening a chart *)

(** The chart document that [createChart] builds. *)
Definition chart_of (now : Time) (uid : Id) (b : ChartBody) : Chart.t :=
  Chart.mk uid (Js.trim (Js.or_else (cb_title b) ""))
    (Js.or_else (cb_game b) "") (cb_entryFee b)
    (Js.num_or (cb_prize b) (cb_entryFee b * 2)) (cb_entryFee b * 2)
    Chart.open [Chart.mkP uid now 0 0 Chart.active]
    (Js.num_or (cb_maxParticipants b) 2)
    (Js.num_or (cb_minParticipants b) 2)
    (now + 5 * 60000) None [] 0 None.

(** A chart request that passes the guards of the route. *)
Definition chart_request_ok (b : ChartBody) : Prop :=
  Js.falsy (cb_title b) = false /\ Js.falsy (cb_game b) = false
  /\ 0 <= cb_entryFee b
  /\ lt_opt (cb_maxParticipants b) 2 = false
  /\ gt_opt (cb_maxParticipants b) 8 = false.

(** A chart request whose title is blanks only. *)
Definition blank_title_body : ChartBody :=
  mkChartBody (Some "   ") (Some "chess") 20 None (Some 2) None.

(** ** What the routes keep true of the stored charts *)

(** The seats of a chart: the creator holds the first one, no user holds
    two, the chart never holds more than [maxParticipants], and an open
    chart has a seat left. *)
Definition seats_ok (c : Chart.t) : Prop :=
  let n := Z.of_nat (length (Chart.participants c)) in
  Chart.user <$> head (Chart.participants c) = Some (Chart.creator c)
  /\ NoDup (map Chart.user (Chart.participants c))
  /\ n <= Chart.maxParticipants c <= 8
  /\ (Chart.status c = Chart.open -> n < Chart.maxParticipants c).

(** The prize pool shown for a chart: one entry fee per seat taken, and one
    more. *)
Definition pool_ok (c : Chart.t) : Prop :=
  0 <= Chart.entryFee c
  /\ Chart.prizePool c
     = Chart.entryFee c * (Z.of_nat (length (Chart.participants c)) + 1).

Definition charts_ok (w : World.t) : Prop :=
  forall id c, World.charts w !! id = Some c -> seats_ok c /\ pool_ok c.

(** The chart conditions carry over from [w] to [w']. *)
Definition charts_step (w w' : World.t) : Prop := charts_ok w -> charts_ok w'.

(** No user is overdrawn. *)
Definition solvent_users (us : gmap nat User.t) : Prop :=
  forall u usr, us !! u = Some usr -> 0 <= User.balance usr.

(** The chart conditions hold and no stored user is overdrawn. *)
Definition sound (w : World.t) : Prop :=
  charts_ok w /\ solvent_users (World.users w).

Definition sound_step (w w' : World.t) : Prop := sound w -> sound w'.

Definition solvent_step (w w' : World.t) : Prop :=
  solvent_users (World.users w) -> solvent_users (World.users w').

(** ** Settled arenas *)

(** The arenas that are finished in [w] are finished in [w'], with the
    winner and the end time they have in [w]. *)
Definition settled_kept (w w' : World.t) : Prop :=
  forall a arena,
    World.arenas w !! a = Some arena ->
    Arena.status arena = Arena.finished ->
    exists arena',
      World.arenas w' !! a = Some arena'
      /\ Arena.status arena' = Arena.finished
      /\ Arena.winner arena' = Arena.winner arena
      /\ Arena.endedAt arena' = Arena.endedAt arena.

(** The ids of the stored arenas lie below the id counter. *)
Definition arena_ids_ok (w : World.t) : Prop :=
  forall a arena, World.arenas w !! a = Some arena -> (a < World.nextId w)%nat.

Definition arenas_step (w w' : World.t) : Prop :=
  arena_ids_ok w -> arena_ids_ok w' /\ settled_kept w w'.

(** ** User names and e-mail addresses *)

(** No two stored users share a user name or an e-mail address. *)
Definition unique_users (us : gmap nat User.t) : Prop :=
  forall i j u v,
    us !! i = Some u -> us !! j = Some v ->
    User.username u = User.username v \/ User.email u = User.email v ->
    i = j.

Definition unique_step (w w' : World.t) : Prop :=
  unique_users (World.users w) -> unique_users (World.users w').

(** ** Fan-out *)

(** The registered clients that [broadcastToAll] reaches: every user but the
    excluded one whose registered socket is open. *)
Definition reached (excludeUserId : option Id) (w : World.t)
  : list (Id * Client.t) :=
  List.filter
    (fun '(userId, client) =>
       match World.sockets w !! Client.ws client with
       | Some so =>
           negb (bool_decide (Some userId = excludeUserId))
           && bool_decide (Socket.readyState so = OPEN)
       | None => false
       end)
    (World.connectedClients w).

(** ** Records *)

(** The ledger of [w'] is the ledger of [w] with entries added at the end;
    so are the donation records. *)
Definition records_grow (w w' : World.t) : Prop :=
  World.transactions w `prefix_of` World.transactions w'
  /\ World.donations w `prefix_of` World.donations w'.

(** ** Sending and notifying *)

(** A computation that only sends: it returns, and the world afterwards is
    the world before with messages added to the outbox. *)
Definition sends_only {A} (m : M A) : Prop :=
  forall w, exists a out,
    m w = (Val a, World.set_outbox (World.outbox w ++ out) w).

(** What the statements say of a notification: whose it is, of which type,
    and whether it has been read. *)
Definition notice (n : Notification.t)
  : Id * Notification.Type_ * bool :=
  (Notification.user n, Notification.type n, Notification.read n).

(** ** Further samples *)

(** Arena 9 as stored in [w_live]. *)
Definition live_arena : Arena.t :=
  Arena.mk 7%nat
    [Arena.mkP 0%nat 0 0 Arena.playing 3000;
     Arena.mkP 2%nat 0 0 Arena.playing 3000]
    Arena.live [] (Some 3000) None None 3000.

(** The [match_start] notification that Bob holds in [w_arena]. *)
Definition bob_match_start : Notification.t :=
  Notification.mk 11%nat 2%nat Notification.match_start "🎮 Match Started!"
    ("Your chart " +:+ String.String (Ascii.ascii_of_nat 34) "Duel"
     +:+ String.String (Ascii.ascii_of_nat 34)
           " has started. Join the arena now!")
    (Notification.MatchStart 7%nat 9%nat) false.

(** * Properties *)

(** ** Running a computation, one step at a time *)

Lemma run_ret {A} (a : A) w : ret a w = (Val a, w).
Proof. reflexivity. Qed.

Lemma run_bind_ret {A B} (a : A) (k : A -> M B) w : bind (ret a) k w = k a w.
Proof. reflexivity. Qed.

Lemma run_bind_gets {A B} (f : World.t -> A) (k : A -> M B) w :
  bind (gets f) k w = k (f w) w.
Proof. reflexivity. Qed.

Lemma run_bind_modify {B} (g : World.t -> World.t) (k : unit -> M B) w :
  bind (modify g) k w = k tt (g w).
Proof. reflexivity. Qed.

Lemma run_bind_fresh {B} (k : Id -> M B) w :
  bind fresh k w = k (World.nextId w) (World.set_nextId (S (World.nextId w)) w).
Proof. reflexivity. Qed.

Lemma run_bind_throw {A B} e (k : A -> M B) w : bind (throw e) k w = (Exn e, w).
Proof. reflexivity. Qed.

Lemma run_bind_bind {A B C} (m : M A) (k : A -> M B) (k' : B -> M C) w :
  bind (bind m k) k' w = bind m (fun a => bind (k a) k') w.
Proof. unfold bind. destruct (m w) as [[a|e] w1]; reflexivity. Qed.

Lemma run_throw {A} e w : @throw A e w = (Exn e, w).
Proof. reflexivity. Qed.

Lemma run_bind_deref {A B} s (o : option A) (k : A -> M B) w :
  bind (deref s o) k w
  = match o with Some a => k a w | None => (Exn (TypeError s), w) end.
Proof. destruct o; reflexivity. Qed.

Lemma run_try_catch {A} (body : M A) h w :
  try_catch body h w
  = match body w with
    | (Val a, w') => (Val a, w')
    | (Exn e, w') => h e w'
    end.
Proof. reflexivity. Qed.

Lemma run_bind {A B} (m : M A) (k : A -> M B) w :
  bind m k w
  = match m w with
    | (Val a, w') => k a w'
    | (Exn e, w') => (Exn e, w')
    end.
Proof. reflexivity. Qed.

Ltac wsimpl H :=
  cbn [World.users World.charts World.arenas World.donations World.transactions
       World.notifications World.nextId World.connectedClients World.sockets
       World.outbox World.set_users World.set_charts World.set_arenas
       World.set_donations World.set_transactions World.set_notifications
       World.set_nextId World.set_connectedClients World.set_sockets
       World.set_outbox fst snd] in H.

Ltac wsimpl_goal :=
  cbn [World.users World.charts World.arenas World.donations World.transactions
       World.notifications World.nextId World.connectedClients World.sockets
       World.outbox World.set_users World.set_charts World.set_arenas
       World.set_donations World.set_transactions World.set_notifications
       World.set_nextId World.set_connectedClients World.set_sockets
       World.set_outbox fst snd].

(** One step of the run in [H]. *)
Ltac mstep H :=
  first
  [ rewrite run_bind_bind in H | rewrite run_bind_ret in H
  | rewrite run_bind_gets in H
  | rewrite run_bind_modify in H | rewrite run_bind_fresh in H
  | rewrite run_bind_throw in H | rewrite run_bind_deref in H
  | rewrite run_ret in H | rewrite run_throw in H ]; cbv beta in H; wsimpl H.

(** Case analysis on the test at the head of the computation [t]. *)
Ltac head_case t :=
  lazymatch t with
  | @bind _ _ ?m _ _ => head_case m
  | @bind _ _ ?m _ => head_case m
  | @try_catch _ ?m _ _ => head_case m
  | @try_catch _ ?m _ => head_case m
  | match ?c with _ => _ end => head_case c
  | ?f ?x =>
      lazymatch f with
      | match ?c with _ => _ end => head_case c
      | _ => destruct t eqn:?
      end
  | _ => destruct t eqn:?
  end.

Ltac mcase H :=
  repeat mstep H;
  lazymatch type of H with
  | ?X = _ => head_case X
  end.

(** Closes a branch whose run ends in a response or an exception that the
    hypotheses exclude. *)
Ltac mfail H :=
  solve [ cbv [json ret throw bind deref] in H;
          inversion H; subst; simpl in *; (discriminate || congruence) ].

(** Boolean tests among the hypotheses, as propositions. *)
Ltac bool_facts :=
  repeat match goal with
  | H : (_ || _) = false |- _ => apply orb_false_iff in H; destruct H
  | H : (_ && _) = true |- _ => apply andb_true_iff in H; destruct H
  | H : negb _ = true |- _ => apply negb_true_iff in H
  | H : negb _ = false |- _ => apply negb_false_iff in H
  | H : (_ <? _) = true |- _ => apply Z.ltb_lt in H
  | H : (_ <? _) = false |- _ => apply Z.ltb_ge in H
  | H : (_ <=? _) = true |- _ => apply Z.leb_le in H
  | H : (_ <=? _) = false |- _ => apply Z.leb_gt in H
  | H : (_ =? _) = true |- _ => apply Z.eqb_eq in H
  | H : (_ =? _) = false |- _ => apply Z.eqb_neq in H
  | H : bool_decide _ = true |- _ => apply bool_decide_eq_true in H
  | H : bool_decide _ = false |- _ => apply bool_decide_eq_false in H
  end.

Lemma run_route failure (handler : M Response) w :
  route failure handler w =
  match handler w with
  | (Val r, w') => (r, w')
  | (Exn _, w') => (mkResponse 500 (JsonError failure), w')
  end.
Proof. reflexivity. Qed.

Lemma run_json c b w : json c b w = (Val (mkResponse c b), w).
Proof. reflexivity. Qed.

(** ** Computations that leave the core of the world alone *)

Lemma same_core_refl w : same_core w w.
Proof. unfold same_core. repeat split; lia. Qed.

Lemma same_core_trans w1 w2 w3 :
  same_core w1 w2 -> same_core w2 w3 -> same_core w1 w3.
Proof.
  unfold same_core. intros (?&?&?&?&?&?&?&?) (?&?&?&?&?&?&?&?).
  repeat split; try congruence; lia.
Qed.

Lemma quiet_ret {A} (a : A) : quiet (ret a).
Proof. intros w. split; [by eexists|apply same_core_refl]. Qed.

Lemma quiet_gets {A} (f : World.t -> A) : quiet (gets f).
Proof. intros w. split; [by eexists|apply same_core_refl]. Qed.

Lemma quiet_bind {A B} (m : M A) (k : A -> M B) :
  quiet m -> (forall a, quiet (k a)) -> quiet (bind m k).
Proof.
  intros Hm Hk w. unfold bind. destruct (Hm w) as [[a Ha] Hs].
  destruct (m w) as [o w1]; simpl in *. subst o.
  destruct (Hk a w1) as [Hv Hs']. split; [exact Hv|].
  eapply same_core_trans; [exact Hs|exact Hs'].
Qed.

Lemma quiet_when b (m : M unit) : quiet m -> quiet (when b m).
Proof. destruct b; simpl; [done|]. intros _. apply quiet_ret. Qed.

Lemma quiet_for_of {A} (xs : list A) (body : A -> M unit) :
  (forall x, quiet (body x)) -> quiet (for_of xs body).
Proof.
  intros Hb. induction xs as [|x xs IH]; simpl.
  - apply quiet_ret.
  - apply quiet_bind; [apply Hb|intros _; apply IH].
Qed.

Lemma quiet_fresh : quiet fresh.
Proof.
  intros w. split; [by eexists|]. unfold same_core; simpl. repeat split; lia.
Qed.

Lemma quiet_send h msg : quiet (send h msg).
Proof.
  intros w. split; [by eexists|]. unfold same_core; simpl. repeat split; lia.
Qed.

Lemma quiet_Notification_save n : quiet (Notification_save n).
Proof.
  intros w. split; [by eexists|]. unfold same_core; simpl. repeat split; lia.
Qed.

Lemma quiet_send_if_open id msg : quiet (send_if_open id msg).
Proof.
  unfold send_if_open. apply quiet_bind; [apply quiet_gets|].
  intros [c|]; [|apply quiet_ret].
  apply quiet_bind; [apply quiet_gets|].
  intros [so|]; [|apply quiet_ret].
  apply quiet_when, quiet_send.
Qed.

Lemma quiet_broadcastToArena a msg ex : quiet (broadcastToArena a msg ex).
Proof.
  unfold broadcastToArena, Arena_findById.
  apply quiet_bind; [apply quiet_gets|].
  intros [arena|]; [|apply quiet_ret].
  apply quiet_bind; [apply quiet_gets|]. intros pop.
  apply quiet_bind.
  - apply quiet_for_of. intros [user [doc|]]; [|apply quiet_ret].
    apply quiet_when, quiet_send_if_open.
  - intros _. apply quiet_for_of. intros p.
    apply quiet_when, quiet_send_if_open.
Qed.

Lemma quiet_broadcastToAll msg ex : quiet (broadcastToAll msg ex).
Proof.
  unfold broadcastToAll.
  apply quiet_bind; [apply quiet_gets|]. intros cs.
  apply quiet_for_of. intros [userId client].
  apply quiet_bind; [apply quiet_gets|].
  intros [so|]; [|apply quiet_ret].
  apply quiet_when, quiet_send.
Qed.

Lemma quiet_run {A} (m : M A) w o w' :
  quiet m -> m w = (o, w') -> (exists a, o = Val a) /\ same_core w w'.
Proof. intros H E. specialize (H w). by rewrite E in H. Qed.

Ltac quiet_tac :=
  repeat first
    [ apply quiet_ret | apply quiet_gets | apply quiet_fresh
    | apply quiet_send | apply quiet_Notification_save
    | apply quiet_send_if_open | apply quiet_broadcastToArena
    | apply quiet_broadcastToAll
    | apply quiet_when
    | apply quiet_for_of; intros ?
    | apply quiet_bind; [|intros ?] ].

(** Names the result and the final world of the quiet computation [m] run
    in [w0]. *)
Ltac run_quiet m w0 w1 S1 :=
  let E := fresh "E" in
  let o := fresh "o" in
  let a := fresh "a" in
  destruct (m w0) as [o w1] eqn:E;
  apply quiet_run in E; [|quiet_tac];
  destruct E as [[a ->] S1].

(** Runs the quiet computation at the head of [H]. *)
Ltac mquiet H w1 S1 :=
  try rewrite run_bind in H;
  lazymatch type of H with
  | context [match for_of ?l ?b ?w0 with _ => _ end] =>
      run_quiet (for_of l b) w0 w1 S1
  | context [match send_if_open ?i ?m ?w0 with _ => _ end] =>
      run_quiet (send_if_open i m) w0 w1 S1
  | context [match broadcastToArena ?a ?m ?e ?w0 with _ => _ end] =>
      run_quiet (broadcastToArena a m e) w0 w1 S1
  | context [match broadcastToAll ?m ?e ?w0 with _ => _ end] =>
      run_quiet (broadcastToAll m e) w0 w1 S1
  end.

Lemma completeArena_finished now a wid w arena :
  World.arenas w !! a = Some arena -> Arena.status arena = Arena.finished ->
  completeArena now a wid w = (Val None, w).
Proof.
  intros Ha Hs. unfold completeArena, Arena_findById.
  rewrite run_try_catch, run_bind_gets, Ha.
  rewrite bool_decide_eq_true_2 by done. done.
Qed.

Lemma completeArena_settles now a wid w res w' :
  completeArena now a wid w = (Val (Some res), w') ->
  exists arena chart winner mid,
    World.arenas w !! a = Some arena /\
    Arena.status arena <> Arena.finished /\
    World.charts w !! Arena.chart arena = Some chart /\
    World.users w !! wid = Some winner /\
    let prize := Chart.entryFee chart * Z.of_nat (length (Chart.participants chart)) in
    let winner' := User.set_chartsWon (User.chartsWon winner + 1)
            (User.set_totalEarned (User.totalEarned winner + prize)
               (User.set_balance (User.balance winner + prize) winner)) in
    res = (winner', prize) /\
    same_core mid w' /\
    mid =
      World.set_transactions
        (World.transactions w ++
           [Transaction.mk (World.nextId w) wid Transaction.prize prize
              (User.balance winner') (Some (RefId (Arena.chart arena)))
              ("Winner prize for: " +:+ Chart.title chart)
              Transaction.completed])
        (World.set_nextId (S (World.nextId w))
           (World.set_users
              (alter (fun u =>
                 User.set_chartsWon (User.chartsWon winner')
                   (User.set_totalEarned (User.totalEarned winner')
                      (User.set_balance (User.balance winner') u)))
                 wid (World.users w))
              (World.set_charts
                 (alter (fun c =>
                    Chart.set_endsAt (Some now)
                      (Chart.set_winner (Some wid)
                         (Chart.set_status Chart.completed c)))
                    (Arena.chart arena) (World.charts w))
                 (World.set_arenas
                    (alter (fun a =>
                       Arena.set_winner (Some wid)
                         (Arena.set_endedAt (Some now)
                            (Arena.set_status Arena.finished a)))
                       a (World.arenas w)) w)))).
Proof.
  intros Hr. unfold completeArena in Hr. rewrite run_try_catch in Hr.
  unfold Arena_findById, Chart_findById, User_findById, Arena_save, Chart_save,
    User_save, Transaction_save in Hr.
  mstep Hr.
  destruct (World.arenas w !! a) as [arena|] eqn:Ha; [|discriminate].
  destruct (bool_decide (Arena.status arena = Arena.finished)) eqn:Hs;
    [discriminate|].
  repeat mstep Hr.
  destruct (World.charts w !! Arena.chart arena) as [chart|] eqn:Hc;
    [|discriminate].
  repeat mstep Hr.
  destruct (World.users w !! wid) as [winner|] eqn:Hw; [|discriminate].
  repeat mstep Hr.
  mquiet Hr w1 S1. mquiet Hr w2 S2.
  rewrite run_ret in Hr. inversion Hr; subst; clear Hr.
  eexists arena, chart, winner, _.
  split; [done|]. split; [by apply bool_decide_eq_false in Hs|].
  split; [done|]. split; [done|]. cbv zeta.
  split; [done|]. split; [eapply same_core_trans; [exact S1|exact S2]|].
  reflexivity.
Qed.


(** ** The ledger *)

Lemma ledger_sum_app u l1 l2 :
  ledger_sum u (l1 ++ l2) = ledger_sum u l1 + ledger_sum u l2.
Proof.
  induction l1 as [|tx l1 IH]; simpl; [lia|].
  destruct (decide (Transaction.user tx = u)); lia.
Qed.

Lemma ledger_sum_ledger_of u l :
  ledger_sum u l
  = foldr (fun tx acc => Transaction.amount tx + acc) 0 (ledger_of u l).
Proof.
  induction l as [|tx l IH]; simpl; [done|].
  destruct (decide (Transaction.user tx = u)) as [e|n].
  - rewrite bool_decide_eq_true_2 by done. simpl. lia.
  - rewrite bool_decide_eq_false_2 by done. done.
Qed.

Lemma ledger_of_app u l1 l2 :
  ledger_of u (l1 ++ l2) = ledger_of u l1 ++ ledger_of u l2.
Proof. unfold ledger_of. apply List.filter_app. Qed.

Lemma ledger_of_absent u l :
  (forall tx, tx ∈ l -> Transaction.user tx <> u) -> ledger_of u l = [].
Proof.
  induction l as [|tx l IH]; intros H; simpl; [done|].
  rewrite bool_decide_eq_false_2; [|apply H; left].
  apply IH. intros t Ht. apply H. by right.
Qed.

Lemma ids_ok_no_entries w :
  ids_ok w -> ledger_of (World.nextId w) (World.transactions w) = [].
Proof.
  intros [Hu Ht]. apply ledger_of_absent. intros tx Htx Heq.
  destruct (Ht tx Htx) as [usr Husr]. rewrite Heq in Husr.
  apply Hu in Husr. lia.
Qed.

Lemma ids_ok_init : ids_ok World.init.
Proof.
  split.
  - intros u usr H. simpl in H. by rewrite lookup_empty in H.
  - intros tx H. simpl in H. by apply elem_of_nil in H.
Qed.

(** ** Registration *)

(** C10. Every successful registration stores a new user whose balance is
    exactly 100 and appends exactly one ledger entry: type [bonus], signed
    amount +100, recorded balance 100.  That entry is the whole ledger of the
    new user, so the ledger already sums up to the starting balance. *)
Theorem register_welcome_bonus now b w r w' :
  ids_ok w ->
  register now b w = (r, w') -> code r = 201 ->
  exists id user tx,
    World.users w !! id = None /\
    World.users w' = <[id := user]> (World.users w) /\
    User.balance user = 100 /\
    World.transactions w' = World.transactions w ++ [tx] /\
    Transaction.user tx = id /\
    Transaction.type tx = Transaction.bonus /\
    Transaction.amount tx = 100 /\
    Transaction.balance tx = 100 /\
    ledger_of id (World.transactions w') = [tx] /\
    ledger_sum id (World.transactions w') = User.balance user.
Proof.
  intros Hids Hr Hc. unfold register in Hr. rewrite run_route in Hr.
  unfold User_insert, User_findOne, Transaction_save, User_new in Hr.
  cbv zeta in Hr.
  do 4 (mcase Hr; [mfail Hr|]).
  mcase Hr.
  { destruct p. mcase Hr; mfail Hr. }
  do 4 (mcase Hr; [mfail Hr|]).
  repeat mstep Hr. rewrite run_json in Hr. inversion Hr; subst; clear Hr.
  eexists _, _, _. wsimpl_goal.
  split.
  { destruct (World.users w !! World.nextId w) eqn:E; [|done].
    apply Hids in E. lia. }
  do 7 (split; [reflexivity|]).
  assert (Hl : ledger_of (World.nextId w)
                 (World.transactions w ++
                    [Transaction.mk (S (World.nextId w)) (World.nextId w)
                       Transaction.bonus 100 100 None "Welcome bonus"
                       Transaction.completed])
               = [Transaction.mk (S (World.nextId w)) (World.nextId w)
                    Transaction.bonus 100 100 None "Welcome bonus"
                    Transaction.completed]).
  { rewrite ledger_of_app, ids_ok_no_entries by done. simpl.
    rewrite bool_decide_eq_true_2; done. }
  split; [exact Hl|]. rewrite ledger_sum_ledger_of, Hl. reflexivity.
Qed.

Lemma register_welcome_bonus_witness :
  exists r w',
    register 1000 alice_body World.init = (r, w') /\ code r = 201 /\
    exists id user tx,
      World.users World.init !! id = None /\
      World.users w' = <[id := user]> (World.users World.init) /\
      User.balance user = 100 /\
      World.transactions w' = World.transactions World.init ++ [tx] /\
      Transaction.user tx = id /\
      Transaction.type tx = Transaction.bonus /\
      Transaction.amount tx = 100 /\
      Transaction.balance tx = 100 /\
      ledger_of id (World.transactions w') = [tx] /\
      ledger_sum id (World.transactions w') = User.balance user.
Proof.
  assert (E : exists r w',
             register 1000 alice_body World.init = (r, w') /\ code r = 201).
  { vm_compute. eexists _, _. split; reflexivity. }
  destruct E as (r & w' & E & Hc). exists r, w'.
  split; [exact E|]. split; [exact Hc|].
  exact (register_welcome_bonus 1000 alice_body World.init r w'
           ids_ok_init E Hc).
Defined.

(** ** Settlement *)

(** C1, amended. After a successful [completeArena] on an arena, a second
    call on that arena (for any winner) changes nothing at all: no balance,
    no ledger entry, no notification, no message.  It returns at the guard
    without a result: neither the settled result nor an error. *)
Theorem completeArena_twice_is_noop now1 now2 a wid1 wid2 w res w1 :
  completeArena now1 a wid1 w = (Val (Some res), w1) ->
  completeArena now2 a wid2 w1 = (Val None, w1).
Proof.
  intros H. apply completeArena_settles in H.
  destruct H as (arena & chart & winner & mid & Ha & _ & _ & _ & H).
  cbv zeta in H. destruct H as (_ & Hcore & Hmid).
  destruct Hcore as (_ & _ & Har & _).
  eapply completeArena_finished.
  - rewrite Har, Hmid. simpl. rewrite lookup_alter_eq, Ha. reflexivity.
  - reflexivity.
Qed.

Lemma completeArena_twice_is_noop_witness :
  exists res,
    completeArena 4000 9%nat 2%nat w_arena = (Val (Some res), w_settled) /\
    completeArena 5000 9%nat 2%nat w_settled = (Val None, w_settled).
Proof.
  assert (E : exists res,
             completeArena 4000 9%nat 2%nat w_arena
             = (Val (Some res), w_settled)).
  { vm_compute. eexists. reflexivity. }
  destruct E as (res & E). exists res. split; [exact E|].
  exact (completeArena_twice_is_noop 4000 5000 9%nat 2%nat 2%nat
           w_arena res w_settled E).
Defined.

(** C1 as stated fails: the second call answers neither with the settled
    result nor with an error.  [completeArena] returns nothing, and the route
    turns that into a 500. *)
Lemma completeArena_second_call_returns_nothing :
  exists res,
    completeArena 4000 9%nat 2%nat w_arena = (Val (Some res), w_settled) /\
    ~ settled_or_conflict res (completeArena 5000 9%nat 2%nat w_settled).1 /\
    completeRoute 5000 9%nat 2%nat w_settled
    = (mkResponse 500 (JsonError "Failed to complete arena"), w_settled).
Proof.
  assert (E2 : completeArena 5000 9%nat 2%nat w_settled = (Val None, w_settled))
    by (vm_compute; reflexivity).
  eexists. split; [vm_compute; reflexivity|]. split.
  - rewrite E2. intros [H|[e H]]; discriminate.
  - unfold completeRoute. rewrite run_route, run_bind, E2. reflexivity.
Qed.

(** C3. A settlement pays the entry fee times the number of participants of
    the chart: that is the prize returned, the winner's balance and
    cumulative earnings grow by it, the winner's won-charts counter grows by
    one, and exactly one ledger entry is appended, of type [prize], for that
    amount, referring to the chart and recording the new balance.  No other
    user's document changes. *)
Theorem completeArena_prize now a wid w res w' :
  completeArena now a wid w = (Val (Some res), w') ->
  exists arena chart winner winner' tx,
    World.arenas w !! a = Some arena /\
    World.charts w !! Arena.chart arena = Some chart /\
    World.users w !! wid = Some winner /\
    World.users w' !! wid = Some winner' /\
    let prize :=
      Chart.entryFee chart * Z.of_nat (length (Chart.participants chart)) in
    res.2 = prize /\
    User.balance winner' = User.balance winner + prize /\
    User.totalEarned winner' = User.totalEarned winner + prize /\
    User.chartsWon winner' = User.chartsWon winner + 1 /\
    World.transactions w' = World.transactions w ++ [tx] /\
    Transaction.user tx = wid /\
    Transaction.type tx = Transaction.prize /\
    Transaction.amount tx = prize /\
    Transaction.reference tx = Some (RefId (Arena.chart arena)) /\
    Transaction.balance tx = User.balance winner' /\
    (forall u, u <> wid -> World.users w' !! u = World.users w !! u).
Proof.
  intros H. apply completeArena_settles in H.
  destruct H as (arena & chart & winner & mid & Ha & _ & Hc & Hw & H).
  cbv zeta in H. destruct H as (Hres & Hcore & Hmid).
  destruct Hcore as (Hu & _ & _ & _ & Ht & _).
  subst mid. simpl in Hu, Ht.
  eexists arena, chart, winner, _, _.
  split; [done|]. split; [done|]. split; [done|].
  split. { rewrite Hu, lookup_alter_eq, Hw. reflexivity. }
  cbv zeta. split; [by rewrite Hres|]. simpl.
  do 3 (split; [reflexivity|]).
  split; [exact Ht|]. do 5 (split; [reflexivity|]).
  intros u Hne. rewrite Hu. by apply lookup_alter_ne.
Qed.

Lemma completeArena_prize_witness :
  exists res arena chart winner winner' tx,
    completeArena 4000 9%nat 2%nat w_arena = (Val (Some res), w_settled) /\
    World.arenas w_arena !! 9%nat = Some arena /\
    World.charts w_arena !! Arena.chart arena = Some chart /\
    World.users w_arena !! 2%nat = Some winner /\
    World.users w_settled !! 2%nat = Some winner' /\
    let prize :=
      Chart.entryFee chart * Z.of_nat (length (Chart.participants chart)) in
    res.2 = prize /\
    User.balance winner' = User.balance winner + prize /\
    User.totalEarned winner' = User.totalEarned winner + prize /\
    User.chartsWon winner' = User.chartsWon winner + 1 /\
    World.transactions w_settled = World.transactions w_arena ++ [tx] /\
    Transaction.user tx = 2%nat /\
    Transaction.type tx = Transaction.prize /\
    Transaction.amount tx = prize /\
    Transaction.reference tx = Some (RefId (Arena.chart arena)) /\
    Transaction.balance tx = User.balance winner' /\
    (forall u, u <> 2%nat ->
       World.users w_settled !! u = World.users w_arena !! u).
Proof.
  assert (E : exists res,
             completeArena 4000 9%nat 2%nat w_arena
             = (Val (Some res), w_settled)).
  { vm_compute. eexists. reflexivity. }
  destruct E as (res & E). exists res.
  destruct (completeArena_prize 4000 9%nat 2%nat w_arena res w_settled E)
    as (arena & chart & winner & winner' & tx & H).
  exists arena, chart, winner, winner', tx. split; [exact E|exact H].
Defined.

(** In the sample arena the accumulated prize pool is 60 while the prize paid
    is 2 x 20 = 40: the prize comes from the participant count. *)
Lemma prize_is_not_the_prize_pool :
  Chart.prizePool <$> World.charts w_arena !! 7%nat = Some 60
  /\ (fun r => r.2) <$> match (completeArena 4000 9%nat 2%nat w_arena).1 with
                        | Val r => r
                        | Exn _ => None
                        end = Some 40.
Proof. vm_compute. split; reflexivity. Qed.

(** ** Donations *)

Lemma ledger_okb_spec w : ledger_okb w = true <-> ledger_ok w.
Proof.
  unfold ledger_okb, ledger_ok. rewrite forallb_forall. split.
  - intros H u usr Hu. apply Z.eqb_eq.
    apply (H (u, usr)). apply list_elem_of_In. by apply elem_of_map_to_list.
  - intros H [u usr] Hin. apply Z.eqb_eq. apply H.
    apply list_elem_of_In in Hin. by apply elem_of_map_to_list in Hin.
Qed.

(** C9. A donation that fails a precondition (an amount that is not positive
    or lies below the minimum of 10, a donor balance below the amount, an
    unknown chart, an unknown recipient) is answered with the matching 400 or
    404 error and leaves the whole world as it was: no donation record, no
    ledger entry, no balance, counter or chart change, no notification. *)
Theorem donate_precondition_atomic now rnd uid b w :
  db_amount b < 10
  \/ (exists donor, World.users w !! uid = Some donor /\
        (User.balance donor < db_amount b
         \/ World.charts w !! db_chartId b = None
         \/ World.users w !! db_recipientId b = None)) ->
  exists r, donate now rnd uid b w = (r, w) /\ r ∈ donation_refusals.
Proof.
  intros H. destruct (donate now rnd uid b w) as [r w'] eqn:Hr.
  unfold donate in Hr. rewrite run_route in Hr.
  unfold User_findById, Chart_findById in Hr. cbv zeta in Hr.
  unfold donation_refusals.
  mcase Hr.
  { cbv [json] in Hr. inversion Hr; subst. eexists; split; [done|].
    rewrite !elem_of_cons. auto 10. }
  mcase Hr.
  { cbv [json] in Hr. inversion Hr; subst. eexists; split; [done|].
    rewrite !elem_of_cons. auto 10. }
  mcase Hr; cycle 1.
  { exfalso. bool_facts.
    destruct H as [H|(donor & Hd & _)]; [lia|congruence]. }
  mcase Hr.
  { cbv [json] in Hr. inversion Hr; subst. eexists; split; [done|].
    rewrite !elem_of_cons. auto 10. }
  mcase Hr; cycle 1.
  { cbv [json] in Hr. inversion Hr; subst. eexists; split; [done|].
    rewrite !elem_of_cons. auto 10. }
  mcase Hr; cycle 1.
  { cbv [json] in Hr. inversion Hr; subst. eexists; split; [done|].
    rewrite !elem_of_cons. auto 10. }
  exfalso. bool_facts.
  destruct H as [H|(donor & Hd & [H|[H|H]])]; simplify_eq; lia.
Qed.

Lemma donate_precondition_atomic_witness :
  exists r,
    donate 5000 "K3X9" 0%nat (mkDonationBody 7%nat 2%nat 5 None) w_chart
    = (r, w_chart)
    /\ r ∈ donation_refusals.
Proof.
  apply (donate_precondition_atomic 5000 "K3X9" 0%nat
           (mkDonationBody 7%nat 2%nat 5 None) w_chart).
  left. simpl. lia.
Defined.

(** A donor who is not stored: with an amount that passes the first two
    guards the handler fails on the donor's balance, answers 500 and changes
    nothing. *)
Lemma donate_unknown_donor now rnd uid b w :
  10 <= db_amount b ->
  World.users w !! uid = None ->
  donate now rnd uid b w
  = (mkResponse 500 (JsonError "Failed to process donation"), w).
Proof.
  intros Ha Hu. unfold donate, User_findById. rewrite run_route. cbv zeta.
  replace ((db_amount b =? 0) || (db_amount b <=? 0)) with false
    by (symmetry; apply orb_false_iff; split;
        [apply Z.eqb_neq|apply Z.leb_gt]; lia).
  replace (db_amount b <? 10) with false by (symmetry; apply Z.ltb_ge; lia).
  rewrite run_bind_gets, Hu. reflexivity.
Qed.

(** What a donation that answers 201 has done to the world. *)
Lemma donate_success now rnd uid b w r w' :
  donate now rnd uid b w = (r, w') -> code r = 201 ->
  exists user chart recipient t1 t2,
    World.users w !! uid = Some user /\
    World.charts w !! db_chartId b = Some chart /\
    World.users w !! db_recipientId b = Some recipient /\
    10 <= db_amount b <= User.balance user /\
    let a := db_amount b in
    let d := donation_of now rnd uid b w in
    r = mkResponse 201
          (JsonDonation d (User.balance user - a) (User.balance recipient + a))
    /\ World.donations w' = World.donations w ++ [d]
    /\ World.users w' =
         alter (fun u => User.set_totalEarned (User.totalEarned recipient + a)
                           (User.set_balance (User.balance recipient + a) u))
               (db_recipientId b)
               (alter (fun u =>
                         User.set_totalSupported (User.totalSupported user + a)
                           (User.set_balance (User.balance user - a) u))
                      uid (World.users w))
    /\ World.transactions w' = World.transactions w ++ [t1; t2]
    /\ (Transaction.user t1, Transaction.type t1, Transaction.amount t1,
        Transaction.balance t1, Transaction.reference t1)
       = (uid, Transaction.donation, - a, User.balance user - a,
          Some (RefId (Donation._id d)))
    /\ (Transaction.user t2, Transaction.type t2, Transaction.amount t2,
        Transaction.balance t2, Transaction.reference t2)
       = (db_recipientId b, Transaction.donation, a,
          User.balance recipient + a, Some (RefId (Donation._id d)))
    /\ World.charts w' =
         alter (fun c =>
                  Chart.set_totalDonations (Chart.totalDonations chart + a)
                    (Chart.set_donations
                       (Chart.donations chart ++ [Donation._id d]) c))
               (db_chartId b) (World.charts w)
    /\ World.arenas w' = World.arenas w
    /\ (World.nextId w < World.nextId w')%nat.
Proof.
  intros Hr Hc. unfold donate in Hr. rewrite run_route in Hr.
  unfold User_findById, Chart_findById, User_save, Chart_save,
    Transaction_save, Notification_save, Donation_insert in Hr.
  cbv zeta in Hr.
  do 2 (mcase Hr; [mfail Hr|]).
  mcase Hr; [|mfail Hr]. mcase Hr; [mfail Hr|].
  mcase Hr; [|mfail Hr]. mcase Hr; [|mfail Hr].
  do 2 (mcase Hr; [mfail Hr|]).
  mcase Hr; [|mfail Hr].
  repeat mstep Hr. mquiet Hr w1 S1.
  rewrite run_json in Hr. inversion Hr; subst; clear Hr.
  destruct S1 as (Su & Sc & Sa & Sd & St & _ & _ & Sn). wsimpl Su.
  wsimpl Sc. wsimpl Sa. wsimpl Sd. wsimpl St. wsimpl Sn.
  eexists _, _, _, _, _.
  split; [done|]. split; [done|]. split; [done|].
  split; [bool_facts; lia|].
  cbv zeta. split; [reflexivity|]. split; [exact Sd|]. split; [exact Su|].
  split; [rewrite St, <- app_assoc; reflexivity|].
  split; [reflexivity|]. split; [reflexivity|]. split; [exact Sc|].
  split; [exact Sa|]. lia.
Qed.

(** Between two different users a donation does what C6 says: two ledger
    entries for the one donation id, -a with balance b_d - a for the donor
    and +a with balance b_r + a for the recipient; the stored balances become
    b_d - a and b_r + a; the chart's total grows by a. *)
Lemma donate_transfers now rnd uid b w r w' :
  donate now rnd uid b w = (r, w') -> code r = 201 ->
  uid <> db_recipientId b ->
  exists donor recipient chart t1 t2 did,
    World.users w !! uid = Some donor /\
    World.users w !! db_recipientId b = Some recipient /\
    World.charts w !! db_chartId b = Some chart /\
    let a := db_amount b in
    balance_of uid w' = Some (User.balance donor - a) /\
    balance_of (db_recipientId b) w' = Some (User.balance recipient + a) /\
    World.transactions w' = World.transactions w ++ [t1; t2] /\
    (Transaction.user t1, Transaction.amount t1, Transaction.balance t1,
     Transaction.reference t1)
    = (uid, - a, User.balance donor - a, Some (RefId did)) /\
    (Transaction.user t2, Transaction.amount t2, Transaction.balance t2,
     Transaction.reference t2)
    = (db_recipientId b, a, User.balance recipient + a, Some (RefId did)) /\
    Chart.totalDonations <$> World.charts w' !! db_chartId b
    = Some (Chart.totalDonations chart + a).
Proof.
  intros Hr Hc Hne.
  destruct (donate_success _ _ _ _ _ _ _ Hr Hc)
    as (user & chart & recipient & t1 & t2 & Hu & Hch & Hrec & _ & H).
  cbv zeta in H.
  destruct H as (_ & _ & Husers & Htx & H1 & H2 & Hcharts & _).
  exists user, recipient, chart, t1, t2, (World.nextId w).
  split; [done|]. split; [done|]. split; [done|]. cbv zeta.
  unfold balance_of. rewrite Husers, Hcharts.
  split. { rewrite lookup_alter_ne by done. rewrite lookup_alter_eq, Hu. done. }
  split. { rewrite lookup_alter_eq, lookup_alter_ne by done. rewrite Hrec. done. }
  split; [done|].
  split. { inversion H1. reflexivity. }
  split. { inversion H2. reflexivity. }
  rewrite lookup_alter_eq, Hch. reflexivity.
Qed.

(** C6 fails when the donor names themselves as recipient. Alice holds 80 and
    donates 30 to herself: the request answers 201, the two ledger entries
    record -30 with balance 50 and +30 with balance 110, and her stored
    balance ends at 110 instead of 50: the second save writes the balance
    computed from the copy loaded before the debit. *)
Theorem self_donation_mints_money :
  (donate 5000 "K3X9" 0%nat self_donation w_chart).1.(code) = 201
  /\ balance_of 0%nat w_chart = Some 80
  /\ balance_of 0%nat w_self_donated = Some 110
  /\ new_entries w_chart w_self_donated = [(0%nat, -30, 50); (0%nat, 30, 110)].
Proof. vm_compute. repeat split; reflexivity. Qed.

(** C2 fails on the same request: before it every balance is the sum of the
    user's ledger entries, after it Alice's balance (110) is not the sum of
    hers (100 - 20 - 30 + 30 = 80). *)
Theorem self_donation_breaks_ledger :
  ledger_ok w_chart
  /\ ~ ledger_ok w_self_donated
  /\ balance_of 0%nat w_self_donated = Some 110
  /\ ledger_sum 0%nat (World.transactions w_self_donated) = 80.
Proof.
  split; [apply ledger_okb_spec; vm_compute; reflexivity|].
  split; [|vm_compute; split; reflexivity].
  intros H. apply ledger_okb_spec in H. vm_compute in H. discriminate.
Qed.

(** ** Joining a chart *)

Lemma existsb_participant uid (ps : list Chart.Participant) :
  existsb (fun p => bool_decide (Chart.user p = uid)) ps = true ->
  uid ∈ map Chart.user ps.
Proof.
  intros H. apply existsb_exists in H. destruct H as (p & Hin & Hp).
  apply bool_decide_eq_true in Hp. subst uid.
  apply list_elem_of_In, in_map, Hin.
Qed.

(** A join on a chart that is not open is refused and changes nothing. *)
Lemma joinChart_not_open now uid chartId w chart :
  World.charts w !! chartId = Some chart ->
  Chart.status chart <> Chart.open ->
  joinChart now uid chartId w
  = (mkResponse 400 (JsonError "Chart is not open"), w).
Proof.
  intros Hc Hs. unfold joinChart, Chart_findById.
  rewrite run_route, run_bind_gets, Hc.
  rewrite bool_decide_eq_false_2 by done. reflexivity.
Qed.

(** A join that passes the guards: the fee is debited with one ledger entry,
    the user is seated, and when that fills the chart it goes in progress and
    its arena is created from the participants as they stand. *)
Lemma joinChart_seats now uid chartId w chart user :
  World.charts w !! chartId = Some chart ->
  Chart.status chart = Chart.open ->
  Z.of_nat (length (Chart.participants chart)) < Chart.maxParticipants chart ->
  uid ∉ map Chart.user (Chart.participants chart) ->
  now <= Chart.startsAt chart ->
  World.users w !! uid = Some user ->
  Chart.entryFee chart <= User.balance user ->
  exists r w',
    joinChart now uid chartId w = (r, w') /\ code r = 200 /\
    let ps :=
      Chart.participants chart ++ [Chart.mkP uid now 0 0 Chart.pending] in
    let seated :=
      Chart.set_participants ps
        (Chart.set_prizePool (Chart.prizePool chart + Chart.entryFee chart)
           chart) in
    World.users w' =
      alter (User.set_balance (User.balance user - Chart.entryFee chart)) uid
            (World.users w)
    /\ World.transactions w' =
         World.transactions w ++
           [Transaction.mk (World.nextId w) uid Transaction.entry_fee
              (- Chart.entryFee chart)
              (User.balance user - Chart.entryFee chart)
              (Some (RefId chartId))
              ("Entry fee for: " +:+ Chart.title chart)
              Transaction.completed]
    /\ (forall c, c <> chartId -> World.charts w' !! c = World.charts w !! c)
    /\ if Chart.maxParticipants chart <=? Z.of_nat (length ps)
       then
         World.charts w' !! chartId
         = Some (Chart.set_status Chart.in_progress seated)
         /\ World.arenas w' =
              <[S (World.nextId w) :=
                  Arena.mk chartId (map (snapshot now) ps) Arena.live []
                           (Some now) None None now]> (World.arenas w)
       else
         World.charts w' !! chartId = Some seated
         /\ World.arenas w' = World.arenas w.
Proof.
  intros Hc Hs Hlen Hnew Hnow Hu Hbal.
  destruct (joinChart now uid chartId w) as [r w'] eqn:Hr.
  exists r, w'. split; [reflexivity|].
  unfold joinChart in Hr. rewrite run_route in Hr.
  unfold Chart_findById, User_findById, User_save, Chart_save,
    Transaction_save, Notification_save in Hr.
  cbv zeta in Hr. mstep Hr. rewrite Hc in Hr.
  rewrite (bool_decide_eq_true_2 _ Hs) in Hr. cbn [negb] in Hr.
  mcase Hr; [exfalso; bool_facts; lia|].
  mcase Hr; [exfalso; by apply Hnew, existsb_participant|].
  mcase Hr; [exfalso; bool_facts; lia|].
  mstep Hr. rewrite Hu in Hr.
  mcase Hr; [exfalso; bool_facts; lia|].
  repeat mstep Hr. cbn [Chart.maxParticipants Chart.set_participants
    Chart.set_prizePool Chart.creator Chart.title] in Hr.
  mcase Hr.
  - repeat mstep Hr. mquiet Hr w1 S1. repeat mstep Hr.
    cbn [Chart.creator Chart.set_status Chart.title Chart.maxParticipants] in Hr.
    destruct S1 as (Su & Sc & Sa & _ & St & _ & _ & _).
    wsimpl Su. wsimpl Sc. wsimpl Sa. wsimpl St.
    rewrite Su in Hr. rewrite lookup_alter_eq, Hu in Hr.
    cbn [fmap option_fmap option_map] in Hr.
    repeat mstep Hr. mquiet Hr w2 S2. rewrite run_json in Hr.
    inversion Hr; subst; clear Hr.
    destruct S2 as (Su2 & Sc2 & Sa2 & _ & St2 & _ & _ & _).
    wsimpl Su2. wsimpl Sc2. wsimpl Sa2. wsimpl St2.
    split; [reflexivity|]. cbv zeta.
    split; [by rewrite Su2, Su|]. split; [by rewrite St2, St|].
    split.
    { intros c Hne. rewrite Sc2, Sc. by rewrite !lookup_alter_ne. }
    match goal with
    | H : (_ <=? Z.of_nat (length (_ ++ _))) = _ |- _ => rewrite H
    end.
    split.
    + rewrite Sc2, Sc. rewrite !lookup_alter_eq, Hc. reflexivity.
    + rewrite Sa2, Sa. reflexivity.
  - repeat mstep Hr. rewrite lookup_alter_eq, Hu in Hr.
    cbn [fmap option_fmap option_map] in Hr.
    repeat mstep Hr. mquiet Hr w2 S2. rewrite run_json in Hr.
    inversion Hr; subst; clear Hr.
    destruct S2 as (Su2 & Sc2 & Sa2 & _ & St2 & _ & _ & _).
    wsimpl Su2. wsimpl Sc2. wsimpl Sa2. wsimpl St2.
    split; [reflexivity|]. cbv zeta.
    split; [by rewrite Su2|]. split; [by rewrite St2|].
    split.
    { intros c Hne. rewrite Sc2. by rewrite !lookup_alter_ne. }
    match goal with
    | H : (_ <=? Z.of_nat (length (_ ++ _))) = _ |- _ => rewrite H
    end.
    split.
    + rewrite Sc2. rewrite !lookup_alter_eq, Hc. reflexivity.
    + exact Sa2.
Qed.

(** The join that takes the last seat: the chart goes in progress, its one
    arena holds the snapshot of the participants, and later joins are
    refused with "Chart is not open". *)
Lemma joinChart_fills now uid chartId w chart user :
  World.charts w !! chartId = Some chart ->
  Chart.status chart = Chart.open ->
  Z.of_nat (length (Chart.participants chart)) + 1
  = Chart.maxParticipants chart ->
  uid ∉ map Chart.user (Chart.participants chart) ->
  now <= Chart.startsAt chart ->
  World.users w !! uid = Some user ->
  Chart.entryFee chart <= User.balance user ->
  (forall k a, World.arenas w !! k = Some a -> Arena.chart a <> chartId) ->
  let w' := (joinChart now uid chartId w).2 in
  exists chart' aid arena,
    World.charts w' !! chartId = Some chart' /\
    Chart.status chart' = Chart.in_progress /\
    map Chart.user (Chart.participants chart')
    = map Chart.user (Chart.participants chart) ++ [uid] /\
    World.arenas w' !! aid = Some arena /\
    Arena.chart arena = chartId /\
    Arena.status arena = Arena.live /\
    (forall k a, World.arenas w' !! k = Some a ->
                 Arena.chart a = chartId -> k = aid) /\
    Arena.players arena = map (snapshot now) (Chart.participants chart') /\
    (forall now3 uid3,
       joinChart now3 uid3 chartId w'
       = (mkResponse 400 (JsonError "Chart is not open"), w')).
Proof.
  intros Hc Hs Hlen Hnew Hnow Hu Hbal Hnone.
  destruct (joinChart_seats now uid chartId w chart user)
    as (r & w' & Hr & _ & H); try done; [lia|].
  rewrite Hr. cbv zeta in *. cbn [snd].
  destruct H as (_ & _ & _ & H).
  rewrite length_app in H. cbn [length] in H.
  replace (Chart.maxParticipants chart
           <=? Z.of_nat (length (Chart.participants chart) + 1))
    with true in H by (symmetry; apply Z.leb_le; lia).
  destruct H as [Hc' Ha'].
  eexists _, (S (World.nextId w)), _.
  split; [exact Hc'|]. split; [reflexivity|].
  split. { cbn. rewrite map_app. reflexivity. }
  split. { rewrite Ha'. apply lookup_insert_eq. }
  split; [reflexivity|]. split; [reflexivity|].
  split.
  { intros k a Hk Hch. rewrite Ha' in Hk.
    destruct (decide (S (World.nextId w) = k)) as [|Hne]; [done|].
    rewrite lookup_insert_ne in Hk by done. by apply Hnone in Hk. }
  split; [reflexivity|].
  intros now3 uid3. eapply joinChart_not_open; [exact Hc'|]. discriminate.
Qed.

(** C5, amended. A chart with two seats and an entry fee of 20 that is
    filled by joins of distinct users (both seats, or the one left beside
    the creator's) is in progress afterwards; exactly one arena exists for
    it, live, whose players are the participants of the chart at that
    moment, each with score 0, no moves and status playing; and any further
    join is refused with the 400 error "Chart is not open" and changes
    nothing. *)
Theorem two_seat_chart_fills w chartId chart reqs :
  World.charts w !! chartId = Some chart ->
  Chart.status chart = Chart.open ->
  Chart.maxParticipants chart = 2 ->
  Chart.entryFee chart = 20 ->
  reqs <> [] ->
  (length (Chart.participants chart) + length reqs = 2)%nat ->
  NoDup (map Chart.user (Chart.participants chart) ++ map snd reqs) ->
  (forall req, req ∈ reqs ->
     req.1 <= Chart.startsAt chart /\
     exists usr, World.users w !! req.2 = Some usr /\ 20 <= User.balance usr) ->
  (forall k a, World.arenas w !! k = Some a -> Arena.chart a <> chartId) ->
  let w' := joins reqs chartId w in
  exists chart' aid arena now,
    World.charts w' !! chartId = Some chart' /\
    Chart.status chart' = Chart.in_progress /\
    map Chart.user (Chart.participants chart')
    = map Chart.user (Chart.participants chart) ++ map snd reqs /\
    World.arenas w' !! aid = Some arena /\
    Arena.chart arena = chartId /\
    Arena.status arena = Arena.live /\
    (forall k a, World.arenas w' !! k = Some a ->
                 Arena.chart a = chartId -> k = aid) /\
    Arena.players arena = map (snapshot now) (Chart.participants chart') /\
    (forall now3 uid3,
       joinChart now3 uid3 chartId w'
       = (mkResponse 400 (JsonError "Chart is not open"), w')).
Proof.
  intros Hc Hs Hmax Hfee Hne Hlen Hdup Hreq Hnone. cbv zeta.
  destruct reqs as [|[now1 u1] [|[now2 u2] reqs]]; [done| |].
  - (* one seat left *)
    destruct (Hreq (now1, u1)) as (Hnow & usr & Hu & Hbal); [by left|].
    cbn [fst snd] in *.
    destruct (joinChart_fills now1 u1 chartId w chart usr)
      as (chart' & aid & arena & H); try done.
    + cbn [length] in Hlen. lia.
    + cbn [map snd] in Hdup. apply NoDup_app in Hdup.
      destruct Hdup as (_ & Hd & _). intros Hin. apply (Hd _ Hin). by left.
    + lia.
    + exists chart', aid, arena, now1. exact H.
  - (* both seats free *)
    destruct (Chart.participants chart) as [|p ps] eqn:Hps;
      [|cbn [length] in Hlen; lia].
    destruct reqs; [|cbn [length] in Hlen; lia].
    destruct (Hreq (now1, u1)) as (Hnow1 & usr1 & Hu1 & Hbal1); [by left|].
    destruct (Hreq (now2, u2)) as (Hnow2 & usr2 & Hu2 & Hbal2);
      [by right; left|].
    cbn [fst snd map app] in *.
    assert (Hu12 : u1 <> u2).
    { apply NoDup_cons in Hdup. destruct Hdup as [Hd _].
      intros ->. apply Hd. by left. }
    destruct (joinChart_seats now1 u1 chartId w chart usr1)
      as (r1 & w1 & Hr1 & _ & H1); try done.
    { rewrite Hps. cbn [length]. lia. }
    { rewrite Hps. cbn [map]. by apply not_elem_of_nil. }
    { lia. }
    cbv zeta in H1. destruct H1 as (Hus1 & _ & _ & H1).
    rewrite Hps in H1. cbn [app length] in H1.
    replace (Chart.maxParticipants chart <=? Z.of_nat 1) with false in H1
      by (symmetry; apply Z.leb_gt; lia).
    destruct H1 as [Hc1 Ha1].
    unfold joins. cbn [foldl fst snd]. rewrite Hr1. cbn [snd].
    edestruct (joinChart_fills now2 u2 chartId w1 _ usr2 Hc1)
      as (chart' & aid & arena & H).
    + exact Hs.
    + cbn. lia.
    + cbn. intros Hin. apply elem_of_cons in Hin.
      destruct Hin as [Hin|Hin]; [done|by apply not_elem_of_nil in Hin].
    + cbn. lia.
    + rewrite Hus1. by rewrite lookup_alter_ne.
    + cbn. lia.
    + intros k a. rewrite Ha1. apply Hnone.
    + exists chart', aid, arena, now2.
      destruct H as (? & ? & Hm & H).
      split; [done|]. split; [done|]. split; [exact Hm|]. exact H.
Qed.

Lemma two_seat_chart_fills_witness :
  let w' := joins [(3000, 2%nat)] 7%nat w_chart in
  exists chart' aid arena now,
    World.charts w' !! 7%nat = Some chart' /\
    Chart.status chart' = Chart.in_progress /\
    map Chart.user (Chart.participants chart')
    = map Chart.user (Chart.participants duel_chart) ++ map snd [(3000, 2%nat)] /\
    World.arenas w' !! aid = Some arena /\
    Arena.chart arena = 7%nat /\
    Arena.status arena = Arena.live /\
    (forall k a, World.arenas w' !! k = Some a ->
                 Arena.chart a = 7%nat -> k = aid) /\
    Arena.players arena = map (snapshot now) (Chart.participants chart') /\
    (forall now3 uid3,
       joinChart now3 uid3 7%nat w'
       = (mkResponse 400 (JsonError "Chart is not open"), w')).
Proof.
  apply (two_seat_chart_fills w_chart 7%nat duel_chart [(3000, 2%nat)]).
  - vm_compute. reflexivity.
  - reflexivity.
  - reflexivity.
  - reflexivity.
  - discriminate.
  - reflexivity.
  - apply (bool_decide_unpack _). vm_compute. exact I.
  - intros req Hin. apply elem_of_cons in Hin.
    destruct Hin as [->|Hin]; [|by apply not_elem_of_nil in Hin].
    split; [vm_compute; discriminate|].
    exists (User.mk "bob" "bob@thumbs.io" (Bcrypt "secret2" 12) "Bobby"
                    0 0 100 0 0 User.offline 1000).
    split; [vm_compute; reflexivity|simpl; lia].
  - intros k a H. vm_compute in H. discriminate.
Defined.

(** C5 as stated fails on the error: with both seats of chart 7 taken (by
    Alice, who opened it, and Bob) the chart is in progress, and Carol's join
    is refused because the chart is not open, before the seat count is looked
    at. *)
Lemma third_join_is_not_chart_full :
  Chart.status <$> World.charts w_arena !! 7%nat = Some Chart.in_progress
  /\ map Chart.user <$> (Chart.participants <$> World.charts w_arena !! 7%nat)
     = Some [0%nat; 2%nat]
  /\ joinChart 3500 4%nat 7%nat w_arena
     = (mkResponse 400 (JsonError "Chart is not open"), w_arena)
  /\ forall c, (joinChart 3500 4%nat 7%nat w_arena).1
               <> mkResponse c (JsonError "Chart is full").
Proof.
  assert (E : joinChart 3500 4%nat 7%nat w_arena
              = (mkResponse 400 (JsonError "Chart is not open"), w_arena))
    by (vm_compute; reflexivity).
  split; [vm_compute; reflexivity|]. split; [vm_compute; reflexivity|].
  split; [exact E|]. intros c. rewrite E. discriminate.
Qed.

(** ** The connection registry *)

Lemma get_assign {K V} `{EqDecision K} (k : K) (v : V) o :
  Js.get k (Js.assign k v o) = Some v.
Proof.
  induction o as [|[k' v'] o IH]; simpl.
  - by rewrite decide_True.
  - destruct (decide (k' = k)) as [->|Hne]; simpl.
    + by rewrite decide_True.
    + by rewrite decide_False.
Qed.

Lemma get_remove {K V} `{EqDecision K} (k : K) (o : list (K * V)) :
  Js.get k (Js.remove k o) = None.
Proof.
  induction o as [|[k' v'] o IH]; simpl; [done|].
  destruct (decide (k' = k)) as [->|Hne]; simpl; [done|].
  by rewrite decide_False.
Qed.

(** A valid token on socket [h] registers [h] for the user, whatever was
    registered before, and marks the socket with the user; other sockets are
    untouched. *)
Lemma ws_auth_registers now h u name exp w :
  is_Some (World.sockets w !! h) ->
  now / 1000 < exp ->
  let w' := ws_message now h (Cmd.auth (Jwt u name exp)) w in
  lookup_client u w' = Some h
  /\ Socket.userId <$> World.sockets w' !! h = Some (Some u)
  /\ (forall h', h' <> h -> World.sockets w' !! h' = World.sockets w !! h').
Proof.
  intros [so Hso] Hexp. cbv zeta. unfold ws_message. rewrite Hso.
  match goal with |- context [try_catch ?b ?c w] =>
    destruct (try_catch b c w) as [o w'] eqn:Hr end.
  cbn [snd]. rewrite !run_try_catch in Hr.
  unfold jwt_verify, Socket_update, User_findByIdAndUpdate, send in Hr.
  replace (exp <=? now / 1000) with false in Hr
    by (symmetry; apply Z.leb_gt; lia).
  repeat mstep Hr. mquiet Hr w1 S1.
  inversion Hr; subst; clear Hr.
  destruct S1 as (_ & _ & _ & _ & _ & Sc & Ss & _). wsimpl Sc. wsimpl Ss.
  unfold lookup_client. rewrite Sc, Ss. cbn [fst].
  split; [by rewrite get_assign|].
  split; [by rewrite lookup_alter_eq, Hso|].
  intros h' Hne. by rewrite lookup_alter_ne.
Qed.

(** Leaving arenas touches neither the registry nor the sockets. *)
Lemma leave_arenas_keeps now u l w o w' :
  leave_arenas now u l w = (o, w') ->
  World.connectedClients w' = World.connectedClients w
  /\ World.sockets w' = World.sockets w.
Proof.
  unfold leave_arenas. revert w.
  induction l as [|ar l IH]; intros w Hr; simpl in Hr.
  - by inversion Hr.
  - unfold Arena_findByIdAndUpdate in Hr. repeat mstep Hr.
    mquiet Hr w2 S2. cbv beta in Hr.
    destruct S2 as (_ & _ & _ & _ & _ & Sc2 & Ss2 & _). wsimpl Sc2. wsimpl Ss2.
    destruct (IH w2 Hr) as [-> ->]. done.
Qed.

(** The close of socket [h]: the socket is closed, and when it carries a
    user, that user's entry leaves the registry. *)
Lemma ws_close_effect now h so w :
  World.sockets w !! h = Some so ->
  let w' := ws_close now h w in
  World.connectedClients w'
  = match Socket.userId so with
    | Some u => Js.remove u (World.connectedClients w)
    | None => World.connectedClients w
    end
  /\ World.sockets w'
     = alter (fun s => Socket.mk (Socket.userId s) (Socket.arenas s) CLOSED)
             h (World.sockets w).
Proof.
  intros Hso. cbv zeta. unfold ws_close. rewrite Hso.
  match goal with |- context [snd (?m w)] =>
    destruct (m w) as [o w'] eqn:Hr end.
  cbn [snd]. unfold Socket_update, User_findByIdAndUpdate in Hr.
  destruct (Socket.userId so) as [u|].
  - repeat mstep Hr. mquiet Hr w1 S1. cbv beta in Hr.
    destruct S1 as (_ & _ & _ & _ & _ & Sc & Ss & _). wsimpl Sc. wsimpl Ss.
    destruct (leave_arenas_keeps _ _ _ _ _ _ Hr) as [-> ->]. done.
  - repeat mstep Hr. by inversion Hr.
Qed.

(** C8, amended. Registering a socket for a user replaces any earlier socket
    of that user.  The close of a socket removes the entry of the socket's
    user without comparing sockets: after register(u, h1); register(u, h2);
    close(h1) the lookup for u finds nothing, while h2 itself is left as it
    was. *)
Theorem close_unregisters_whatever_is_stored u name exp w h1 h2 t1 t2 t3 :
  is_Some (World.sockets w !! h1) ->
  is_Some (World.sockets w !! h2) ->
  h1 <> h2 ->
  t1 / 1000 < exp -> t2 / 1000 < exp ->
  let w1 := ws_message t1 h1 (Cmd.auth (Jwt u name exp)) w in
  let w2 := ws_message t2 h2 (Cmd.auth (Jwt u name exp)) w1 in
  let w3 := ws_close t3 h1 w2 in
  lookup_client u w1 = Some h1
  /\ lookup_client u w2 = Some h2
  /\ lookup_client u w3 = None
  /\ World.sockets w3 !! h2 = World.sockets w2 !! h2.
Proof.
  intros Hs1 Hs2 Hne He1 He2. cbv zeta.
  destruct (ws_auth_registers t1 h1 u name exp w Hs1 He1) as (L1 & U1 & O1).
  cbv zeta in *.
  set (w1 := ws_message t1 h1 (Cmd.auth (Jwt u name exp)) w) in *.
  assert (Hs2' : is_Some (World.sockets w1 !! h2)) by (by rewrite O1).
  destruct (ws_auth_registers t2 h2 u name exp w1 Hs2' He2) as (L2 & U2 & O2).
  cbv zeta in *.
  set (w2 := ws_message t2 h2 (Cmd.auth (Jwt u name exp)) w1) in *.
  split; [exact L1|]. split; [exact L2|].
  assert (U1' : Socket.userId <$> World.sockets w2 !! h1 = Some (Some u))
    by (by rewrite O2).
  destruct (World.sockets w2 !! h1) as [so1|] eqn:Hso1; [|discriminate].
  destruct (ws_close_effect t3 h1 so1 w2 Hso1) as [Hc Hs].
  cbv zeta in Hc, Hs. inversion U1' as [Hu1]. rewrite Hu1 in Hc.
  split.
  - unfold lookup_client. rewrite Hc, get_remove. reflexivity.
  - rewrite Hs. by rewrite lookup_alter_ne.
Qed.

Lemma close_unregisters_whatever_is_stored_witness :
  lookup_client 4%nat
    (ws_message 100 1%nat (Cmd.auth carol_token)
       (ws_connection 2%nat (ws_connection 1%nat w_users))) = Some 1%nat
  /\ lookup_client 4%nat w_reconnected = Some 2%nat
  /\ lookup_client 4%nat w_stale_closed = None
  /\ World.sockets w_stale_closed !! 2%nat
     = World.sockets w_reconnected !! 2%nat.
Proof.
  apply (close_unregisters_whatever_is_stored 4%nat "carol" 2592001
           (ws_connection 2%nat (ws_connection 1%nat w_users))
           1%nat 2%nat 100 200 300).
  - vm_compute. by eexists.
  - vm_compute. by eexists.
  - discriminate.
  - vm_compute. reflexivity.
  - vm_compute. reflexivity.
Defined.

(** C8 as stated fails: Carol's second socket replaces her first in the
    registry; when the first socket closes, the lookup for Carol finds
    nothing instead of the second socket, which is still open. *)
Lemma stale_close_evicts_newer_session :
  lookup_client 4%nat w_reconnected = Some 2%nat
  /\ lookup_client 4%nat w_stale_closed <> Some 2%nat
  /\ lookup_client 4%nat w_stale_closed = None
  /\ Socket.readyState <$> World.sockets w_stale_closed !! 2%nat = Some OPEN.
Proof. vm_compute. repeat split; try reflexivity. discriminate. Qed.

(** ** Watching an arena *)

(** The spectator entry carries the time of the request, so a repeated
    request at another time is not equal to the entry that is there and is
    added beside it. *)
Lemma addToSet_spectators_again u t1 t2 a :
  t1 <> t2 ->
  Arena.spectators a = [Arena.mkS u t1] ->
  Arena.spectators (addToSet_spectators (Arena.mkS u t2) a)
  = [Arena.mkS u t1; Arena.mkS u t2].
Proof.
  intros Hne Hs. unfold addToSet_spectators. rewrite Hs.
  rewrite bool_decide_eq_false_2.
  - reflexivity.
  - intros Hin. apply elem_of_cons in Hin.
    destruct Hin as [Hin|Hin]; [congruence|by apply not_elem_of_nil in Hin].
Qed.

(** What [join_arena] does to the arenas: the one [$addToSet]. *)
Lemma join_arena_arenas now h arenaId userId ws w :
  World.sockets w !! h = Some ws ->
  Socket.userId ws = Some userId ->
  World.arenas (ws_message now h (Cmd.join_arena arenaId) w)
  = alter (addToSet_spectators (Arena.mkS userId now)) arenaId
          (World.arenas w).
Proof.
  intros Hso Hu. unfold ws_message. rewrite Hso, Hu.
  match goal with |- context [snd (?m w)] =>
    destruct (m w) as [o w'] eqn:Hr end.
  cbn [snd]. rewrite run_try_catch in Hr.
  unfold Socket_update, Arena_findByIdAndUpdate, User_findById, send in Hr.
  repeat mstep Hr. mquiet Hr w1 S1. repeat mstep Hr.
  destruct S1 as (_ & _ & Sa & _). wsimpl Sa.
  inversion Hr; subst; clear Hr. wsimpl_goal. exact Sa.
Qed.

(** A join at a time that no stored entry carries adds an entry, also for a
    user who is a spectator already. *)
Lemma join_arena_adds_an_entry now h arenaId userId ws w arena :
  World.sockets w !! h = Some ws ->
  Socket.userId ws = Some userId ->
  World.arenas w !! arenaId = Some arena ->
  (forall sp, sp ∈ Arena.spectators arena -> Arena.sjoinedAt sp <> now) ->
  Arena.spectators
  <$> World.arenas (ws_message now h (Cmd.join_arena arenaId) w) !! arenaId
  = Some (Arena.spectators arena ++ [Arena.mkS userId now]).
Proof.
  intros Hso Hu Ha Hnew.
  rewrite (join_arena_arenas now h arenaId userId ws w Hso Hu).
  rewrite lookup_alter_eq, Ha. cbn. unfold addToSet_spectators.
  rewrite bool_decide_eq_false_2; [reflexivity|].
  intros Hin. by apply (Hnew _ Hin).
Qed.

(** C7 fails on a repeated join: Carol, already a spectator of arena 9 since
    time 6000, joins again at time 7000 and is entered a second time.  The
    rest of the claim is visible in the run: Bob (socket 2, a player) is told
    [spectator_joined] each time, Carol (socket 1) gets the [arena_state], of
    which the second lists her twice. *)
Theorem join_arena_twice_duplicates_spectator :
  Arena.spectators <$> World.arenas w_watching !! 9%nat
  = Some [Arena.mkS 4%nat 6000]
  /\ Arena.spectators <$> World.arenas w_watching_twice !! 9%nat
     = Some [Arena.mkS 4%nat 6000; Arena.mkS 4%nat 7000]
  /\ map fst (drop (length (World.outbox w_watching))
                   (World.outbox w_watching_twice))
     = [2%nat; 1%nat].
Proof. vm_compute. repeat split; reflexivity. Qed.

(** ** Reporting a score *)

(** The update document of the score handler holds the time stamp only: the
    second [$set] of the object literal replaces the first, which carried the
    score and the moves. *)
Lemma score_update_doc_drops_score now score moves :
  score_update_doc now score moves = [("$set", [("updatedAt", now)])].
Proof. destruct moves; reflexivity. Qed.

(** C4 fails on the first part: Bob, a player of arena 9, reports score 50
    and 3 moves for himself; the [score_update] goes out to him with these
    values, the arena's time stamp is set, and the stored scores and moves of
    both players are still 0. *)
Theorem update_score_is_not_persisted :
  scores 9%nat w_live = Some [(0%nat, 0, 0); (2%nat, 0, 0)]
  /\ scores 9%nat w_scored = Some [(0%nat, 0, 0); (2%nat, 0, 0)]
  /\ Arena.updatedAt <$> World.arenas w_scored !! 9%nat = Some 6000
  /\ drop (length (World.outbox w_live)) (World.outbox w_scored)
     = [(2%nat, Msg.score_update 9%nat 2%nat 50 (Some 3) 6000)].
Proof. vm_compute. repeat split; reflexivity. Qed.

(** ** The ledger over sequences of operations *)

Lemma world_ok_spec w : world_ok w <-> ids_ok w /\ ledger_ok w.
Proof.
  unfold world_ok, inv, ids_ok, ledger_ok. split.
  - intros [H1 H2]. split; [split; [|done]|].
    + intros u usr Hu. by destruct (H1 u usr Hu).
    + intros u usr Hu. by destruct (H1 u usr Hu).
  - intros [[H1 H2] H3]. split; [|done]. intros u usr Hu. split; eauto.
Qed.

Lemma inv_next us txs n n' : inv us txs n -> (n <= n')%nat -> inv us txs n'.
Proof.
  intros [H1 H2] Hn. split; [|done].
  intros u usr Hu. destruct (H1 u usr Hu). split; [lia|done].
Qed.

(** Entries [new] are appended and the users change to [us']: the condition
    carries over when every balance moved by what [new] holds for its user,
    no user disappeared and no user appeared. *)
Lemma inv_delta us us' txs new n :
  inv us txs n ->
  (forall u usr', us' !! u = Some usr' ->
     exists usr, us !! u = Some usr
                 /\ User.balance usr' = User.balance usr + ledger_sum u new) ->
  (forall u, is_Some (us !! u) -> is_Some (us' !! u)) ->
  (forall tx, tx ∈ new -> is_Some (us !! Transaction.user tx)) ->
  inv us' (txs ++ new) n.
Proof.
  intros [H1 H2] Hbal Hdom Hnew. split.
  - intros u usr' Hu. destruct (Hbal u usr' Hu) as (usr & Hus & Hb).
    destruct (H1 u usr Hus) as [Hlt Hsum]. split; [done|].
    rewrite ledger_sum_app. lia.
  - intros tx Hin. apply elem_of_app in Hin. destruct Hin as [Hin|Hin].
    + apply Hdom, H2, Hin.
    + apply Hdom, Hnew, Hin.
Qed.

(** A change of documents that leaves balances alone. *)
Lemma inv_same_balances g uid us txs n :
  inv us txs n ->
  (forall u, User.balance (g u) = User.balance u) ->
  inv (alter g uid us) txs n.
Proof.
  intros Hinv Hg. rewrite <- (app_nil_r txs).
  eapply inv_delta; [exact Hinv| | |].
  - intros u usr' Hu. rewrite lookup_alter in Hu. simpl.
    destruct (decide (uid = u)) as [->|Hne]; simplify_eq.
    + destruct (us !! u) as [usr|] eqn:E; [|done]. simpl in Hu.
      simplify_eq. exists usr. rewrite Hg. split; [done|lia].
    + exists usr'. split; [done|lia].
  - intros u [usr Hu]. rewrite lookup_alter.
    destruct (decide (uid = u)); subst; rewrite ?Hu; by eexists.
  - intros tx Hin. by apply not_elem_of_nil in Hin.
Qed.

(** One balance set to a new value, with the one entry that accounts for the
    difference. *)
Lemma inv_entry g uid user tx us txs n :
  inv us txs n ->
  us !! uid = Some user ->
  (forall u, User.balance (g u) = User.balance (g user)) ->
  Transaction.user tx = uid ->
  Transaction.amount tx = User.balance (g user) - User.balance user ->
  inv (alter g uid us) (txs ++ [tx]) n.
Proof.
  intros Hinv Hu Hg Htu Hta.
  eapply inv_delta; [exact Hinv| | |].
  - intros u usr' Hu'. rewrite lookup_alter in Hu'. simpl.
    destruct (decide (uid = u)) as [->|Hne].
    + rewrite Hu in Hu'. simpl in Hu'. simplify_eq. exists user.
      split; [done|]. destruct (decide _); [lia|done].
    + exists usr'. split; [done|].
      destruct (decide (Transaction.user tx = u)); [congruence|lia].
  - intros u [usr Hus]. rewrite lookup_alter.
    destruct (decide (uid = u)); subst; rewrite ?Hu, ?Hus; by eexists.
  - intros t Hin. apply elem_of_cons in Hin.
    destruct Hin as [->|Hin]; [|by apply not_elem_of_nil in Hin].
    rewrite Htu. by eexists.
Qed.

(** Two balances of different users, each with its entry. *)
Lemma inv_transfer g1 g2 u1 u2 user1 user2 t1 t2 us txs n :
  inv us txs n ->
  u1 <> u2 ->
  us !! u1 = Some user1 -> us !! u2 = Some user2 ->
  (forall u, User.balance (g1 u) = User.balance (g1 user1)) ->
  (forall u, User.balance (g2 u) = User.balance (g2 user2)) ->
  Transaction.user t1 = u1 -> Transaction.user t2 = u2 ->
  Transaction.amount t1 = User.balance (g1 user1) - User.balance user1 ->
  Transaction.amount t2 = User.balance (g2 user2) - User.balance user2 ->
  inv (alter g2 u2 (alter g1 u1 us)) ((txs ++ [t1]) ++ [t2]) n.
Proof.
  intros Hinv Hne H1 H2 Hg1 Hg2 Ht1 Ht2 Ha1 Ha2.
  eapply (inv_entry g2 u2 user2 t2); try done.
  - eapply (inv_entry g1 u1 user1 t1); done.
  - by rewrite lookup_alter_ne.
Qed.

(** A new user under the next id, with the entry for the opening balance. *)
Lemma inv_new_user user tx us txs n n' :
  inv us txs n ->
  Transaction.user tx = n ->
  Transaction.amount tx = User.balance user ->
  (n < n')%nat ->
  inv (<[n := user]> us) (txs ++ [tx]) n'.
Proof.
  intros [H1 H2] Htu Hta Hn.
  assert (Hfresh : us !! n = None).
  { destruct (us !! n) eqn:E; [|done]. apply H1 in E. lia. }
  assert (Hnone : ledger_sum n txs = 0).
  { rewrite ledger_sum_ledger_of, ledger_of_absent; [done|].
    intros t Hin Heq. destruct (H2 t Hin) as [usr Husr].
    rewrite Heq in Husr. congruence. }
  split.
  - intros u usr Hu. rewrite lookup_insert in Hu.
    rewrite ledger_sum_app. simpl.
    destruct (decide (n = u)) as [->|Hne]; simplify_eq.
    + split; [done|]. rewrite Hnone. rewrite decide_True by done. lia.
    + destruct (H1 u usr Hu). split; [lia|].
      rewrite decide_False by congruence. lia.
  - intros t Hin. apply elem_of_app in Hin. destruct Hin as [Hin|Hin].
    + destruct (H2 t Hin) as [usr Husr]. rewrite lookup_insert.
      destruct (decide _); by eexists.
    + apply elem_of_cons in Hin.
      destruct Hin as [->|Hin]; [|by apply not_elem_of_nil in Hin].
      rewrite Htu, lookup_insert_eq. by eexists.
Qed.

Lemma world_ok_same_core w w' : same_core w w' -> world_ok w -> world_ok w'.
Proof.
  intros (Hu & _ & _ & _ & Ht & _ & _ & Hn) H. unfold world_ok.
  rewrite Hu, Ht. eapply inv_next; [exact H|exact Hn].
Qed.

(** *** Relations that every step of a computation respects *)

Section Respects.
Context (R : World.t -> World.t -> Prop) `{!PreOrder R}.

Lemma respects_ret {A} (a : A) : respects R (ret a).
Proof. intros w. reflexivity. Qed.

Lemma respects_throw {A} e : respects R (@throw A e).
Proof. intros w. reflexivity. Qed.

Lemma respects_gets {A} (f : World.t -> A) : respects R (gets f).
Proof. intros w. reflexivity. Qed.

Lemma respects_deref {A} s (o : option A) : respects R (deref s o).
Proof. destruct o; intros w; reflexivity. Qed.

Lemma respects_modify (f : World.t -> World.t) :
  (forall w, R w (f w)) -> respects R (modify f).
Proof. intros Hf w. apply Hf. Qed.

Lemma respects_bind {A B} (m : M A) (k : A -> M B) :
  respects R m -> (forall a, respects R (k a)) -> respects R (bind m k).
Proof.
  intros Hm Hk w. unfold bind. specialize (Hm w).
  destruct (m w) as [[a|e] w1]; simpl in *; [|done].
  etrans; [exact Hm|apply Hk].
Qed.

Lemma respects_try_catch {A} (body : M A) h :
  respects R body -> (forall e, respects R (h e)) ->
  respects R (try_catch body h).
Proof.
  intros Hm Hk w. unfold try_catch. specialize (Hm w).
  destruct (body w) as [[a|e] w1]; simpl in *; [done|].
  etrans; [exact Hm|apply Hk].
Qed.

Lemma respects_when b (m : M unit) : respects R m -> respects R (when b m).
Proof. destruct b; simpl; [done|]. intros _. apply respects_ret. Qed.

Lemma respects_for_of {A} (xs : list A) (body : A -> M unit) :
  (forall x, respects R (body x)) -> respects R (for_of xs body).
Proof.
  intros Hb. induction xs as [|x xs IH]; simpl.
  - apply respects_ret.
  - apply respects_bind; [apply Hb|intros _; apply IH].
Qed.

Lemma respects_quiet {A} (m : M A) :
  (forall w w', same_core w w' -> R w w') -> quiet m -> respects R m.
Proof. intros HR Hq w. destruct (Hq w) as [_ Hs]. by apply HR. Qed.

End Respects.

#[local] Instance ok_step_preorder : PreOrder ok_step.
Proof. split; [by intros w H|intros w1 w2 w3 H1 H2 H; by apply H2, H1]. Qed.

#[local] Instance players_kept_preorder : PreOrder players_kept.
Proof.
  split; [by intros w a|]. intros w1 w2 w3 H1 H2 a. by rewrite H2, H1.
Qed.

Lemma ok_step_same_core w w' : same_core w w' -> ok_step w w'.
Proof. intros H Hok. by eapply world_ok_same_core. Qed.

Lemma players_kept_same_core w w' : same_core w w' -> players_kept w w'.
Proof. intros (_ & _ & Ha & _) a. by rewrite Ha. Qed.

(** A write that leaves users, ledger and id counter as they are. *)
Lemma ok_step_other (f : World.t -> World.t) w :
  World.users (f w) = World.users w ->
  World.transactions (f w) = World.transactions w ->
  World.nextId (f w) = World.nextId w ->
  ok_step w (f w).
Proof. intros Hu Ht Hn H. unfold world_ok. by rewrite Hu, Ht, Hn. Qed.

(** A write to user documents that leaves balances as they are. *)
Lemma ok_step_user uid (g : User.t -> User.t) w :
  (forall u, User.balance (g u) = User.balance u) ->
  ok_step w (World.set_users (alter g uid (World.users w)) w).
Proof.
  intros Hg H. unfold world_ok. wsimpl_goal. by apply inv_same_balances.
Qed.

(** One step of a proof that a computation respects a relation; [leaf]
    settles the writes. *)
Ltac respects_step same_core_lemma leaf :=
  first
    [ apply respects_ret; apply _
    | apply respects_throw; apply _
    | apply respects_gets; apply _
    | apply respects_deref; apply _
    | apply respects_quiet; [exact same_core_lemma|solve [quiet_tac]]
    | apply respects_modify; intros ?; solve [leaf]
    | apply respects_when; [apply _|]
    | apply respects_for_of; [apply _|intros ?]
    | apply respects_try_catch; [apply _| |intros ?]
    | apply respects_bind; [apply _| |intros ?]
    | match goal with
      | |- respects _ (match ?x with _ => _ end) => destruct x
      end ].

Ltac ok_leaf :=
  first [ apply ok_step_other; reflexivity
        | apply ok_step_user; intros ?; reflexivity ].

Ltac keeps_step := respects_step ok_step_same_core ok_leaf.

Ltac keeps_tac := repeat keeps_step.

(** Ends the proof for a run in [H] whose rest keeps the conditions: what
    is left to show is that the world [W] reached so far satisfies them. *)
Ltac mtail H :=
  lazymatch type of H with
  | (_, _) = _ => inversion H; subst
  | (let (_, _) := ?X in _) = _ =>
      lazymatch X with
      | match ?c with _ => _ end => destruct c; cbv beta iota in H; mtail H
      | (_, _) => inversion H; subst
      | ?m ?W =>
          let Hk := fresh "Hk" in
          assert (Hk : respects ok_step m) by keeps_tac;
          specialize (Hk W); cbv beta delta [ok_step] in Hk;
          destruct (m W) as [[?|?] ?]; cbn [snd] in Hk;
          inversion H; subst; apply Hk
      end
  end.

(** Ends the proof for a run in [H] that stops with the world unchanged. *)
Ltac mstop H :=
  cbv [json ret throw bind deref] in H; inversion H; subst; assumption.

(** The world after one balance write and its ledger entry. *)
Ltac ledger_entry Hok :=
  unfold world_ok; wsimpl_goal;
  eapply inv_next;
  [ eapply inv_entry;
    [exact Hok|eassumption|reflexivity|reflexivity|cbn; lia]
  | cbn; lia ].

(** The world after some ids were taken and nothing else. *)
Ltac ledger_ids Hok :=
  cbv [json ret throw bind deref] in *;
  match goal with H : _ = (_, _) |- _ => inversion H; subst end;
  eapply inv_next; [exact Hok|cbn; lia].

Lemma deposit_keeps_ok uid amount w :
  world_ok w -> world_ok (depositRoute uid amount w).2.
Proof.
  intros Hok. destruct (depositRoute uid amount w) as [r w'] eqn:Hr.
  cbn [snd]. unfold depositRoute in Hr. rewrite run_route in Hr.
  unfold User_findById, User_save, Transaction_save in Hr. cbv zeta in Hr.
  do 2 (mcase Hr; [mstop Hr|]).
  mcase Hr; [|mstop Hr].
  repeat mstep Hr. rewrite run_json in Hr. inversion Hr; subst; clear Hr.
  ledger_entry Hok.
Qed.

Lemma register_keeps_ok now b w :
  world_ok w -> world_ok (register now b w).2.
Proof.
  intros Hok. destruct (register now b w) as [r w'] eqn:Hr.
  cbn [snd]. unfold register in Hr. rewrite run_route in Hr.
  unfold User_insert, User_findOne, Transaction_save, User_new in Hr.
  cbv zeta in Hr.
  do 4 (mcase Hr; [mstop Hr|]).
  mcase Hr.
  { destruct p. mcase Hr; mstop Hr. }
  do 4 (mcase Hr; [ledger_ids Hok|]).
  repeat mstep Hr. rewrite run_json in Hr. inversion Hr; subst; clear Hr.
  unfold world_ok. wsimpl_goal.
  eapply inv_new_user; [exact Hok|reflexivity|reflexivity|lia].
Qed.

Lemma createChart_keeps_ok now uid b w :
  world_ok w -> world_ok (createChart now uid b w).2.
Proof.
  intros Hok. destruct (createChart now uid b w) as [r w'] eqn:Hr.
  cbn [snd]. unfold createChart in Hr. rewrite run_route in Hr.
  unfold User_findById, User_save, Transaction_save, Chart_insert,
    User_findByIdAndUpdate, json in Hr.
  cbv zeta in Hr.
  do 3 (mcase Hr; [mstop Hr|]).
  mcase Hr; [|mstop Hr].
  mcase Hr; [mstop Hr|].
  repeat mstep Hr.
  mtail Hr; ledger_entry Hok.
Qed.

Lemma joinChart_keeps_ok now uid chartId w :
  world_ok w -> world_ok (joinChart now uid chartId w).2.
Proof.
  intros Hok. destruct (joinChart now uid chartId w) as [r w'] eqn:Hr.
  cbn [snd]. unfold joinChart in Hr. rewrite run_route in Hr.
  unfold Chart_findById, User_findById, User_save, Chart_save,
    Transaction_save, json in Hr.
  cbv zeta in Hr.
  mcase Hr; [|mstop Hr].
  do 4 (mcase Hr; [mstop Hr|]).
  mcase Hr; [|mstop Hr].
  mcase Hr; [mstop Hr|].
  repeat mstep Hr.
  mtail Hr; ledger_entry Hok.
Qed.

Lemma completeArena_keeps_ok now arenaId winnerId :
  respects ok_step (completeArena now arenaId winnerId).
Proof.
  intros w Hok.
  destruct (completeArena now arenaId winnerId w) as [r w'] eqn:Hr.
  cbn [snd]. unfold completeArena in Hr. rewrite run_try_catch in Hr.
  unfold Arena_findById, Chart_findById, User_findById, Arena_save,
    Chart_save, User_save, Transaction_save in Hr.
  mcase Hr; [|mstop Hr].
  mcase Hr; [mstop Hr|].
  mcase Hr; [|mstop Hr].
  mcase Hr; [|mstop Hr].
  repeat mstep Hr.
  mtail Hr; ledger_entry Hok.
Qed.

Lemma completeRoute_keeps_ok now arenaId winnerId w :
  world_ok w -> world_ok (completeRoute now arenaId winnerId w).2.
Proof.
  intros Hok. unfold completeRoute. rewrite run_route.
  assert (Hk : respects ok_step
                 (let* result := completeArena now arenaId winnerId in
                  let* result := deref "result.winner" result in
                  json 200 (JsonCompleted result.1 result.2))).
  { apply respects_bind; [apply _|apply completeArena_keeps_ok|]. intros ?.
    unfold json. keeps_tac. }
  specialize (Hk w Hok).
  match goal with |- context [match ?m w with _ => _ end] =>
    destruct (m w) as [[?|?] ?] end; exact Hk.
Qed.

Lemma donate_keeps_ok now rnd uid b w :
  uid <> db_recipientId b ->
  world_ok w -> world_ok (donate now rnd uid b w).2.
Proof.
  intros Hne Hok. destruct (donate now rnd uid b w) as [r w'] eqn:Hr.
  cbn [snd]. unfold donate in Hr. rewrite run_route in Hr.
  unfold User_findById, Chart_findById, User_save, Chart_save,
    Transaction_save, Donation_insert, json in Hr.
  cbv zeta in Hr.
  do 2 (mcase Hr; [mstop Hr|]).
  mcase Hr; [|mstop Hr]. mcase Hr; [mstop Hr|].
  mcase Hr; [|mstop Hr]. mcase Hr; [|mstop Hr].
  do 2 (mcase Hr; [ledger_ids Hok|]).
  repeat mstep Hr.
  mtail Hr; unfold world_ok; wsimpl_goal;
  (eapply inv_next;
   [eapply inv_transfer; try eassumption; try reflexivity; cbn; lia
   |cbn; lia]).
Qed.

Lemma keeps_ok_Arena_updateOne arenaId playerId doc :
  respects ok_step (Arena_updateOne arenaId playerId doc).
Proof.
  intros w H. unfold Arena_updateOne, modify. cbn [snd].
  destruct (World.arenas w !! arenaId); [|done].
  destruct (player_index _ _); done.
Qed.

Lemma ws_message_keeps_ok now h message w :
  world_ok w -> world_ok (ws_message now h message w).
Proof.
  intros Hok. unfold ws_message. destruct (World.sockets w !! h); [|done].
  match goal with |- world_ok (snd (?m w)) =>
    assert (Hk : respects ok_step m); [|exact (Hk w Hok)] end.
  unfold jwt_verify, Socket_update, User_findByIdAndUpdate,
    Arena_findByIdAndUpdate, Arena_findById, User_findById, leave_arenas.
  repeat first [ apply completeArena_keeps_ok
               | apply keeps_ok_Arena_updateOne
               | keeps_step ].
Qed.

Lemma ws_close_keeps_ok now h w :
  world_ok w -> world_ok (ws_close now h w).
Proof.
  intros Hok. unfold ws_close. destruct (World.sockets w !! h); [|done].
  match goal with |- world_ok (snd (?m w)) =>
    assert (Hk : respects ok_step m); [|exact (Hk w Hok)] end.
  unfold Socket_update, User_findByIdAndUpdate, Arena_findByIdAndUpdate,
    leave_arenas.
  keeps_tac.
Qed.

Lemma perform_keeps_ok op w :
  ~ self_donating op -> world_ok w -> world_ok (perform op w).
Proof.
  intros Hself Hok. destruct op; simpl.
  - by apply register_keeps_ok.
  - by apply createChart_keeps_ok.
  - by apply joinChart_keeps_ok.
  - by apply donate_keeps_ok.
  - by apply deposit_keeps_ok.
  - by apply completeRoute_keeps_ok.
  - exact Hok.
  - by apply ws_message_keeps_ok.
  - by apply ws_close_keeps_ok.
Qed.

Lemma world_ok_init : world_ok World.init.
Proof.
  split.
  - intros u usr H. simpl in H. by rewrite lookup_empty in H.
  - intros tx H. simpl in H. by apply elem_of_nil in H.
Qed.

(** What C2 asks for holds as long as nobody donates to themselves: after
    every sequence of operations (registrations, chart creations, joins,
    donations, deposits, settlements by route or by score, socket traffic),
    from the empty store or from any world that satisfies the conditions,
    every stored user's balance is the sum of the signed amounts of the
    user's ledger entries.  Every prefix of a sequence is a sequence, so this
    holds at every point. *)
Theorem ledger_kept_without_self_donation ops w :
  world_ok w ->
  Forall (fun op => ~ self_donating op) ops ->
  world_ok (perform_all ops w) /\ ledger_ok (perform_all ops w).
Proof.
  intros Hok Hops.
  assert (H : world_ok (perform_all ops w)).
  { unfold perform_all. revert w Hok.
    induction Hops as [|op ops Hop Hops IH]; intros w Hok; simpl; [done|].
    apply IH. by apply perform_keeps_ok. }
  split; [exact H|]. by apply world_ok_spec in H as [_ H].
Qed.

(** The self-donation of the sample is the one step that breaks it. *)
Lemma self_donation_is_the_breaking_step :
  world_ok w_chart
  /\ self_donating (OpDonate 5000 "K3X9" 0%nat self_donation)
  /\ perform (OpDonate 5000 "K3X9" 0%nat self_donation) w_chart = w_self_donated
  /\ ~ ledger_ok w_self_donated.
Proof.
  split.
  { change w_chart with
      (perform_all [OpRegister 1000 alice_body; OpRegister 1000 bob_body;
                    OpRegister 1000 carol_body;
                    OpCreateChart 2000 0%nat duel_body] World.init).
    apply ledger_kept_without_self_donation; [apply world_ok_init|].
    repeat constructor; simpl; tauto. }
  split; [reflexivity|]. split; [reflexivity|].
  intros H. apply ledger_okb_spec in H. vm_compute in H. discriminate.
Qed.

(** ** Scores *)

Lemma players_kept_other (f : World.t -> World.t) w :
  World.arenas (f w) = World.arenas w -> players_kept w (f w).
Proof. intros H a. by rewrite H. Qed.

Lemma players_kept_alter id (g : Arena.t -> Arena.t) w :
  (forall x, Arena.players (g x) = Arena.players x) ->
  players_kept w (World.set_arenas (alter g id (World.arenas w)) w).
Proof.
  intros Hg a. wsimpl_goal. rewrite lookup_alter.
  destruct (decide (id = a)) as [->|]; [|done].
  destruct (World.arenas w !! a); simpl; [by rewrite Hg|done].
Qed.

(** The update that the score handler sends to the store changes no
    player. *)
Lemma Arena_updateOne_keeps_players now arenaId playerId score moves :
  respects players_kept
    (Arena_updateOne arenaId playerId (score_update_doc now score moves)).
Proof.
  intros w a. unfold Arena_updateOne, modify. cbn [snd].
  rewrite score_update_doc_drops_score.
  destruct (World.arenas w !! arenaId) as [arena|] eqn:Ha; [|done].
  destruct (player_index playerId (Arena.players arena)); [|done].
  wsimpl_goal. rewrite lookup_insert.
  destruct (decide (arenaId = a)) as [->|]; [|done].
  rewrite Ha. reflexivity.
Qed.

Ltac players_leaf :=
  first [ apply players_kept_other; reflexivity
        | apply players_kept_alter; intros ?; reflexivity ].

Ltac players_step := respects_step players_kept_same_core players_leaf.

(** Whatever score a player reports, for whichever player, and whether or
    not the report settles the arena: the scores and moves stored for the
    arenas' players are afterwards what they were before. *)
Lemma update_score_never_changes_scores now h arenaId playerId score moves w a :
  scores a (ws_message now h (Cmd.update_score arenaId playerId score moves) w)
  = scores a w.
Proof.
  unfold scores, ws_message.
  destruct (World.sockets w !! h) as [ws|]; [|done].
  match goal with |- context [snd (?m w)] =>
    assert (Hk : respects players_kept m); [|by rewrite (Hk w a)] end.
  unfold completeArena, Arena_findById, Chart_findById, User_findById,
    Arena_save, Chart_save, User_save, Transaction_save.
  repeat first [ apply Arena_updateOne_keeps_players | players_step ].
Qed.

(** A reported score at or above 100 settles the arena for the reported
    player at once, and the winner's stored score is still what it was: Bob
    reports 120 for himself, arena 9 is finished with Bob as winner and the
    prize of 40 on his balance, and his stored score is 0. *)
Lemma winning_score_settles_and_is_not_stored :
  let w := ws_message 6000 2%nat (Cmd.update_score 9%nat 2%nat 120 None)
                      w_live in
  (fun a => (Arena.status a, Arena.winner a)) <$> World.arenas w !! 9%nat
  = Some (Arena.finished, Some 2%nat)
  /\ balance_of 2%nat w_live = Some 80
  /\ balance_of 2%nat w = Some 120
  /\ scores 9%nat w = Some [(0%nat, 0, 0); (2%nat, 0, 0)].
Proof. vm_compute. repeat split; reflexivity. Qed.

(** A reported score below 100 settles nothing. *)
Lemma losing_score_settles_nothing :
  (fun a => (Arena.status a, Arena.winner a)) <$> World.arenas w_scored !! 9%nat
  = Some (Arena.live, None)
  /\ World.transactions w_scored = World.transactions w_live.
Proof. vm_compute. split; reflexivity. Qed.
(** * Further properties of the handlers *)

(** ** Deposits *)



(** X2. A deposit is accepted (200) exactly when the amount is positive and at
    most 10000 and the user is stored; every other deposit request (amount 0,
    negative or above 10000, or an unknown user) leaves the whole world as it
    was. *)
Theorem deposit_accepted_iff uid amount w :
  (code (depositRoute uid amount w).1 = 200
   <-> 0 < amount <= 10000 /\ is_Some (World.users w !! uid))
  /\ (code (depositRoute uid amount w).1 <> 200
      -> (depositRoute uid amount w).2 = w).
Proof.
  destruct (depositRoute uid amount w) as [r w'] eqn:Hr. cbn [fst snd].
  unfold depositRoute in Hr. rewrite run_route in Hr.
  unfold User_findById, User_save, Transaction_save in Hr. cbv zeta in Hr.
  mcase Hr.
  { cbv [json ret] in Hr. inversion Hr; subst; clear Hr. cbn [code].
    split; [|done]. split; [done|]. intros [? _].
    match goal with H : (_ || _) = true |- _ =>
      apply orb_true_iff in H as [?|?] end; bool_facts; lia. }
  mcase Hr.
  { cbv [json ret] in Hr. inversion Hr; subst; clear Hr. cbn [code].
    split; [|done]. split; [done|]. intros [? _]. bool_facts; lia. }
  mcase Hr; cycle 1.
  { inversion Hr; subst; clear Hr. cbn [code]. split; [|done].
    split; [done|]. intros [_ [? ?]]. congruence. }
  repeat mstep Hr. rewrite run_json in Hr. inversion Hr; subst; clear Hr.
  cbn [code]. split; [|done]. split; [|done]. intros _.
  bool_facts. split; [lia|]. by eexists.
Qed.

(** ** Opening a chart *)

(** The run of [createChart] for a request that passes the guards, up to the
    save of the chart. *)
Lemma createChart_run now uid b w user :
  chart_request_ok b ->
  World.users w !! uid = Some user ->
  cb_entryFee b <= User.balance user ->
  let fee := cb_entryFee b in
  let paid :=
    World.set_nextId (S (S (World.nextId w)))
      (World.set_transactions
         (World.transactions w ++
            [Transaction.mk (World.nextId w) uid Transaction.entry_fee (- fee)
               (User.balance user - fee) (Some (RefText "chart_creation"))
               ("Created chart: " +:+ Js.or_else (cb_title b) "")
               Transaction.completed])
         (World.set_users
            (alter (User.set_balance (User.balance user - fee)) uid
                   (World.users w)) w)) in
  createChart now uid b w =
  if Chart_valid (chart_of now uid b)
  then (mkResponse 201 (JsonChart (S (World.nextId w)) (chart_of now uid b)),
        World.set_users
          (alter (fun u => User.set_chartsCreated (User.chartsCreated u + 1) u)
                 uid (World.users paid))
          (World.set_charts
             (<[S (World.nextId w) := chart_of now uid b]> (World.charts w))
             paid))
  else (mkResponse 500 (JsonError "Failed to create chart"), paid).
Proof.
  intros (Ht & Hg & Hfee & Hlo & Hhi) Hu Hbal. cbv zeta.
  unfold createChart. rewrite run_route.
  unfold User_findById, User_save, Transaction_save, Chart_insert,
    User_findByIdAndUpdate, json.
  cbv zeta. rewrite Ht, Hg, Hlo, Hhi. cbn [orb].
  replace (cb_entryFee b <? 0) with false by (symmetry; apply Z.ltb_ge; lia).
  rewrite run_bind_gets, Hu, run_bind_deref.
  replace (User.balance user <? cb_entryFee b) with false
    by (symmetry; apply Z.ltb_ge; lia).
  rewrite run_bind_modify, run_bind_fresh, run_bind_modify, run_bind_fresh.
  wsimpl_goal. fold (chart_of now uid b).
  destruct (Chart_valid (chart_of now uid b)); reflexivity.
Qed.

(** X3. A chart request that passes the guards and the schema, by a user who can
    pay the entry fee, answers 201 and stores one new open chart: the creator
    holds its only seat (status active), the shown prize pool is twice the
    entry fee, it has between 2 and 8 seats and starts five minutes later.
    The creator is debited the fee with one ledger entry (amount minus the
    fee, recorded balance the new balance) and the creator's chart counter
    goes up by one; no other user and no arena changes. *)
Theorem createChart_opens now uid b w user :
  chart_request_ok b ->
  World.users w !! uid = Some user ->
  cb_entryFee b <= User.balance user ->
  Chart_valid (chart_of now uid b) = true ->
  exists cid chart w',
    createChart now uid b w = (mkResponse 201 (JsonChart cid chart), w')
    /\ World.charts w' = <[cid := chart]> (World.charts w)
    /\ Chart.creator chart = uid
    /\ Chart.status chart = Chart.open
    /\ Chart.participants chart = [Chart.mkP uid now 0 0 Chart.active]
    /\ Chart.entryFee chart = cb_entryFee b
    /\ Chart.prizePool chart = 2 * cb_entryFee b
    /\ 2 <= Chart.maxParticipants chart <= 8
    /\ Chart.startsAt chart = now + 300000
    /\ World.users w' !! uid
       = Some (User.set_chartsCreated (User.chartsCreated user + 1)
                 (User.set_balance (User.balance user - cb_entryFee b) user))
    /\ (forall v, v <> uid -> World.users w' !! v = World.users w !! v)
    /\ new_entries w w'
       = [(uid, - cb_entryFee b, User.balance user - cb_entryFee b)]
    /\ World.arenas w' = World.arenas w.
Proof.
  intros Hreq Hu Hbal Hv.
  rewrite (createChart_run now uid b w user Hreq Hu Hbal). rewrite Hv.
  eexists _, _, _. split; [reflexivity|]. wsimpl_goal.
  split; [reflexivity|]. do 4 (split; [reflexivity|]).
  split; [cbn; lia|].
  split.
  { unfold Chart_valid in Hv. bool_facts. lia. }
  split; [reflexivity|].
  split. { by rewrite !lookup_alter_eq, Hu. }
  split. { intros v Hne. by rewrite !lookup_alter_ne. }
  split; [|reflexivity].
  unfold new_entries. wsimpl_goal. by rewrite drop_app_length.
Qed.

Lemma createChart_opens_witness :
  exists cid chart w',
    createChart 2000 0%nat duel_body w_users
    = (mkResponse 201 (JsonChart cid chart), w')
    /\ World.charts w' = <[cid := chart]> (World.charts w_users)
    /\ Chart.creator chart = 0%nat
    /\ Chart.status chart = Chart.open
    /\ Chart.participants chart = [Chart.mkP 0%nat 2000 0 0 Chart.active]
    /\ Chart.entryFee chart = cb_entryFee duel_body
    /\ Chart.prizePool chart = 2 * cb_entryFee duel_body
    /\ 2 <= Chart.maxParticipants chart <= 8
    /\ Chart.startsAt chart = 2000 + 300000
    /\ World.users w' !! 0%nat
       = Some (User.set_chartsCreated (0 + 1)
                 (User.set_balance (100 - cb_entryFee duel_body)
                    (User.mk "alice" "alice@thumbs.io" (Bcrypt "secret1" 12)
                       "alice" 0 0 100 0 0 User.offline 1000)))
    /\ (forall v, v <> 0%nat ->
          World.users w' !! v = World.users w_users !! v)
    /\ new_entries w_users w'
       = [(0%nat, - cb_entryFee duel_body, 100 - cb_entryFee duel_body)]
    /\ World.arenas w' = World.arenas w_users.
Proof.
  apply (createChart_opens 2000 0%nat duel_body w_users
           (User.mk "alice" "alice@thumbs.io" (Bcrypt "secret1" 12)
              "alice" 0 0 100 0 0 User.offline 1000)).
  - repeat split; simpl; lia.
  - vm_compute. reflexivity.
  - simpl. lia.
  - vm_compute. reflexivity.
Defined.

(** X4. The fee is taken before the chart is validated: a request that passes
    the guards of the route but builds a chart that the schema refuses (a
    title of blanks only, a title of more than 100 characters, a negative
    prize) answers 500 and stores no chart, while the creator has been
    debited the entry fee and the ledger entry for it has been written. *)
Theorem createChart_invalid_chart_keeps_fee now uid b w user :
  chart_request_ok b ->
  World.users w !! uid = Some user ->
  cb_entryFee b <= User.balance user ->
  Chart_valid (chart_of now uid b) = false ->
  exists w',
    createChart now uid b w
    = (mkResponse 500 (JsonError "Failed to create chart"), w')
    /\ World.charts w' = World.charts w
    /\ balance_of uid w' = Some (User.balance user - cb_entryFee b)
    /\ new_entries w w'
       = [(uid, - cb_entryFee b, User.balance user - cb_entryFee b)].
Proof.
  intros Hreq Hu Hbal Hv.
  rewrite (createChart_run now uid b w user Hreq Hu Hbal). rewrite Hv.
  eexists. split; [reflexivity|]. unfold balance_of, new_entries. wsimpl_goal.
  split; [reflexivity|].
  split. { by rewrite lookup_alter_eq, Hu. }
  by rewrite drop_app_length.
Qed.

Lemma createChart_invalid_chart_keeps_fee_witness :
  exists w',
    createChart 2000 0%nat blank_title_body w_users
    = (mkResponse 500 (JsonError "Failed to create chart"), w')
    /\ World.charts w' = World.charts w_users
    /\ balance_of 0%nat w' = Some (100 - cb_entryFee blank_title_body)
    /\ new_entries w_users w'
       = [(0%nat, - cb_entryFee blank_title_body,
           100 - cb_entryFee blank_title_body)].
Proof.
  apply (createChart_invalid_chart_keeps_fee 2000 0%nat blank_title_body
           w_users
           (User.mk "alice" "alice@thumbs.io" (Bcrypt "secret1" 12)
              "alice" 0 0 100 0 0 User.offline 1000)).
  - repeat split; simpl; lia.
  - vm_compute. reflexivity.
  - simpl. lia.
  - vm_compute. reflexivity.
Defined.

(** X5. A chart request that is answered with 400 (missing title or game,
    negative fee, seat count outside 2..8, balance below the fee) leaves the
    whole world as it was. *)
Theorem createChart_refusal_changes_nothing now uid b w :
  code (createChart now uid b w).1 = 400 -> (createChart now uid b w).2 = w.
Proof.
  destruct (createChart now uid b w) as [r w'] eqn:Hr. cbn [fst snd].
  intros Hc. unfold createChart in Hr. rewrite run_route in Hr.
  unfold User_findById, User_save, Transaction_save, Chart_insert,
    User_findByIdAndUpdate, json in Hr.
  cbv zeta in Hr.
  do 3 (mcase Hr; [by inversion Hr|]).
  mcase Hr; [|by inversion Hr].
  mcase Hr; [by inversion Hr|].
  repeat mstep Hr. exfalso.
  destruct (Chart_valid _) in Hr; repeat mstep Hr;
    inversion Hr; subst; discriminate.
Qed.

Lemma createChart_refusal_changes_nothing_witness :
  (createChart 2000 0%nat
     (mkChartBody (Some "Duel") (Some "chess") 20 None (Some 9) None)
     w_users).2 = w_users.
Proof.
  apply (createChart_refusal_changes_nothing 2000 0%nat
           (mkChartBody (Some "Duel") (Some "chess") 20 None (Some 9) None)
           w_users).
  vm_compute. reflexivity.
Defined.

(** ** Joining a chart: refusals *)

(** X6. A join that is not answered with 200 (unknown chart, chart not open or
    full, already joined, already started, balance below the fee, unknown
    user) leaves the whole world as it was: no fee is taken and no seat is
    given. *)
Theorem joinChart_refusal_changes_nothing now uid chartId w :
  code (joinChart now uid chartId w).1 <> 200 ->
  (joinChart now uid chartId w).2 = w.
Proof.
  destruct (joinChart now uid chartId w) as [r w'] eqn:Hr. cbn [fst snd].
  intros Hc. unfold joinChart in Hr. rewrite run_route in Hr.
  unfold Chart_findById, User_findById, User_save, Chart_save,
    Transaction_save, Notification_save in Hr.
  cbv zeta in Hr.
  mcase Hr; [|by inversion Hr].
  do 4 (mcase Hr; [by inversion Hr|]).
  mcase Hr; [|by inversion Hr].
  mcase Hr; [by inversion Hr|].
  exfalso. repeat mstep Hr.
  cbn [Chart.maxParticipants Chart.set_participants
    Chart.set_prizePool Chart.creator Chart.title] in Hr.
  mcase Hr.
  - repeat mstep Hr. mquiet Hr w1 S1. repeat mstep Hr.
    destruct S1 as (Su & _). wsimpl Su.
    rewrite Su in Hr. rewrite lookup_alter_eq in Hr.
    match goal with H : World.users w !! uid = Some _ |- _ =>
      rewrite H in Hr end.
    cbn [fmap option_fmap option_map] in Hr.
    repeat mstep Hr. mquiet Hr w2 S2. rewrite run_json in Hr.
    inversion Hr; subst. by apply Hc.
  - repeat mstep Hr. rewrite lookup_alter_eq in Hr.
    match goal with H : World.users w !! uid = Some _ |- _ =>
      rewrite H in Hr end.
    cbn [fmap option_fmap option_map] in Hr.
    repeat mstep Hr. mquiet Hr w2 S2. rewrite run_json in Hr.
    inversion Hr; subst. by apply Hc.
Qed.

Lemma joinChart_refusal_changes_nothing_witness :
  (joinChart 3500 4%nat 7%nat w_arena).2 = w_arena.
Proof.
  apply (joinChart_refusal_changes_nothing 3500 4%nat 7%nat w_arena).
  vm_compute. discriminate.
Defined.

(** One step of a proof that a computation respects a relation, taken by
    the shape of the computation; [leaf] settles the writes. *)
Ltac respects_shape same_core_lemma leaf :=
  first
    [ apply respects_ret; apply _
    | apply respects_throw; apply _
    | apply respects_gets; apply _
    | apply respects_deref; apply _
    | apply respects_modify; intros ?; solve [leaf]
    | apply respects_when; [apply _|]
    | apply respects_for_of; [apply _|intros ?]
    | apply respects_try_catch; [apply _| |intros ?]
    | lazymatch goal with
      | |- respects _ (bind _ _) => apply respects_bind; [apply _| |intros ?]
      end
    | apply respects_quiet; [exact same_core_lemma|solve [quiet_tac]]
    | match goal with
      | |- respects _ (match ?x with _ => _ end) => destruct x
      end ].

(** ** Seats and prize pools, over every sequence of operations *)

#[local] Instance charts_step_preorder : PreOrder charts_step.
Proof. split; [by intros w H|intros w1 w2 w3 H1 H2 H; by apply H2, H1]. Qed.

Lemma charts_step_same_core w w' : same_core w w' -> charts_step w w'.
Proof. intros (_ & Hc & _) H id c. rewrite Hc. apply H. Qed.

Lemma charts_step_other (f : World.t -> World.t) w :
  World.charts (f w) = World.charts w -> charts_step w (f w).
Proof. intros Hc H id c. rewrite Hc. apply H. Qed.

Lemma charts_ok_eq w w' :
  World.charts w' = World.charts w -> charts_ok w -> charts_ok w'.
Proof. intros Hc H id c. rewrite Hc. apply H. Qed.

Lemma charts_ok_alter id (g : Chart.t -> Chart.t) w :
  (forall c, World.charts w !! id = Some c ->
             seats_ok c /\ pool_ok c -> seats_ok (g c) /\ pool_ok (g c)) ->
  charts_ok w ->
  charts_ok (World.set_charts (alter g id (World.charts w)) w).
Proof.
  intros Hg H k c. wsimpl_goal. rewrite lookup_alter.
  destruct (decide (id = k)) as [->|]; [|apply H].
  destruct (World.charts w !! k) as [c0|] eqn:E; [|done].
  intros [= <-]. apply Hg; [done|]. by eapply H.
Qed.

Lemma charts_ok_insert id c w :
  seats_ok c /\ pool_ok c ->
  charts_ok w ->
  charts_ok (World.set_charts (<[id := c]> (World.charts w)) w).
Proof.
  intros Hc H k c'. wsimpl_goal. rewrite lookup_insert.
  destruct (decide (id = k)) as [->|]; [by intros [= <-]|apply H].
Qed.

(** A write to a stored chart that leaves its seats, fees and pool alone
    and does not reopen it. *)
Lemma charts_step_alter id (g : Chart.t -> Chart.t) w :
  (forall c, Chart.participants (g c) = Chart.participants c
             /\ Chart.creator (g c) = Chart.creator c
             /\ Chart.maxParticipants (g c) = Chart.maxParticipants c
             /\ Chart.entryFee (g c) = Chart.entryFee c
             /\ Chart.prizePool (g c) = Chart.prizePool c
             /\ (Chart.status (g c) = Chart.open ->
                 Chart.status c = Chart.open)) ->
  charts_step w (World.set_charts (alter g id (World.charts w)) w).
Proof.
  intros Hg Hok. apply charts_ok_alter; [|exact Hok]. intros c _ [Hs Hp].
  destruct (Hg c) as (E1 & E2 & E3 & E4 & E5 & E6).
  unfold seats_ok, pool_ok in *. rewrite E1, E2, E3, E4, E5.
  destruct Hs as (? & ? & ? & ?). repeat split; try tauto; try lia.
Qed.

Lemma not_participant uid (ps : list Chart.Participant) :
  existsb (fun p => bool_decide (Chart.user p = uid)) ps = false ->
  uid ∉ map Chart.user ps.
Proof.
  intros H Hin. apply not_true_iff_false in H. apply H.
  apply existsb_exists. apply list_elem_of_In, in_map_iff in Hin.
  destruct Hin as (p & Hp & Hin). exists p. split; [done|].
  by apply bool_decide_eq_true.
Qed.

(** Taking a free seat of an open chart. *)
Lemma seated_ok uid now (c : Chart.t) :
  seats_ok c /\ pool_ok c ->
  Z.of_nat (length (Chart.participants c)) < Chart.maxParticipants c ->
  uid ∉ map Chart.user (Chart.participants c) ->
  let c' :=
    Chart.set_participants
      (Chart.participants c ++ [Chart.mkP uid now 0 0 Chart.pending])
      (Chart.set_prizePool (Chart.prizePool c + Chart.entryFee c) c) in
  pool_ok c'
  /\ Chart.user <$> head (Chart.participants c') = Some (Chart.creator c')
  /\ NoDup (map Chart.user (Chart.participants c'))
  /\ Z.of_nat (length (Chart.participants c')) <= Chart.maxParticipants c' <= 8.
Proof.
  intros [(Hh & Hd & Hn & Ho) (Hf & Hp)] Hlt Hnew. cbv zeta.
  unfold pool_ok. cbn. rewrite length_app, map_app. cbn.
  split; [split; [done|]; rewrite Hp; lia|].
  split.
  { destruct (Chart.participants c); [done|exact Hh]. }
  split.
  { apply NoDup_app. split; [done|]. split.
    - intros x Hx Hx'. apply elem_of_cons in Hx' as [->|Hx']; [done|].
      by apply not_elem_of_nil in Hx'.
    - apply NoDup_singleton. }
  lia.
Qed.

Ltac charts_leaf :=
  first [ apply charts_step_other; reflexivity
        | apply charts_step_alter; intros ?; cbn;
          repeat split; (reflexivity || discriminate || tauto) ].

Ltac charts_stp := respects_shape charts_step_same_core charts_leaf.

Ltac charts_tac := repeat charts_stp.

(** Ends the proof for a run in [H] whose rest respects [R], shown by
    [tac]: what is left is the goal for the world reached so far. *)
Ltac mtail_by R tac H :=
  lazymatch type of H with
  | (_, _) = _ => inversion H; subst
  | (let (_, _) := ?X in _) = _ =>
      lazymatch X with
      | match ?c with _ => _ end =>
          destruct c; cbv beta iota in H; mtail_by R tac H
      | (_, _) => inversion H; subst
      | ?m ?W =>
          let Hk := fresh "Hk" in
          assert (Hk : respects R m) by tac;
          specialize (Hk W); red in Hk;
          destruct (m W) as [[?|?] ?]; cbn [snd] in Hk;
          inversion H; subst; apply Hk
      end
  end.

Lemma createChart_keeps_charts now uid b w :
  charts_ok w -> charts_ok (createChart now uid b w).2.
Proof.
  intros Hok. destruct (createChart now uid b w) as [r w'] eqn:Hr.
  cbn [snd]. unfold createChart in Hr. rewrite run_route in Hr.
  unfold User_findById, User_save, Transaction_save, Chart_insert,
    User_findByIdAndUpdate, json in Hr.
  cbv zeta in Hr.
  do 3 (mcase Hr; [mstop Hr|]).
  mcase Hr; [|mstop Hr].
  mcase Hr; [mstop Hr|].
  repeat mstep Hr.
  destruct (Chart_valid _) eqn:Hv in Hr; repeat mstep Hr;
    inversion Hr; subst; clear Hr;
    [|by apply (charts_ok_eq w)].
  eapply charts_ok_eq; [|eapply (charts_ok_insert _ _ w); [|exact Hok]];
    [reflexivity|].
  unfold Chart_valid in Hv. cbn in Hv. bool_facts.
  unfold seats_ok, pool_ok. cbn.
  repeat split; try lia; try done.
  apply NoDup_singleton.
Qed.

Lemma joinChart_keeps_charts now uid chartId w :
  charts_ok w -> charts_ok (joinChart now uid chartId w).2.
Proof.
  intros Hok. destruct (joinChart now uid chartId w) as [r w'] eqn:Hr.
  cbn [snd]. unfold joinChart in Hr. rewrite run_route in Hr.
  unfold Chart_findById, User_findById, User_save, Chart_save,
    Transaction_save, json in Hr.
  cbv zeta in Hr.
  mcase Hr; [|mstop Hr].
  do 4 (mcase Hr; [mstop Hr|]).
  mcase Hr; [|mstop Hr].
  mcase Hr; [mstop Hr|].
  repeat mstep Hr.
  cbn [Chart.maxParticipants Chart.set_participants
    Chart.set_prizePool Chart.creator Chart.title] in Hr.
  match goal with H : World.charts w !! chartId = Some ?c |- _ =>
    rename H into Hc; pose proof (Hok _ _ Hc) as Hcok;
    assert (Hseat := seated_ok uid now c Hcok) end.
  bool_facts.
  match goal with H : existsb _ _ = false |- _ =>
    apply not_participant in H; rename H into Hnew end.
  specialize (Hseat ltac:(lia) Hnew). cbv zeta in Hseat.
  destruct Hseat as (Hp & Hh & Hd & Hn).
  mcase Hr.
  - repeat mstep Hr.
    mtail_by charts_step ltac:(unfold Notification_save; charts_tac) Hr;
    (eapply charts_ok_eq;
       [|eapply (charts_ok_alter chartId _ w); [|exact Hok]];
       [wsimpl_goal; rewrite alter_alter_eq; reflexivity|];
     intros c0 Hc0 _; rewrite Hc in Hc0; injection Hc0 as <-;
     split; [|exact Hp];
     unfold seats_ok; cbn; cbn in Hh, Hd, Hn;
     repeat split; try tauto; try lia; discriminate).
  - repeat mstep Hr.
    mtail_by charts_step ltac:(unfold Notification_save; charts_tac) Hr;
    (eapply charts_ok_eq;
       [|eapply (charts_ok_alter chartId _ w); [|exact Hok]];
       [reflexivity|];
     intros c0 Hc0 _; rewrite Hc in Hc0; injection Hc0 as <-;
     split; [|exact Hp];
     unfold seats_ok; cbn; cbn in Hh, Hd, Hn;
     repeat split; try tauto; try lia;
     intros _; rewrite length_app; cbn;
     match goal with H : (_ <=? _) = false |- _ =>
       apply Z.leb_gt in H; rewrite length_app in H; cbn in H; lia end).
Qed.

Lemma respects_route (R : World.t -> World.t -> Prop) failure
    (handler : M Response) w :
  respects R handler -> R w (route failure handler w).2.
Proof.
  intros H. specialize (H w). unfold route.
  destruct (handler w) as [[?|?] ?]; exact H.
Qed.

Lemma completeArena_keeps_charts now arenaId winnerId :
  respects charts_step (completeArena now arenaId winnerId).
Proof.
  unfold completeArena, Arena_findById, Chart_findById, User_findById,
    Arena_save, Chart_save, User_save, Transaction_save, Notification_save.
  charts_tac.
Qed.

Lemma Arena_updateOne_keeps_charts arenaId playerId doc :
  respects charts_step (Arena_updateOne arenaId playerId doc).
Proof.
  intros w H. unfold Arena_updateOne, modify. cbn [snd].
  destruct (World.arenas w !! arenaId); [|done].
  destruct (player_index _ _); done.
Qed.

Lemma perform_keeps_charts op w : charts_ok w -> charts_ok (perform op w).
Proof.
  intros Hok. destruct op; cbn [perform].
  - revert Hok. unfold register. apply (respects_route charts_step).
    unfold User_insert, User_findOne, Transaction_save, json. charts_tac.
  - by apply createChart_keeps_charts.
  - by apply joinChart_keeps_charts.
  - revert Hok. unfold donate. apply (respects_route charts_step).
    unfold User_findById, Chart_findById, User_save, Chart_save,
      Transaction_save, Donation_insert, Notification_save, json.
    cbv zeta. charts_tac.
  - revert Hok. unfold depositRoute. apply (respects_route charts_step).
    unfold User_findById, User_save, Transaction_save, json. cbv zeta.
    charts_tac.
  - revert Hok. unfold completeRoute. apply (respects_route charts_step).
    apply respects_bind; [apply _|apply completeArena_keeps_charts|].
    intros ?. unfold json. charts_tac.
  - by apply (charts_ok_eq w).
  - unfold ws_message. destruct (World.sockets w !! h); [|done].
    match goal with |- charts_ok (snd (?m w)) =>
      assert (Hk : respects charts_step m); [|exact (Hk w Hok)] end.
    unfold jwt_verify, Socket_update, User_findByIdAndUpdate,
      Arena_findByIdAndUpdate, Arena_findById, User_findById, leave_arenas.
    repeat first [ apply completeArena_keeps_charts
                 | apply Arena_updateOne_keeps_charts
                 | charts_stp ].
  - unfold ws_close. destruct (World.sockets w !! h); [|done].
    match goal with |- charts_ok (snd (?m w)) =>
      assert (Hk : respects charts_step m); [|exact (Hk w Hok)] end.
    unfold Socket_update, User_findByIdAndUpdate, Arena_findByIdAndUpdate,
      leave_arenas.
    charts_tac.
Qed.


Lemma charts_ok_init : charts_ok World.init.
Proof. intros id c H. cbn in H. by rewrite lookup_empty in H. Qed.





(** ** No overdraft, over every sequence of operations *)

#[local] Instance sound_step_preorder : PreOrder sound_step.
Proof. split; [by intros w H|intros w1 w2 w3 H1 H2 H; by apply H2, H1]. Qed.

#[local] Instance solvent_step_preorder : PreOrder solvent_step.
Proof. split; [by intros w H|intros w1 w2 w3 H1 H2 H; by apply H2, H1]. Qed.

Lemma solvent_step_same_core w w' : same_core w w' -> solvent_step w w'.
Proof. intros (Hu & _) H. by rewrite Hu. Qed.

Lemma sound_step_same_core w w' : same_core w w' -> sound_step w w'.
Proof.
  intros Hs [H1 H2]. split.
  - by apply (charts_step_same_core w).
  - by apply (solvent_step_same_core w).
Qed.

Lemma solvent_step_other (f : World.t -> World.t) w :
  World.users (f w) = World.users w -> solvent_step w (f w).
Proof. intros Hu H. by rewrite Hu. Qed.

Lemma solvent_alter uid (g : User.t -> User.t) us :
  (forall u, us !! uid = Some u -> 0 <= User.balance (g u)) ->
  solvent_users us -> solvent_users (alter g uid us).
Proof.
  intros Hg H k usr. rewrite lookup_alter.
  destruct (decide (uid = k)) as [->|]; [|apply H].
  destruct (us !! k) as [u0|] eqn:E; [|done].
  intros [= <-]. by apply Hg.
Qed.

Lemma solvent_insert uid u us :
  0 <= User.balance u -> solvent_users us -> solvent_users (<[uid := u]> us).
Proof.
  intros Hu H k usr. rewrite lookup_insert.
  destruct (decide (uid = k)) as [->|]; [by intros [= <-]|apply H].
Qed.

(** A write to a user document that leaves the balance as it is. *)
Lemma solvent_step_user uid (g : User.t -> User.t) w :
  (forall u, User.balance (g u) = User.balance u) ->
  solvent_step w (World.set_users (alter g uid (World.users w)) w).
Proof.
  intros Hg H. wsimpl_goal. apply solvent_alter; [|done].
  intros u Hu. rewrite Hg. by eapply H.
Qed.

Lemma solvent_step_insert uid u w :
  0 <= User.balance u ->
  solvent_step w (World.set_users (<[uid := u]> (World.users w)) w).
Proof. intros Hu H. wsimpl_goal. by apply solvent_insert. Qed.

Ltac solvent_leaf :=
  first [ apply solvent_step_other; reflexivity
        | apply solvent_step_user; intros ?; reflexivity
        | apply solvent_step_insert; cbn; lia ].

Ltac solvent_stp := respects_shape solvent_step_same_core solvent_leaf.

Ltac solvent_tac := repeat solvent_stp.

Lemma deposit_keeps_solvent uid amount w :
  solvent_users (World.users w) ->
  solvent_users (World.users (depositRoute uid amount w).2).
Proof.
  intros Hok. destruct (depositRoute uid amount w) as [r w'] eqn:Hr.
  cbn [snd]. unfold depositRoute in Hr. rewrite run_route in Hr.
  unfold User_findById, User_save, Transaction_save in Hr. cbv zeta in Hr.
  do 2 (mcase Hr; [mstop Hr|]).
  mcase Hr; [|mstop Hr].
  repeat mstep Hr. rewrite run_json in Hr. inversion Hr; subst; clear Hr.
  wsimpl_goal. apply solvent_alter; [|done].
  intros u _. cbn. bool_facts.
  match goal with H : World.users w !! uid = Some ?t |- _ =>
    pose proof (Hok _ _ H) end. lia.
Qed.

Lemma register_keeps_solvent now b w :
  solvent_users (World.users w) ->
  solvent_users (World.users (register now b w).2).
Proof.
  unfold register. apply (respects_route solvent_step).
  unfold User_insert, User_findOne, Transaction_save, User_new, json.
  cbv zeta. solvent_tac.
Qed.

Lemma createChart_keeps_solvent now uid b w :
  solvent_users (World.users w) ->
  solvent_users (World.users (createChart now uid b w).2).
Proof.
  intros Hok. destruct (createChart now uid b w) as [r w'] eqn:Hr.
  cbn [snd]. unfold createChart in Hr. rewrite run_route in Hr.
  unfold User_findById, User_save, Transaction_save, Chart_insert,
    User_findByIdAndUpdate, json in Hr.
  cbv zeta in Hr.
  do 3 (mcase Hr; [mstop Hr|]).
  mcase Hr; [|mstop Hr].
  mcase Hr; [mstop Hr|].
  repeat mstep Hr. bool_facts.
  mtail_by solvent_step ltac:(solvent_tac) Hr;
    (wsimpl_goal; apply solvent_alter; [|done]; intros ? _; cbn; lia).
Qed.

Lemma joinChart_keeps_solvent now uid chartId w :
  solvent_users (World.users w) ->
  solvent_users (World.users (joinChart now uid chartId w).2).
Proof.
  intros Hok. destruct (joinChart now uid chartId w) as [r w'] eqn:Hr.
  cbn [snd]. unfold joinChart in Hr. rewrite run_route in Hr.
  unfold Chart_findById, User_findById, User_save, Chart_save,
    Transaction_save, json in Hr.
  cbv zeta in Hr.
  mcase Hr; [|mstop Hr].
  do 4 (mcase Hr; [mstop Hr|]).
  mcase Hr; [|mstop Hr].
  mcase Hr; [mstop Hr|].
  repeat mstep Hr. bool_facts.
  mtail_by solvent_step ltac:(unfold Notification_save; solvent_tac) Hr;
    (wsimpl_goal; apply solvent_alter; [|done]; intros ? _; cbn; lia).
Qed.

Lemma donate_keeps_solvent now rnd uid b w :
  solvent_users (World.users w) ->
  solvent_users (World.users (donate now rnd uid b w).2).
Proof.
  intros Hok. destruct (donate now rnd uid b w) as [r w'] eqn:Hr.
  cbn [snd]. unfold donate in Hr. rewrite run_route in Hr.
  unfold User_findById, Chart_findById, User_save, Chart_save,
    Transaction_save, Donation_insert, json in Hr.
  cbv zeta in Hr.
  do 2 (mcase Hr; [mstop Hr|]).
  mcase Hr; [|mstop Hr]. mcase Hr; [mstop Hr|].
  mcase Hr; [|mstop Hr]. mcase Hr; [|mstop Hr].
  do 2 (mcase Hr; [mstop Hr|]).
  repeat mstep Hr. bool_facts.
  match goal with H : World.users w !! db_recipientId b = Some ?t |- _ =>
    pose proof (Hok _ _ H) end.
  mtail_by solvent_step ltac:(unfold Notification_save; solvent_tac) Hr;
    (wsimpl_goal; apply solvent_alter;
     [|apply solvent_alter; [|done]]; intros ? _; cbn; lia).
Qed.

Lemma completeArena_keeps_sound now arenaId winnerId :
  respects sound_step (completeArena now arenaId winnerId).
Proof.
  intros w [Hch Hok]. split; [by apply completeArena_keeps_charts|].
  destruct (completeArena now arenaId winnerId w) as [r w'] eqn:Hr.
  cbn [snd]. unfold completeArena in Hr. rewrite run_try_catch in Hr.
  unfold Arena_findById, Chart_findById, User_findById, Arena_save,
    Chart_save, User_save, Transaction_save in Hr.
  mcase Hr; [|mstop Hr].
  mcase Hr; [mstop Hr|].
  mcase Hr; [|mstop Hr].
  mcase Hr; [|mstop Hr].
  repeat mstep Hr.
  match goal with H : World.users w !! winnerId = Some ?t |- _ =>
    pose proof (Hok _ _ H) end.
  match goal with H : World.charts w !! _ = Some ?c |- _ =>
    destruct (Hch _ _ H) as [_ [Hfee _]] end.
  mtail_by solvent_step ltac:(unfold Notification_save; solvent_tac) Hr;
    (wsimpl_goal; apply solvent_alter; [|done]; intros ? _; cbn; nia).
Qed.

Lemma sound_step_of w w' :
  charts_step w w' -> solvent_step w w' -> sound_step w w'.
Proof. intros H1 H2 [? ?]. split; [by apply H1|by apply H2]. Qed.

Ltac sound_leaf := apply sound_step_of; [charts_leaf|solvent_leaf].

Ltac sound_stp := respects_shape sound_step_same_core sound_leaf.

Lemma Arena_updateOne_keeps_sound arenaId playerId doc :
  respects sound_step (Arena_updateOne arenaId playerId doc).
Proof.
  intros w H. unfold Arena_updateOne, modify. cbn [snd].
  destruct (World.arenas w !! arenaId); [|done].
  destruct (player_index _ _); done.
Qed.

Lemma perform_keeps_sound op w : sound w -> sound (perform op w).
Proof.
  intros Hok.
  destruct op;
    try (split; [apply perform_keeps_charts, Hok|destruct Hok as [Hch Hok]]);
    cbn [perform].
  - by apply register_keeps_solvent.
  - by apply createChart_keeps_solvent.
  - by apply joinChart_keeps_solvent.
  - by apply donate_keeps_solvent.
  - by apply deposit_keeps_solvent.
  - assert (H : sound (completeRoute now arenaId winnerId w).2); [|apply H].
    assert (Hs : sound w) by done. revert Hs.
    unfold completeRoute. apply (respects_route sound_step).
    apply respects_bind; [apply _|apply completeArena_keeps_sound|].
    intros ?. unfold json. repeat sound_stp.
  - exact Hok.
  - assert (H : sound (ws_message now h message w)); [|apply H].
    assert (Hs : sound w) by done.
    unfold ws_message. destruct (World.sockets w !! h); [|done].
    match goal with |- sound (snd (?m w)) =>
      assert (Hk : respects sound_step m); [|exact (Hk w Hs)] end.
    unfold jwt_verify, Socket_update, User_findByIdAndUpdate,
      Arena_findByIdAndUpdate, Arena_findById, User_findById, leave_arenas.
    repeat first [ apply completeArena_keeps_sound
                 | apply Arena_updateOne_keeps_sound
                 | sound_stp ].
  - assert (H : sound (ws_close now h w)); [|apply H].
    assert (Hs : sound w) by done.
    unfold ws_close. destruct (World.sockets w !! h); [|done].
    match goal with |- sound (snd (?m w)) =>
      assert (Hk : respects sound_step m); [|exact (Hk w Hs)] end.
    unfold Socket_update, User_findByIdAndUpdate, Arena_findByIdAndUpdate,
      leave_arenas.
    repeat sound_stp.
Qed.

Lemma sound_init : sound World.init.
Proof.
  split; [apply charts_ok_init|].
  intros u usr H. cbn in H. by rewrite lookup_empty in H.
Qed.

(** X9. No overdraft: after every sequence of operations from the empty store
    (self-donations included) every stored user's balance is at least 0. *)
Theorem balance_never_negative ops u usr :
  World.users (perform_all ops World.init) !! u = Some usr ->
  0 <= User.balance usr.
Proof.
  assert (H : forall w, sound w -> sound (perform_all ops w)).
  { unfold perform_all.
    induction ops as [|op ops IH]; intros w Hok; cbn [foldl]; [done|].
    by apply IH, perform_keeps_sound. }
  destruct (H _ sound_init) as [_ Hs]. apply Hs.
Qed.

Lemma balance_never_negative_witness :
  exists usr, World.users w_self_donated !! 0%nat = Some usr
              /\ 0 <= User.balance usr.
Proof.
  eexists. split; [vm_compute; reflexivity|].
  apply (balance_never_negative
           [OpRegister 1000 alice_body; OpRegister 1000 bob_body;
            OpRegister 1000 carol_body; OpCreateChart 2000 0%nat duel_body;
            OpDonate 5000 "K3X9" 0%nat self_donation] 0%nat).
  vm_compute. reflexivity.
Defined.

(** ** A finished arena stays finished *)

Lemma settled_kept_refl w : settled_kept w w.
Proof. intros a arena Ha Hs. by exists arena. Qed.

Lemma settled_kept_trans w1 w2 w3 :
  settled_kept w1 w2 -> settled_kept w2 w3 -> settled_kept w1 w3.
Proof.
  intros H1 H2 a arena Ha Hs.
  destruct (H1 a arena Ha Hs) as (a2 & Ha2 & Hs2 & Hw2 & He2).
  destruct (H2 a a2 Ha2 Hs2) as (a3 & Ha3 & Hs3 & Hw3 & He3).
  exists a3. repeat split; congruence.
Qed.

#[local] Instance arenas_step_preorder : PreOrder arenas_step.
Proof.
  split.
  - intros w H. split; [done|apply settled_kept_refl].
  - intros w1 w2 w3 H1 H2 H. destruct (H1 H) as [I2 K2].
    destruct (H2 I2) as [I3 K3]. split; [done|].
    by eapply settled_kept_trans.
Qed.

(** A write that leaves the arenas alone and does not lower the counter. *)
Lemma arenas_step_other w w' :
  World.arenas w' = World.arenas w ->
  (World.nextId w <= World.nextId w')%nat ->
  arenas_step w w'.
Proof.
  intros Ha Hn H. split.
  - intros a arena. rewrite Ha. intros Hl. apply H in Hl. lia.
  - intros a arena. rewrite Ha. intros Hl Hs. by exists arena.
Qed.

Lemma arenas_step_same_core w w' : same_core w w' -> arenas_step w w'.
Proof. intros (_ & _ & Ha & _ & _ & _ & _ & Hn). by apply arenas_step_other. Qed.

(** A write to a stored arena that keeps the status, winner and end time of
    a finished one. *)
Lemma arenas_step_alter id (g : Arena.t -> Arena.t) w :
  (forall x, World.arenas w !! id = Some x ->
             Arena.status x = Arena.finished ->
             Arena.status (g x) = Arena.finished
             /\ Arena.winner (g x) = Arena.winner x
             /\ Arena.endedAt (g x) = Arena.endedAt x) ->
  arenas_step w (World.set_arenas (alter g id (World.arenas w)) w).
Proof.
  intros Hg H. split.
  - intros a arena. wsimpl_goal. rewrite lookup_alter.
    destruct (decide (id = a)) as [->|]; [|apply H].
    destruct (World.arenas w !! a) eqn:E; [|done]. intros _. by eapply H.
  - intros a arena Ha Hs. wsimpl_goal. rewrite lookup_alter.
    destruct (decide (id = a)) as [->|]; [|by exists arena].
    rewrite Ha. cbn. eexists. split; [reflexivity|]. by apply Hg.
Qed.

Lemma Arena_set_path_keeps pos path v a :
  Arena.status (Arena_set_path pos path v a) = Arena.status a
  /\ Arena.winner (Arena_set_path pos path v a) = Arena.winner a
  /\ Arena.endedAt (Arena_set_path pos path v a) = Arena.endedAt a.
Proof. unfold Arena_set_path. repeat case_bool_decide; done. Qed.

Lemma Arena_updateOne_keeps_arenas arenaId playerId doc :
  respects arenas_step (Arena_updateOne arenaId playerId doc).
Proof.
  intros w H. unfold Arena_updateOne, modify. cbn [snd].
  destruct (World.arenas w !! arenaId) as [x|] eqn:Ha; [|by apply arenas_step_other].
  destruct (player_index _ _) as [pos|]; [|by apply arenas_step_other].
  set (fields := default [] (Js.get "$set" doc)).
  assert (Hf : forall a0,
    let a' := foldl (fun acc kv => Arena_set_path pos kv.1 kv.2 acc) a0 fields in
    Arena.status a' = Arena.status a0 /\ Arena.winner a' = Arena.winner a0
    /\ Arena.endedAt a' = Arena.endedAt a0).
  { clearbody fields. induction fields as [|kv fs IH]; intros a0; cbn; [done|].
    destruct (IH (Arena_set_path pos kv.1 kv.2 a0)) as (E1 & E2 & E3).
    destruct (Arena_set_path_keeps pos kv.1 kv.2 a0) as (F1 & F2 & F3).
    cbv zeta in *. repeat split; congruence. }
  destruct (Hf x) as (E1 & E2 & E3). cbv zeta in *. split.
  - intros a arena. wsimpl_goal. rewrite lookup_insert.
    destruct (decide (arenaId = a)) as [->|]; [|apply H].
    intros _. by eapply H.
  - intros a arena Hl Hs. wsimpl_goal. rewrite lookup_insert.
    destruct (decide (arenaId = a)) as [->|]; [|by exists arena].
    eexists. split; [reflexivity|]. simplify_eq. repeat split; congruence.
Qed.

Lemma arenas_step_spectators id (g : Arena.t -> Arena.t) w :
  (forall x, Arena.status (g x) = Arena.status x
             /\ Arena.winner (g x) = Arena.winner x
             /\ Arena.endedAt (g x) = Arena.endedAt x) ->
  arenas_step w (World.set_arenas (alter g id (World.arenas w)) w).
Proof.
  intros Hg. apply arenas_step_alter. intros x _ Hs.
  destruct (Hg x) as (-> & -> & ->). done.
Qed.

Ltac arenas_leaf :=
  first [ apply arenas_step_other; [reflexivity|cbn; lia]
        | apply arenas_step_spectators; intros ?;
          unfold addToSet_spectators, pull_spectators;
          try case_bool_decide; done ].

Ltac arenas_stp := respects_shape arenas_step_same_core arenas_leaf.

Ltac arenas_tac := repeat arenas_stp.

(** Ends the proof that the run in [H] is a step of the relation [R]: the
    rest of the run respects [R], shown by [tac], and what is left is the step
    to the world reached so far. *)
Ltac mtail_trans R tac H :=
  lazymatch type of H with
  | (_, _) = _ => inversion H; subst
  | throw _ _ = _ => cbv [throw] in H; inversion H; subst
  | (let (_, _) := ?X in _) = _ =>
      lazymatch X with
      | match ?c with _ => _ end =>
          destruct c; cbv beta iota in H; mtail_trans R tac H
      | (_, _) => inversion H; subst
      | ?m ?W =>
          let Hk := fresh "Hk" in
          assert (Hk : respects R m) by tac;
          specialize (Hk W);
          destruct (m W) as [[?|?] ?]; cbn [snd] in Hk;
          cbv beta iota delta [throw] in H;
          inversion H; subst; (etrans; [|exact Hk])
      end
  end.

Lemma completeArena_keeps_arenas now arenaId winnerId :
  respects arenas_step (completeArena now arenaId winnerId).
Proof.
  intros w.
  destruct (completeArena now arenaId winnerId w) as [r w'] eqn:Hr.
  cbn [snd]. unfold completeArena in Hr. rewrite run_try_catch in Hr.
  unfold Arena_findById, Chart_findById, User_findById, Arena_save,
    Chart_save, User_save, Transaction_save in Hr.
  mcase Hr; [|inversion Hr; subst; reflexivity].
  mcase Hr; [inversion Hr; subst; reflexivity|].
  bool_facts. repeat mstep Hr.
  assert (Hstep : forall W,
    World.arenas W
    = alter (fun a => Arena.set_winner (Some winnerId)
                        (Arena.set_endedAt (Some now)
                           (Arena.set_status Arena.finished a)))
            arenaId (World.arenas w) ->
    (World.nextId w <= World.nextId W)%nat -> arenas_step w W).
  { intros W HW Hn.
    transitivity (World.set_arenas (World.arenas W) w).
    - rewrite HW. apply arenas_step_alter. intros x Hx Hs. congruence.
    - apply arenas_step_other; [reflexivity|exact Hn]. }
  mtail_trans arenas_step
    ltac:(unfold Notification_save, Chart_findById, User_findById, Chart_save,
            User_save, Transaction_save; arenas_tac) Hr;
    (apply Hstep; [reflexivity|cbn; lia]).
Qed.

(** A new arena under an id that the counter has just given out. *)
Lemma arenas_step_insert id arena w W :
  World.arenas W = <[id := arena]> (World.arenas w) ->
  (World.nextId w <= id < World.nextId W)%nat ->
  arenas_step w W.
Proof.
  intros HW Hid H. split.
  - intros a x. rewrite HW, lookup_insert.
    destruct (decide (id = a)) as [<-|]; [intros _; lia|].
    intros Hl. apply H in Hl. lia.
  - intros a x Hl Hs. rewrite HW, lookup_insert.
    destruct (decide (id = a)) as [<-|]; [|by exists x].
    apply H in Hl. lia.
Qed.

Lemma joinChart_keeps_arenas now uid chartId w :
  arenas_step w (joinChart now uid chartId w).2.
Proof.
  destruct (joinChart now uid chartId w) as [r w'] eqn:Hr.
  cbn [snd]. unfold joinChart in Hr. rewrite run_route in Hr.
  unfold Chart_findById, User_findById, User_save, Chart_save,
    Transaction_save, json in Hr.
  cbv zeta in Hr.
  mcase Hr; [|inversion Hr; subst; reflexivity].
  do 4 (mcase Hr; [inversion Hr; subst; reflexivity|]).
  mcase Hr; [|inversion Hr; subst; reflexivity].
  mcase Hr; [inversion Hr; subst; reflexivity|].
  repeat mstep Hr.
  cbn [Chart.maxParticipants Chart.set_participants
    Chart.set_prizePool Chart.creator Chart.title] in Hr.
  mcase Hr.
  - repeat mstep Hr.
    mtail_trans arenas_step ltac:(unfold Notification_save; arenas_tac) Hr;
      (eapply arenas_step_insert; [reflexivity|cbn; lia]).
  - repeat mstep Hr.
    mtail_trans arenas_step ltac:(unfold Notification_save; arenas_tac) Hr;
      (apply arenas_step_other; [reflexivity|cbn; lia]).
Qed.

Lemma arenas_step_route failure (handler : M Response) w :
  respects arenas_step handler -> arenas_step w (route failure handler w).2.
Proof. apply respects_route. Qed.

Lemma perform_keeps_arenas op w : arenas_step w (perform op w).
Proof.
  destruct op; cbn [perform].
  - unfold register. apply arenas_step_route.
    unfold User_insert, User_findOne, Transaction_save, json. arenas_tac.
  - unfold createChart. apply arenas_step_route.
    unfold User_findById, User_save, Transaction_save, Chart_insert,
      User_findByIdAndUpdate, json. cbv zeta. arenas_tac.
  - apply joinChart_keeps_arenas.
  - unfold donate. apply arenas_step_route.
    unfold User_findById, Chart_findById, User_save, Chart_save,
      Transaction_save, Donation_insert, Notification_save, json.
    cbv zeta. arenas_tac.
  - unfold depositRoute. apply arenas_step_route.
    unfold User_findById, User_save, Transaction_save, json. cbv zeta.
    arenas_tac.
  - unfold completeRoute. apply arenas_step_route.
    apply respects_bind; [apply _|apply completeArena_keeps_arenas|].
    intros ?. unfold json. arenas_tac.
  - by apply arenas_step_other.
  - unfold ws_message. destruct (World.sockets w !! h); [|reflexivity].
    match goal with |- arenas_step w (snd (?m w)) =>
      assert (Hk : respects arenas_step m); [|exact (Hk w)] end.
    unfold jwt_verify, Socket_update, User_findByIdAndUpdate,
      Arena_findByIdAndUpdate, Arena_findById, User_findById, leave_arenas.
    repeat first [ apply completeArena_keeps_arenas
                 | apply Arena_updateOne_keeps_arenas
                 | arenas_stp ].
  - unfold ws_close. destruct (World.sockets w !! h); [|reflexivity].
    match goal with |- arenas_step w (snd (?m w)) =>
      assert (Hk : respects arenas_step m); [|exact (Hk w)] end.
    unfold Socket_update, User_findByIdAndUpdate, Arena_findByIdAndUpdate,
      leave_arenas.
    arenas_tac.
Qed.

Lemma perform_all_keeps_arenas ops w : arenas_step w (perform_all ops w).
Proof.
  unfold perform_all. revert w.
  induction ops as [|op ops IH]; intros w; cbn [foldl]; [reflexivity|].
  etrans; [apply perform_keeps_arenas|apply IH].
Qed.

Lemma arena_ids_ok_init : arena_ids_ok World.init.
Proof. intros a arena H. cbn in H. by rewrite lookup_empty in H. Qed.

(** X10. Settlement is final: an arena that is finished at some point of a run
    from the empty store is finished after every further sequence of
    operations, with the same winner and the same end time. *)
Theorem settlement_is_final before after a arena :
  let w := perform_all before World.init in
  World.arenas w !! a = Some arena ->
  Arena.status arena = Arena.finished ->
  exists arena',
    World.arenas (perform_all after w) !! a = Some arena'
    /\ Arena.status arena' = Arena.finished
    /\ Arena.winner arena' = Arena.winner arena
    /\ Arena.endedAt arena' = Arena.endedAt arena.
Proof.
  intros w Ha Hs.
  destruct (perform_all_keeps_arenas before World.init arena_ids_ok_init)
    as [Hids _].
  destruct (perform_all_keeps_arenas after w Hids) as [_ Hk].
  by apply Hk.
Qed.

Lemma settlement_is_final_witness :
  exists arena',
    World.arenas
      (perform_all
         [OpComplete 5000 9%nat 0%nat;
          OpMessage 6000 2%nat (Cmd.update_score 9%nat 0%nat 120 None)]
         (perform_all
            [OpRegister 1000 alice_body; OpRegister 1000 bob_body;
             OpRegister 1000 carol_body; OpCreateChart 2000 0%nat duel_body;
             OpJoinChart 3000 2%nat 7%nat;
             OpConnection 2%nat;
             OpMessage 3200 2%nat (Cmd.auth (Jwt 2%nat "bob" 2592001));
             OpComplete 4000 9%nat 2%nat] World.init)) !! 9%nat
    = Some arena'
    /\ Arena.status arena' = Arena.finished
    /\ Arena.winner arena' = Some 2%nat
    /\ Arena.endedAt arena' = Some 4000.
Proof.
  edestruct (settlement_is_final
    [OpRegister 1000 alice_body; OpRegister 1000 bob_body;
     OpRegister 1000 carol_body; OpCreateChart 2000 0%nat duel_body;
     OpJoinChart 3000 2%nat 7%nat;
     OpConnection 2%nat;
     OpMessage 3200 2%nat (Cmd.auth (Jwt 2%nat "bob" 2592001));
     OpComplete 4000 9%nat 2%nat]
    [OpComplete 5000 9%nat 0%nat;
     OpMessage 6000 2%nat (Cmd.update_score 9%nat 0%nat 120 None)]
    9%nat) as (arena' & H1 & H2 & H3 & H4).
  - vm_compute. reflexivity.
  - reflexivity.
  - exists arena'. split; [exact H1|]. split; [exact H2|].
    split; [exact H3|exact H4].
Defined.

(** ** User names and e-mail addresses stay unique *)

#[local] Instance unique_step_preorder : PreOrder unique_step.
Proof. split; [by intros w H|intros w1 w2 w3 H1 H2 H; by apply H2, H1]. Qed.

Lemma unique_step_same_core w w' : same_core w w' -> unique_step w w'.
Proof. intros (Hu & _) H. by rewrite Hu. Qed.

Lemma unique_step_other (f : World.t -> World.t) w :
  World.users (f w) = World.users w -> unique_step w (f w).
Proof. intros Hu H. by rewrite Hu. Qed.

(** A write to a user document that leaves name and address alone. *)
Lemma unique_step_user uid (g : User.t -> User.t) w :
  (forall u, User.username (g u) = User.username u
             /\ User.email (g u) = User.email u) ->
  unique_step w (World.set_users (alter g uid (World.users w)) w).
Proof.
  intros Hg H i j u v. wsimpl_goal. rewrite !lookup_alter.
  intros Hi Hj.
  assert (Hi' : exists u0, World.users w !! i = Some u0
                 /\ User.username u = User.username u0
                 /\ User.email u = User.email u0).
  { destruct (decide (uid = i)) as [->|]; [|by exists u].
    destruct (World.users w !! i) as [u0|]; [|done].
    injection Hi as <-. exists u0. destruct (Hg u0). done. }
  assert (Hj' : exists v0, World.users w !! j = Some v0
                 /\ User.username v = User.username v0
                 /\ User.email v = User.email v0).
  { destruct (decide (uid = j)) as [->|]; [|by exists v].
    destruct (World.users w !! j) as [v0|]; [|done].
    injection Hj as <-. exists v0. destruct (Hg v0). done. }
  destruct Hi' as (u0 & Hu0 & -> & ->). destruct Hj' as (v0 & Hv0 & -> & ->).
  by apply H.
Qed.

(** A new user whose name and address no stored user has. *)
Lemma unique_users_insert uid u us :
  List.find (fun kv : nat * User.t =>
               bool_decide (User.username kv.2 = User.username u)
               || bool_decide (User.email kv.2 = User.email u))
            (map_to_list us) = None ->
  unique_users us -> unique_users (<[uid := u]> us).
Proof.
  intros Hf H.
  assert (Hnew : forall k v, us !! k = Some v ->
            User.username v <> User.username u /\ User.email v <> User.email u).
  { intros k v Hk.
    pose proof (find_none _ _ Hf (k, v)) as Hp. cbn in Hp.
    rewrite orb_false_iff, !bool_decide_eq_false in Hp. apply Hp.
    apply list_elem_of_In. by apply elem_of_map_to_list. }
  intros i j x y. rewrite !lookup_insert.
  destruct (decide (uid = i)) as [Hi|Hi], (decide (uid = j)) as [Hj|Hj];
    try congruence.
  - intros [= <-] Hy [E|E]; destruct (Hnew _ _ Hy); congruence.
  - intros Hx [= <-] [E|E]; destruct (Hnew _ _ Hx); congruence.
  - apply H.
Qed.

Ltac unique_leaf :=
  first [ apply unique_step_other; reflexivity
        | apply unique_step_user; intros ?; split; reflexivity ].

Ltac unique_stp := respects_shape unique_step_same_core unique_leaf.

Ltac unique_tac := repeat unique_stp.

Lemma register_keeps_unique now b w :
  unique_users (World.users w) ->
  unique_users (World.users (register now b w).2).
Proof.
  intros Hok. destruct (register now b w) as [r w'] eqn:Hr.
  cbn [snd]. unfold register in Hr. rewrite run_route in Hr.
  unfold User_insert, User_findOne, Transaction_save, User_new in Hr.
  cbv zeta in Hr.
  do 4 (mcase Hr; [mstop Hr|]).
  mcase Hr.
  { destruct p. mcase Hr; mstop Hr. }
  do 4 (mcase Hr;
        [cbv [json ret throw bind deref] in Hr; inversion Hr; subst;
         exact Hok|]).
  repeat mstep Hr. rewrite run_json in Hr. inversion Hr; subst; clear Hr.
  wsimpl_goal. apply unique_users_insert; [|exact Hok].
  match goal with H : find _ _ = None |- _ => exact H end.
Qed.

Lemma Arena_updateOne_keeps_unique arenaId playerId doc :
  respects unique_step (Arena_updateOne arenaId playerId doc).
Proof.
  intros w H. unfold Arena_updateOne, modify. cbn [snd].
  destruct (World.arenas w !! arenaId); [|done].
  destruct (player_index _ _); done.
Qed.

Lemma perform_keeps_unique op w :
  unique_users (World.users w) -> unique_users (World.users (perform op w)).
Proof.
  destruct op; cbn [perform].
  - apply register_keeps_unique.
  - unfold createChart. apply (respects_route unique_step).
    unfold User_findById, User_save, Transaction_save, Chart_insert,
      User_findByIdAndUpdate, json. cbv zeta. unique_tac.
  - unfold joinChart. apply (respects_route unique_step).
    unfold Chart_findById, User_findById, User_save, Chart_save,
      Transaction_save, Notification_save, json. cbv zeta. unique_tac.
  - unfold donate. apply (respects_route unique_step).
    unfold User_findById, Chart_findById, User_save, Chart_save,
      Transaction_save, Donation_insert, Notification_save, json.
    cbv zeta. unique_tac.
  - unfold depositRoute. apply (respects_route unique_step).
    unfold User_findById, User_save, Transaction_save, json. cbv zeta.
    unique_tac.
  - unfold completeRoute. apply (respects_route unique_step).
    unfold completeArena, Arena_findById, Chart_findById, User_findById,
      Arena_save, Chart_save, User_save, Transaction_save, Notification_save,
      json. unique_tac.
  - done.
  - intros Hok. unfold ws_message. destruct (World.sockets w !! h); [|done].
    match goal with |- unique_users (World.users (snd (?m w))) =>
      assert (Hk : respects unique_step m); [|exact (Hk w Hok)] end.
    unfold completeArena, jwt_verify, Socket_update, User_findByIdAndUpdate,
      Arena_findByIdAndUpdate, Arena_findById, User_findById, leave_arenas,
      Chart_findById, Arena_save, Chart_save, User_save, Transaction_save,
      Notification_save.
    repeat first [ apply Arena_updateOne_keeps_unique | unique_stp ].
  - intros Hok. unfold ws_close. destruct (World.sockets w !! h); [|done].
    match goal with |- unique_users (World.users (snd (?m w))) =>
      assert (Hk : respects unique_step m); [|exact (Hk w Hok)] end.
    unfold Socket_update, User_findByIdAndUpdate, Arena_findByIdAndUpdate,
      leave_arenas.
    unique_tac.
Qed.

(** X11. After every sequence of operations from the empty store no two stored
    users share a user name or an e-mail address. *)
Theorem usernames_and_emails_unique ops i j u v :
  let w := perform_all ops World.init in
  World.users w !! i = Some u ->
  World.users w !! j = Some v ->
  User.username u = User.username v \/ User.email u = User.email v ->
  i = j.
Proof.
  cbv zeta.
  assert (H : forall w, unique_users (World.users w) ->
                        unique_users (World.users (perform_all ops w))).
  { unfold perform_all.
    induction ops as [|op ops IH]; intros w Hok; cbn [foldl]; [done|].
    by apply IH, perform_keeps_unique. }
  apply H. intros ? ? ? ? Hl. cbn in Hl. by rewrite lookup_empty in Hl.
Qed.

Lemma usernames_and_emails_unique_witness :
  World.users w_users !! 2%nat
  = Some (User.mk "bob" "bob@thumbs.io" (Bcrypt "secret2" 12) "Bobby"
                  0 0 100 0 0 User.offline 1000)
  /\ 2%nat = 2%nat.
Proof.
  assert (H : World.users w_users !! 2%nat
              = Some (User.mk "bob" "bob@thumbs.io" (Bcrypt "secret2" 12)
                              "Bobby" 0 0 100 0 0 User.offline 1000))
    by (vm_compute; reflexivity).
  split; [exact H|].
  apply (usernames_and_emails_unique
           [OpRegister 1000 alice_body; OpRegister 1000 bob_body;
            OpRegister 1000 carol_body;
            OpRegister 1500 (mkRegisterBody (Some "bobby")
                               (Some "BOB@thumbs.io") (Some "secret9") None)]
           2%nat 2%nat
           (User.mk "bob" "bob@thumbs.io" (Bcrypt "secret2" 12) "Bobby"
                    0 0 100 0 0 User.offline 1000)
           (User.mk "bob" "bob@thumbs.io" (Bcrypt "secret2" 12) "Bobby"
                    0 0 100 0 0 User.offline 1000)).
  - vm_compute. reflexivity.
  - vm_compute. reflexivity.
  - by left.
Defined.

(** ** The ledger is only ever added to *)

#[local] Instance records_grow_preorder : PreOrder records_grow.
Proof.
  split.
  - intros w. split; reflexivity.
  - intros w1 w2 w3 [H1 H2] [H3 H4]. split; etrans; eassumption.
Qed.

Lemma records_grow_same_core w w' : same_core w w' -> records_grow w w'.
Proof. intros (_ & _ & _ & Hd & Ht & _). unfold records_grow. by rewrite Hd, Ht. Qed.

Lemma records_grow_other (f : World.t -> World.t) w :
  World.transactions (f w) = World.transactions w ->
  World.donations (f w) = World.donations w ->
  records_grow w (f w).
Proof. intros Ht Hd. unfold records_grow. by rewrite Ht, Hd. Qed.

Lemma records_grow_transaction tx w :
  records_grow w
    (World.set_transactions (World.transactions w ++ [tx]) w).
Proof. split; [apply prefix_app_r|]; reflexivity. Qed.

Lemma records_grow_donation d w :
  records_grow w (World.set_donations (World.donations w ++ [d]) w).
Proof. split; [|apply prefix_app_r]; reflexivity. Qed.

Ltac records_leaf :=
  first [ apply records_grow_other; reflexivity
        | apply records_grow_transaction
        | apply records_grow_donation ].

Ltac records_stp := respects_shape records_grow_same_core records_leaf.

Lemma Arena_updateOne_keeps_records arenaId playerId doc :
  respects records_grow (Arena_updateOne arenaId playerId doc).
Proof.
  intros w. unfold Arena_updateOne, modify. cbn [snd].
  destruct (World.arenas w !! arenaId); [|reflexivity].
  destruct (player_index _ _); [|reflexivity].
  by apply records_grow_other.
Qed.

Lemma perform_grows_records op w : records_grow w (perform op w).
Proof.
  destruct op; cbn [perform].
  - unfold register. apply (respects_route records_grow).
    unfold User_insert, User_findOne, Transaction_save, json.
    repeat records_stp.
  - unfold createChart. apply (respects_route records_grow).
    unfold User_findById, User_save, Transaction_save, Chart_insert,
      User_findByIdAndUpdate, json. cbv zeta. repeat records_stp.
  - unfold joinChart. apply (respects_route records_grow).
    unfold Chart_findById, User_findById, User_save, Chart_save,
      Transaction_save, Notification_save, json. cbv zeta.
    repeat records_stp.
  - unfold donate. apply (respects_route records_grow).
    unfold User_findById, Chart_findById, User_save, Chart_save,
      Transaction_save, Donation_insert, Notification_save, json.
    cbv zeta. repeat records_stp.
  - unfold depositRoute. apply (respects_route records_grow).
    unfold User_findById, User_save, Transaction_save, json. cbv zeta.
    repeat records_stp.
  - unfold completeRoute. apply (respects_route records_grow).
    unfold completeArena, Arena_findById, Chart_findById, User_findById,
      Arena_save, Chart_save, User_save, Transaction_save, Notification_save,
      json. repeat records_stp.
  - by apply records_grow_other.
  - unfold ws_message. destruct (World.sockets w !! h); [|reflexivity].
    match goal with |- records_grow w (snd (?m w)) =>
      assert (Hk : respects records_grow m); [|exact (Hk w)] end.
    unfold completeArena, jwt_verify, Socket_update, User_findByIdAndUpdate,
      Arena_findByIdAndUpdate, Arena_findById, User_findById, leave_arenas,
      Chart_findById, Arena_save, Chart_save, User_save, Transaction_save,
      Notification_save.
    repeat first [ apply Arena_updateOne_keeps_records | records_stp ].
  - unfold ws_close. destruct (World.sockets w !! h); [|reflexivity].
    match goal with |- records_grow w (snd (?m w)) =>
      assert (Hk : respects records_grow m); [|exact (Hk w)] end.
    unfold Socket_update, User_findByIdAndUpdate, Arena_findByIdAndUpdate,
      leave_arenas.
    repeat records_stp.
Qed.

(** X12. The ledger and the donation records are append-only: whatever
    operations are performed, from any world, the ledger entries and donation
    records that existed before are still there afterwards, unchanged and in
    the same order, at the front of the lists. *)
Theorem ledger_is_append_only ops w :
  World.transactions w `prefix_of` World.transactions (perform_all ops w)
  /\ World.donations w `prefix_of` World.donations (perform_all ops w).
Proof.
  change (records_grow w (perform_all ops w)).
  unfold perform_all. revert w.
  induction ops as [|op ops IH]; intros w; cbn [foldl]; [reflexivity|].
  etrans; [apply perform_grows_records|apply IH].
Qed.

(** ** Fan-out to all clients *)

Lemma broadcastToAll_run message excludeUserId w :
  broadcastToAll message excludeUserId w
  = (Val tt,
     World.set_outbox
       (World.outbox w
        ++ map (fun uc => (Client.ws uc.2, message)) (reached excludeUserId w))
       w).
Proof.
  unfold broadcastToAll, reached. rewrite run_bind_gets.
  generalize (World.connectedClients w) as cs. intros cs. revert w.
  induction cs as [|[u c] cs IH]; intros w; cbn [for_of List.filter].
  - cbn. rewrite app_nil_r. by destruct w.
  - rewrite run_bind_bind, run_bind_gets.
    destruct (World.sockets w !! Client.ws c) as [so|] eqn:Hso.
    + destruct (negb (bool_decide (Some u = excludeUserId))
                && bool_decide (Socket.readyState so = OPEN)).
      * cbn [when]. unfold send at 1. rewrite run_bind_modify.
        rewrite IH. wsimpl_goal. cbn [map]. rewrite <- app_assoc.
        by destruct w.
      * cbn [when]. rewrite run_bind_ret. apply IH.
    + rewrite run_bind_ret. apply IH.
Qed.

(** X13. [broadcastToAll] never throws and changes nothing but the outbox.  A
    socket receives the message (and nothing else) exactly if it is the
    registered socket of some user other than the excluded one and is open;
    one message is sent per such registration. *)
Theorem broadcastToAll_reaches_open_others message excludeUserId w :
  exists sent,
    broadcastToAll message excludeUserId w
    = (Val tt, World.set_outbox (World.outbox w ++ sent) w)
    /\ length sent = length (reached excludeUserId w)
    /\ forall h m,
         (h, m) ∈ sent <->
         m = message
         /\ exists userId client so,
              (userId, client) ∈ World.connectedClients w
              /\ Client.ws client = h
              /\ Some userId <> excludeUserId
              /\ World.sockets w !! h = Some so
              /\ Socket.readyState so = OPEN.
Proof.
  eexists. split; [apply broadcastToAll_run|]. split; [by rewrite length_map|].
  intros h m. rewrite list_elem_of_fmap. unfold reached. split.
  - intros ([u c] & [= -> ->] & Hin). split; [done|].
    apply list_elem_of_In, filter_In in Hin. destruct Hin as [Hin Hp].
    apply list_elem_of_In in Hin. cbn [snd].
    destruct (World.sockets w !! Client.ws c) as [so|] eqn:Hso; [|done].
    apply andb_true_iff in Hp. destruct Hp as [Hp1 Hp2].
    apply negb_true_iff, bool_decide_eq_false in Hp1.
    apply bool_decide_eq_true in Hp2.
    by exists u, c, so.
  - intros (-> & u & c & so & Hin & <- & Hne & Hso & Hopen).
    exists (u, c). split; [done|].
    apply list_elem_of_In, filter_In. split; [by apply list_elem_of_In|].
    rewrite Hso. apply andb_true_iff. split.
    + by apply negb_true_iff, bool_decide_eq_false.
    + by apply bool_decide_eq_true.
Qed.

(** ** Tokens *)

(** The token that a successful registration returns. *)
Lemma register_token now b w token id user w1 :
  register now b w = (mkResponse 201 (JsonRegistered token id user), w1) ->
  token = Jwt id (User.username user) (now / 1000 + 2592000).
Proof.
  intros Hr. unfold register in Hr. rewrite run_route in Hr.
  unfold User_insert, User_findOne, Transaction_save, User_new in Hr.
  cbv zeta in Hr.
  do 4 (mcase Hr; [mfail Hr|]).
  mcase Hr.
  { destruct p. mcase Hr; mfail Hr. }
  do 4 (mcase Hr; [mfail Hr|]).
  repeat mstep Hr. rewrite run_json in Hr. inversion Hr; subst; clear Hr.
  reflexivity.
Qed.

(** A token that [jwt.verify] refuses: the socket is told so and nothing
    else happens. *)
Lemma ws_auth_rejected now h token so w :
  World.sockets w !! h = Some so ->
  (forall id name exp, token = Jwt id name exp -> exp <= now / 1000) ->
  ws_message now h (Cmd.auth token) w
  = World.set_outbox
      (World.outbox w ++ [(h, Msg.auth_error "Invalid token" now)]) w.
Proof.
  intros Hso Hbad. unfold ws_message. rewrite Hso.
  rewrite !run_try_catch. unfold jwt_verify.
  destruct token as [id name exp|raw].
  - replace (exp <=? now / 1000) with true
      by (symmetry; apply Z.leb_le; eauto).
    reflexivity.
  - reflexivity.
Qed.

(** X14. The token that a successful registration returns authenticates a
    socket as the new user (and registers the socket for that user) at any
    time up to 30 days minus one second after the registration, in whatever
    world; from 30 days on it is refused: the socket is sent [auth_error] and
    nothing else changes. *)
Theorem registered_token_lifetime now b w token id user w1 now' h w2 :
  register now b w = (mkResponse 201 (JsonRegistered token id user), w1) ->
  is_Some (World.sockets w2 !! h) ->
  let w' := ws_message now' h (Cmd.auth token) w2 in
  (now' <= now + 2591999000 ->
   lookup_client id w' = Some h
   /\ Socket.userId <$> World.sockets w' !! h = Some (Some id))
  /\ (now + 2592000000 <= now' ->
      w' = World.set_outbox
             (World.outbox w2 ++ [(h, Msg.auth_error "Invalid token" now')])
             w2).
Proof.
  intros Hr Hso. apply register_token in Hr. subst token. cbv zeta. split.
  - intros Hn.
    destruct (ws_auth_registers now' h id (User.username user)
                (now / 1000 + 2592000) w2 Hso) as (H1 & H2 & _); [|done].
    assert (now' / 1000 <= (now + 2591999 * 1000) / 1000)
      by (apply Z.div_le_mono; lia).
    rewrite Z.div_add in H by lia. lia.
  - intros Hn. destruct Hso as [so Hso].
    apply (ws_auth_rejected now' h _ so w2 Hso).
    intros ? ? ? [= <- <- <-].
    assert ((now + 2592000 * 1000) / 1000 <= now' / 1000)
      by (apply Z.div_le_mono; lia).
    rewrite Z.div_add in H by lia. lia.
Qed.

Lemma registered_token_lifetime_witness :
  let token := Jwt 0%nat "alice" (1000 / 1000 + 30 * 24 * 3600) in
  let late := ws_message 2592001000 1%nat (Cmd.auth token)
                (ws_connection 1%nat w_users) in
  let w' := ws_message 5000 1%nat (Cmd.auth token)
              (ws_connection 1%nat w_users) in
  lookup_client 0%nat w' = Some 1%nat
  /\ Socket.userId <$> World.sockets w' !! 1%nat = Some (Some 0%nat)
  /\ late = World.set_outbox
              (World.outbox (ws_connection 1%nat w_users)
               ++ [(1%nat, Msg.auth_error "Invalid token" 2592001000)])
              (ws_connection 1%nat w_users).
Proof.
  cbv zeta.
  assert (Hr : register 1000 alice_body World.init
               = (mkResponse 201
                    (JsonRegistered
                       (Jwt 0%nat "alice" (1000 / 1000 + 30 * 24 * 3600))
                       0%nat
                       (User.mk "alice" "alice@thumbs.io"
                          (Bcrypt "secret1" 12) "alice" 0 0 100 0 0
                          User.offline 1000)),
                  (register 1000 alice_body World.init).2))
    by (vm_compute; reflexivity).
  assert (Hso : is_Some (World.sockets (ws_connection 1%nat w_users) !! 1%nat))
    by (vm_compute; by eexists).
  split; [|split].
  - apply (proj1 (registered_token_lifetime _ _ _ _ _ _ _ 5000 1%nat _ Hr Hso)).
    lia.
  - apply (proj1 (registered_token_lifetime _ _ _ _ _ _ _ 5000 1%nat _ Hr Hso)).
    lia.
  - apply (proj2 (registered_token_lifetime _ _ _ _ _ _ _ 2592001000 1%nat _
                    Hr Hso)).
    lia.
Defined.

(** ** Who may report a score *)

Lemma existsb_player uid (ps : list Arena.Player) :
  existsb (fun p => bool_decide (Arena.user p = uid)) ps = true
  <-> uid ∈ map Arena.user ps.
Proof.
  rewrite existsb_exists. split.
  - intros (p & Hin & Hp). apply bool_decide_eq_true in Hp. subst uid.
    apply list_elem_of_In, in_map, Hin.
  - intros Hin. apply list_elem_of_In, in_map_iff in Hin.
    destruct Hin as (p & Hp & Hin). exists p. split; [done|].
    by apply bool_decide_eq_true.
Qed.

(** X15. A score report from a socket that is not authenticated, for an arena
    that does not exist, or from a user who is not one of the arena's players
    (a spectator, say) is ignored: the world, outbox included, stays as it
    was. *)
Theorem update_score_needs_a_player now h ws arenaId playerId score moves w :
  World.sockets w !! h = Some ws ->
  (forall userId arena,
     Socket.userId ws = Some userId ->
     World.arenas w !! arenaId = Some arena ->
     userId ∉ map Arena.user (Arena.players arena)) ->
  ws_message now h (Cmd.update_score arenaId playerId score moves) w = w.
Proof.
  intros Hso Hno. unfold ws_message. rewrite Hso. rewrite run_try_catch.
  destruct (Socket.userId ws) as [userId|]; [|reflexivity].
  unfold Arena_findById. rewrite run_bind_gets.
  destruct (World.arenas w !! arenaId) as [arena|]; [|reflexivity].
  destruct (existsb _ _) eqn:E; [|reflexivity].
  apply existsb_player in E. by destruct (Hno userId arena).
Qed.

Lemma update_score_needs_a_player_witness :
  ws_message 6000 1%nat (Cmd.update_score 9%nat 4%nat 120 None) w_live
  = w_live.
Proof.
  apply (update_score_needs_a_player 6000 1%nat
           (Socket.mk (Some 4%nat) [] OPEN)).
  - vm_compute. reflexivity.
  - intros userId arena [= <-] Ha. vm_compute in Ha.
    injection Ha as <-. cbn.
    rewrite !elem_of_cons. intros [?|[?|?%elem_of_nil]]; [done|done|done].
Defined.

(** A settlement of an arena that is not finished, whose chart and winner
    are stored, returns a result. *)
Lemma completeArena_runs now a wid w arena chart winner :
  World.arenas w !! a = Some arena ->
  Arena.status arena <> Arena.finished ->
  World.charts w !! Arena.chart arena = Some chart ->
  World.users w !! wid = Some winner ->
  exists res w', completeArena now a wid w = (Val (Some res), w').
Proof.
  intros Ha Hs Hc Hw.
  destruct (completeArena now a wid w) as [r w'] eqn:Hr.
  unfold completeArena in Hr. rewrite run_try_catch in Hr.
  unfold Arena_findById, Chart_findById, User_findById, Arena_save, Chart_save,
    User_save, Transaction_save in Hr.
  mstep Hr. rewrite Ha in Hr.
  rewrite (bool_decide_eq_false_2 _ Hs) in Hr.
  repeat mstep Hr. rewrite Hc in Hr.
  repeat mstep Hr. rewrite Hw in Hr.
  repeat mstep Hr.
  mquiet Hr w1 S1. mquiet Hr w2 S2.
  rewrite run_ret in Hr. inversion Hr; subst. by eexists _, _.
Qed.

(** X16. A score report of 100 or more, sent by any player of an unfinished
    arena whose chart is stored, settles the arena for the reported
    [playerId], whoever that stored user is (the sender, the opponent, or
    somebody who does not play): the arena is finished with that user as
    winner, and that user's balance grows by the entry fee times the number
    of participants. *)
Theorem score_report_settles_for_reported_player
    now h ws userId arenaId playerId score moves w arena chart winner :
  World.sockets w !! h = Some ws ->
  Socket.userId ws = Some userId ->
  World.arenas w !! arenaId = Some arena ->
  userId ∈ map Arena.user (Arena.players arena) ->
  Arena.status arena <> Arena.finished ->
  World.charts w !! Arena.chart arena = Some chart ->
  World.users w !! playerId = Some winner ->
  100 <= score ->
  let w' := ws_message now h (Cmd.update_score arenaId playerId score moves)
                       w in
  (fun a => (Arena.status a, Arena.winner a)) <$> World.arenas w' !! arenaId
  = Some (Arena.finished, Some playerId)
  /\ balance_of playerId w'
     = Some (User.balance winner
             + Chart.entryFee chart
               * Z.of_nat (length (Chart.participants chart))).
Proof.
  intros Hso Hu Ha Hin Hs Hc Hw Hscore. cbv zeta.
  unfold ws_message. rewrite Hso, Hu.
  match goal with |- context [try_catch ?b ?c w] =>
    destruct (try_catch b c w) as [o w'] eqn:Hr end.
  cbn [snd]. rewrite run_try_catch in Hr.
  unfold Arena_findById in Hr. mstep Hr. rewrite Ha in Hr.
  apply existsb_player in Hin. rewrite Hin in Hr.
  assert (Hup : exists W arena1,
    Arena_updateOne arenaId playerId (score_update_doc now score moves) w
    = (Val tt, W)
    /\ World.arenas W !! arenaId = Some arena1
    /\ Arena.status arena1 = Arena.status arena
    /\ Arena.chart arena1 = Arena.chart arena
    /\ World.charts W = World.charts w /\ World.users W = World.users w).
  { unfold Arena_updateOne, modify. rewrite score_update_doc_drops_score.
    rewrite Ha. destruct (player_index playerId (Arena.players arena)).
    - eexists _, _. split; [reflexivity|]. wsimpl_goal.
      rewrite lookup_insert_eq. by repeat split.
    - eexists _, _. split; [reflexivity|]. by repeat split. }
  destruct Hup as (W & arena1 & HW & Ha1 & Hs1 & Hc1 & HcW & HuW).
  rewrite run_bind, HW in Hr.
  mquiet Hr w1 S1. cbv beta in Hr.
  destruct S1 as (Su1 & Sc1 & Sa1 & _).
  mstep Hr. rewrite Sa1, Ha1 in Hr. repeat mstep Hr.
  unfold winScore in Hr.
  replace (100 <=? score) with true in Hr by (symmetry; apply Z.leb_le; lia).
  destruct (completeArena_runs now arenaId playerId w1 arena1 chart winner)
    as (res & w2 & Hrun).
  { by rewrite Sa1. } { by rewrite Hs1. }
  { by rewrite Sc1, HcW, Hc1. } { by rewrite Su1, HuW. }
  rewrite run_bind, Hrun in Hr. cbv beta iota in Hr. rewrite run_ret in Hr.
  inversion Hr; subst; clear Hr.
  apply completeArena_settles in Hrun.
  destruct Hrun as (arena2 & chart2 & winner2 & mid & Ha2 & _ & Hc2 & Hw2
                    & Hres & Hsame & Hmid).
  rewrite Sa1, Ha1 in Ha2. injection Ha2 as <-.
  rewrite Sc1, HcW, Hc1, Hc in Hc2. injection Hc2 as <-.
  rewrite Su1, HuW, Hw in Hw2. injection Hw2 as <-.
  destruct Hsame as (Su2 & _ & Sa2 & _).
  unfold balance_of. rewrite Su2, Sa2, Hmid. wsimpl_goal.
  rewrite !lookup_alter_eq, Sa1, Ha1, Su1, HuW, Hw. split; reflexivity.
Qed.

Lemma score_report_settles_for_reported_player_witness :
  let w' := ws_message 6000 2%nat (Cmd.update_score 9%nat 4%nat 120 None)
                       w_live in
  (fun a => (Arena.status a, Arena.winner a)) <$> World.arenas w' !! 9%nat
  = Some (Arena.finished, Some 4%nat)
  /\ balance_of 4%nat w' = Some (100 + 20 * 2).
Proof.
  edestruct (score_report_settles_for_reported_player 6000 2%nat
               (Socket.mk (Some 2%nat) [] OPEN) 2%nat 9%nat 4%nat 120 None
               w_live) as [H1 H2].
  - vm_compute. reflexivity.
  - reflexivity.
  - vm_compute. reflexivity.
  - apply (bool_decide_unpack _). vm_compute. exact I.
  - discriminate.
  - vm_compute. reflexivity.
  - vm_compute. reflexivity.
  - lia.
  - split; [exact H1|exact H2].
Defined.

(** ** Leaving arenas *)

(** The loop over the arenas of a socket: one [$pull] per arena, and
    nothing else in the core of the world. *)
Lemma leave_arenas_run now u l w :
  exists w',
    leave_arenas now u l w = (Val tt, w')
    /\ World.arenas w'
       = foldl (fun m a => alter (pull_spectators u) a m) (World.arenas w) l
    /\ World.users w' = World.users w
    /\ World.charts w' = World.charts w
    /\ World.transactions w' = World.transactions w
    /\ World.donations w' = World.donations w
    /\ World.connectedClients w' = World.connectedClients w
    /\ World.sockets w' = World.sockets w.
Proof.
  unfold leave_arenas. revert w.
  induction l as [|a l IH]; intros w; cbn [for_of foldl].
  - eexists. split; [reflexivity|]. by repeat split.
  - rewrite run_bind.
    destruct ((Arena_findByIdAndUpdate a (pull_spectators u);;;
               broadcastToArena a (Msg.spectator_left u a now) None) w)
      as [o w1] eqn:Hr.
    unfold Arena_findByIdAndUpdate in Hr. mstep Hr.
    apply quiet_run in Hr; [|apply quiet_broadcastToArena].
    destruct Hr as [[[] ->] (Su & Sc & Sa & Sd & St & Scl & Sso & _)].
    wsimpl Su. wsimpl Sc. wsimpl Sa. wsimpl Sd. wsimpl St. wsimpl Scl.
    wsimpl Sso.
    destruct (IH w1) as (w' & Hrun & Ha & Hu & Hc & Ht & Hd & Hcl & Hso).
    exists w'. split; [exact Hrun|].
    rewrite Ha, Hu, Hc, Ht, Hd, Hcl, Hso, Sa, Su, Sc, Sd, St, Scl, Sso.
    by repeat split.
Qed.

Lemma pull_spectators_gone u a :
  u ∉ map Arena.suser (Arena.spectators (pull_spectators u a)).
Proof.
  unfold pull_spectators. cbn. intros Hin.
  apply list_elem_of_In, in_map_iff in Hin. destruct Hin as (sp & <- & Hin).
  apply filter_In in Hin. destruct Hin as [_ Hin].
  apply negb_true_iff, bool_decide_eq_false in Hin. done.
Qed.

Lemma pull_spectators_idem u a :
  pull_spectators u (pull_spectators u a) = pull_spectators u a.
Proof.
  unfold pull_spectators, Arena.set_spectators.
  destruct a as [c ps st sps sa ea wi ua]. cbn. f_equal.
  induction sps as [|sp l IH]; cbn; [done|].
  destruct (negb (bool_decide (Arena.suser sp = u))) eqn:E; cbn.
  - by rewrite E, IH.
  - exact IH.
Qed.

(** The arenas after the pulls. *)
Lemma pulled_lookup u l (m : gmap nat Arena.t) a :
  foldl (fun m a => alter (pull_spectators u) a m) m l !! a
  = if bool_decide (a ∈ l) then pull_spectators u <$> m !! a else m !! a.
Proof.
  revert m. induction l as [|b l IH]; intros m; cbn [foldl].
  - by rewrite bool_decide_eq_false_2 by apply not_elem_of_nil.
  - rewrite IH. rewrite lookup_alter.
    destruct (decide (b = a)) as [->|Hne].
    + rewrite (bool_decide_eq_true_2 (a ∈ a :: l)) by (by left).
      case_bool_decide; [|done].
      destruct (m !! a); cbn; [|done]. by rewrite pull_spectators_idem.
    + case_bool_decide as Hin.
      * by rewrite bool_decide_eq_true_2 by (by right).
      * rewrite bool_decide_eq_false_2; [done|].
        intros [?|?]%elem_of_cons; congruence.
Qed.

(** X17. [leave_arena] names no arena on the server side: the user is removed
    from the spectators of every arena that was joined on this socket, the
    other arenas are untouched, the socket's set of arenas is emptied, and
    users and registry stay as they were. *)
Theorem leave_arena_leaves_every_arena now h ws userId w :
  World.sockets w !! h = Some ws ->
  Socket.userId ws = Some userId ->
  let w' := ws_message now h Cmd.leave_arena w in
  (forall a, a ∈ Socket.arenas ws ->
     World.arenas w' !! a = pull_spectators userId <$> World.arenas w !! a)
  /\ (forall a arena, a ∈ Socket.arenas ws ->
        World.arenas w' !! a = Some arena ->
        userId ∉ map Arena.suser (Arena.spectators arena))
  /\ (forall a, a ∉ Socket.arenas ws ->
        World.arenas w' !! a = World.arenas w !! a)
  /\ World.sockets w' = <[h := Socket.mk (Some userId) [] (Socket.readyState ws)]>
                          (World.sockets w)
  /\ World.users w' = World.users w
  /\ World.connectedClients w' = World.connectedClients w.
Proof.
  intros Hso Hu. cbv zeta. unfold ws_message. rewrite Hso, Hu.
  rewrite run_try_catch, run_bind.
  destruct (leave_arenas_run now userId (Socket.arenas ws) w)
    as (w1 & Hrun & Ha & Hus & _ & _ & _ & Hcl & Hsk).
  rewrite Hrun. unfold Socket_update, modify. cbn [snd]. wsimpl_goal.
  rewrite Ha, Hus, Hcl, Hsk.
  assert (Hl : forall a, a ∈ Socket.arenas ws ->
            foldl (fun m a => alter (pull_spectators userId) a m)
                  (World.arenas w) (Socket.arenas ws) !! a
            = pull_spectators userId <$> World.arenas w !! a).
  { intros a Hin. rewrite pulled_lookup. by rewrite bool_decide_eq_true_2. }
  split; [exact Hl|]. split.
  { intros a arena Hin. rewrite (Hl a Hin).
    destruct (World.arenas w !! a) as [x|]; [|done].
    intros [= <-]. apply pull_spectators_gone. }
  split.
  { intros a Hin. rewrite pulled_lookup. by rewrite bool_decide_eq_false_2. }
  split; [|done].
  apply map_eq. intros k. rewrite lookup_alter, lookup_insert.
  destruct (decide (h = k)) as [->|]; [|done]. rewrite Hso. cbn.
  by rewrite Hu.
Qed.

Lemma leave_arena_leaves_every_arena_witness :
  let w' := ws_message 8000 1%nat Cmd.leave_arena w_watching in
  (forall a, a ∈ [9%nat] ->
     World.arenas w' !! a
     = pull_spectators 4%nat <$> World.arenas w_watching !! a)
  /\ (forall a arena, a ∈ [9%nat] ->
        World.arenas w' !! a = Some arena ->
        4%nat ∉ map Arena.suser (Arena.spectators arena))
  /\ (forall a, a ∉ [9%nat] ->
        World.arenas w' !! a = World.arenas w_watching !! a)
  /\ World.sockets w' = <[1%nat := Socket.mk (Some 4%nat) [] OPEN]>
                          (World.sockets w_watching)
  /\ World.users w' = World.users w_watching
  /\ World.connectedClients w' = World.connectedClients w_watching.
Proof.
  apply (leave_arena_leaves_every_arena 8000 1%nat
           (Socket.mk (Some 4%nat) [9%nat] OPEN) 4%nat w_watching).
  - vm_compute. reflexivity.
  - reflexivity.
Defined.

(** What [join_arena] does to the socket: the arena joins the socket's
    set. *)
Lemma join_arena_sockets now h arenaId userId ws w :
  World.sockets w !! h = Some ws ->
  Socket.userId ws = Some userId ->
  World.sockets (ws_message now h (Cmd.join_arena arenaId) w) !! h
  = Some (Socket.mk (Some userId) (Js.set_add arenaId (Socket.arenas ws))
                    (Socket.readyState ws)).
Proof.
  intros Hso Hu. unfold ws_message. rewrite Hso, Hu.
  match goal with |- context [snd (?m w)] =>
    destruct (m w) as [o w'] eqn:Hr end.
  cbn [snd]. rewrite run_try_catch in Hr.
  unfold Socket_update, Arena_findByIdAndUpdate, User_findById, send in Hr.
  repeat mstep Hr. mquiet Hr w1 S1. repeat mstep Hr.
  destruct S1 as (_ & _ & _ & _ & _ & _ & Ss & _). wsimpl Ss.
  inversion Hr; subst; clear Hr. wsimpl_goal. rewrite Ss.
  rewrite lookup_alter_eq, Hso. cbn. by rewrite Hu.
Qed.

(** X18. Round trip: a user who is not yet a spectator of an arena joins it as
    spectator and then leaves; the join adds one spectator entry and the leave
    restores the stored arena to exactly what it was. *)
Theorem join_then_leave_restores_arena t1 t2 h ws userId arenaId w arena :
  World.sockets w !! h = Some ws ->
  Socket.userId ws = Some userId ->
  World.arenas w !! arenaId = Some arena ->
  userId ∉ map Arena.suser (Arena.spectators arena) ->
  let w1 := ws_message t1 h (Cmd.join_arena arenaId) w in
  let w2 := ws_message t2 h Cmd.leave_arena w1 in
  Arena.spectators <$> World.arenas w1 !! arenaId
  = Some (Arena.spectators arena ++ [Arena.mkS userId t1])
  /\ World.arenas w2 !! arenaId = Some arena.
Proof.
  intros Hso Hu Ha Hnot. cbv zeta.
  pose proof (join_arena_arenas t1 h arenaId userId ws w Hso Hu) as Ha1.
  pose proof (join_arena_sockets t1 h arenaId userId ws w Hso Hu) as Hs1.
  set (w1 := ws_message t1 h (Cmd.join_arena arenaId) w) in *.
  assert (Hadd : addToSet_spectators (Arena.mkS userId t1) arena
                 = Arena.set_spectators
                     (Arena.spectators arena ++ [Arena.mkS userId t1]) arena).
  { unfold addToSet_spectators. rewrite bool_decide_eq_false_2; [done|].
    intros Hin. apply Hnot.
    apply list_elem_of_In, in_map_iff. exists (Arena.mkS userId t1).
    split; [done|]. by apply list_elem_of_In. }
  split.
  { rewrite Ha1, lookup_alter_eq, Ha. cbn. by rewrite Hadd. }
  unfold ws_message. rewrite Hs1. cbn [Socket.userId Socket.arenas].
  rewrite run_try_catch, run_bind.
  destruct (leave_arenas_run t2 userId
              (Js.set_add arenaId (Socket.arenas ws)) w1)
    as (w2 & Hrun & Ha2 & _).
  rewrite Hrun. unfold Socket_update, modify. cbn [snd]. wsimpl_goal.
  rewrite Ha2, pulled_lookup.
  rewrite bool_decide_eq_true_2.
  2:{ unfold Js.set_add. case_bool_decide; [done|].
      apply elem_of_app. right. by left. }
  rewrite Ha1, lookup_alter_eq, Ha. cbn. rewrite Hadd. f_equal.
  unfold pull_spectators, Arena.set_spectators. destruct arena. cbn in *.
  f_equal. rewrite List.filter_app. cbn.
  rewrite (bool_decide_eq_true_2 (userId = userId)) by done. cbn.
  rewrite app_nil_r. clear -Hnot.
  match goal with |- List.filter _ ?l = _ =>
    induction l as [|sp l IH]; cbn; [done|] end.
  rewrite bool_decide_eq_false_2.
  - cbn. f_equal. apply IH. intros Hin. apply Hnot. cbn. by right.
  - intros E. apply Hnot. cbn. apply elem_of_cons. by left.
Qed.

Lemma join_then_leave_restores_arena_witness :
  let w1 := ws_message 6000 1%nat (Cmd.join_arena 9%nat) w_live in
  let w2 := ws_message 8000 1%nat Cmd.leave_arena w1 in
  Arena.spectators <$> World.arenas w1 !! 9%nat
  = Some (Arena.spectators live_arena ++ [Arena.mkS 4%nat 6000])
  /\ World.arenas w2 !! 9%nat = Some live_arena.
Proof.
  apply (join_then_leave_restores_arena 6000 8000 1%nat
           (Socket.mk (Some 4%nat) [] OPEN) 4%nat 9%nat w_live live_arena).
  - vm_compute. reflexivity.
  - reflexivity.
  - vm_compute. reflexivity.
  - cbn. apply not_elem_of_nil.
Defined.

(** ** Presence *)

(** X19. A valid token on a socket marks the user online with [lastSeen] now,
    answers [auth_success] on that socket, and announces [user_status online]
    to the open registered socket of every other user, and to nobody
    else. *)
Theorem auth_announces_presence now h so id name exp w :
  World.sockets w !! h = Some so ->
  now / 1000 < exp ->
  let w' := ws_message now h (Cmd.auth (Jwt id name exp)) w in
  World.users w' = alter (User.set_presence User.online now) id (World.users w)
  /\ World.outbox w'
     = World.outbox w
       ++ (h, Msg.auth_success id now)
          :: map (fun uc => (Client.ws uc.2,
                             Msg.user_status id User.online None))
                 (reached (Some id) w').
Proof.
  intros Hso Hexp. cbv zeta. unfold ws_message. rewrite Hso.
  rewrite !run_try_catch. unfold jwt_verify.
  replace (exp <=? now / 1000) with false by (symmetry; apply Z.leb_gt; lia).
  rewrite run_bind_ret. cbv beta. cbn [fst].
  unfold Socket_update, User_findByIdAndUpdate, send.
  rewrite !run_bind_modify. rewrite broadcastToAll_run.
  cbn [snd]. unfold reached. wsimpl_goal. split; [reflexivity|].
  by rewrite <- app_assoc.
Qed.

Lemma auth_announces_presence_witness :
  let w' := ws_message 3200 2%nat (Cmd.auth (Jwt 2%nat "bob" 2592001))
              (ws_message 3100 1%nat (Cmd.auth (Jwt 4%nat "carol" 2592001))
                 (ws_connection 2%nat (ws_connection 1%nat w_arena))) in
  World.users w'
  = alter (User.set_presence User.online 3200) 2%nat
      (World.users
         (ws_message 3100 1%nat (Cmd.auth (Jwt 4%nat "carol" 2592001))
            (ws_connection 2%nat (ws_connection 1%nat w_arena))))
  /\ World.outbox w'
     = World.outbox
         (ws_message 3100 1%nat (Cmd.auth (Jwt 4%nat "carol" 2592001))
            (ws_connection 2%nat (ws_connection 1%nat w_arena)))
       ++ (2%nat, Msg.auth_success 2%nat 3200)
          :: map (fun uc => (Client.ws uc.2,
                             Msg.user_status 2%nat User.online None))
                 (reached (Some 2%nat) w').
Proof.
  apply (auth_announces_presence 3200 2%nat (Socket.mk None [] OPEN)).
  - vm_compute. reflexivity.
  - vm_compute. reflexivity.
Defined.

(** X20. When an authenticated socket closes, its user is marked offline with
    [lastSeen] now, is removed from the spectators of every arena joined on
    that socket (other arenas are untouched), the socket is closed, and
    charts and ledger are untouched. *)
Theorem close_marks_offline_and_leaves_arenas now h ws userId w :
  World.sockets w !! h = Some ws ->
  Socket.userId ws = Some userId ->
  let w' := ws_close now h w in
  World.users w'
  = alter (User.set_presence User.offline now) userId (World.users w)
  /\ (forall a arena, a ∈ Socket.arenas ws ->
        World.arenas w' !! a = Some arena ->
        userId ∉ map Arena.suser (Arena.spectators arena))
  /\ (forall a, World.arenas w' !! a
        = if bool_decide (a ∈ Socket.arenas ws)
          then pull_spectators userId <$> World.arenas w !! a
          else World.arenas w !! a)
  /\ Socket.readyState <$> World.sockets w' !! h = Some CLOSED
  /\ World.charts w' = World.charts w
  /\ World.transactions w' = World.transactions w.
Proof.
  intros Hso Hu. cbv zeta. unfold ws_close. rewrite Hso, Hu.
  unfold Socket_update, User_findByIdAndUpdate.
  rewrite !run_bind_modify, run_bind, broadcastToAll_run.
  match goal with |- context [leave_arenas ?n ?u ?l ?W] =>
    destruct (leave_arenas_run n u l W)
      as (w1 & Hrun & Ha & Hus & Hc & Ht & _ & _ & Hsk) end.
  rewrite Hrun. cbn [snd]. wsimpl Ha. wsimpl Hus. wsimpl Hc. wsimpl Ht.
  wsimpl Hsk. rewrite Hus, Hc, Ht, Hsk, Ha.
  split; [reflexivity|].
  split.
  { intros a arena Hin. rewrite pulled_lookup, bool_decide_eq_true_2 by done.
    destruct (World.arenas w !! a); [|done].
    intros [= <-]. apply pull_spectators_gone. }
  split; [intros a; apply pulled_lookup|].
  split; [by rewrite lookup_alter_eq, Hso|done].
Qed.

Lemma close_marks_offline_and_leaves_arenas_witness :
  let w' := ws_close 9000 1%nat w_watching in
  World.users w'
  = alter (User.set_presence User.offline 9000) 4%nat (World.users w_watching)
  /\ (forall a arena, a ∈ [9%nat] ->
        World.arenas w' !! a = Some arena ->
        4%nat ∉ map Arena.suser (Arena.spectators arena))
  /\ (forall a, World.arenas w' !! a
        = if bool_decide (a ∈ [9%nat])
          then pull_spectators 4%nat <$> World.arenas w_watching !! a
          else World.arenas w_watching !! a)
  /\ Socket.readyState <$> World.sockets w' !! 1%nat = Some CLOSED
  /\ World.charts w' = World.charts w_watching
  /\ World.transactions w' = World.transactions w_watching.
Proof.
  apply (close_marks_offline_and_leaves_arenas 9000 1%nat
           (Socket.mk (Some 4%nat) [9%nat] OPEN) 4%nat w_watching).
  - vm_compute. reflexivity.
  - reflexivity.
Defined.

(** ** Logging in and out *)

Lemma run_answer_route failure (handler : M Answer) w :
  answer_route failure handler w =
  match handler w with
  | (Val r, w') => (r, w')
  | (Exn _, w') => (mkAnswer 500 (ReplyError failure), w')
  end.
Proof. reflexivity. Qed.

(** [findOne] on a filter that one stored document matches. *)
Lemma User_findOne_unique (p : User.t -> bool) k v w :
  World.users w !! k = Some v -> p v = true ->
  (forall k' v', World.users w !! k' = Some v' -> p v' = true -> k' = k) ->
  User_findOne p w = (Val (Some (k, v)), w).
Proof.
  intros Hk Hp Huniq. unfold User_findOne, gets. f_equal. f_equal.
  destruct (find _ _) as [[k' v']|] eqn:E.
  - apply find_some in E. destruct E as [Hin Hp']. cbn in Hp'.
    apply list_elem_of_In, elem_of_map_to_list in Hin.
    assert (k' = k) by eauto. subst k'. congruence.
  - exfalso. assert (Hn : p v = false); [|congruence].
    apply (find_none _ _ E (k, v)).
    apply list_elem_of_In. by apply elem_of_map_to_list.
Qed.

(** What a registration that answers 201 has stored. *)
Lemma register_stores now b w token id user w1 :
  register now b w = (mkResponse 201 (JsonRegistered token id user), w1) ->
  World.users w1 = <[id := user]> (World.users w)
  /\ (forall k v, World.users w !! k = Some v ->
        User.email v <> User.email user)
  /\ (exists p, reg_password b = Some p /\ p <> ""
                /\ User.password user = Bcrypt p 12)
  /\ World.connectedClients w1 = World.connectedClients w
  /\ World.sockets w1 = World.sockets w.
Proof.
  intros Hr. unfold register in Hr. rewrite run_route in Hr.
  unfold User_insert, User_findOne, Transaction_save, User_new in Hr.
  cbv zeta in Hr.
  do 4 (mcase Hr; [mfail Hr|]).
  mcase Hr.
  { destruct p. mcase Hr; mfail Hr. }
  do 4 (mcase Hr; [mfail Hr|]).
  repeat mstep Hr. rewrite run_json in Hr. inversion Hr; subst; clear Hr.
  wsimpl_goal. split; [reflexivity|]. split.
  { intros k v Hk.
    match goal with
    | H : find (fun kv => bool_decide (User.username kv.2 = User.username _)
                          || _) _ = None |- _ =>
        pose proof (find_none _ _ H (k, v)) as Hp end.
    cbn in Hp. cbn. rewrite orb_false_iff, !bool_decide_eq_false in Hp.
    apply Hp. apply list_elem_of_In. by apply elem_of_map_to_list. }
  split; [|done].
  bool_facts.
  destruct (reg_password b) as [p|]; [|done]. exists p. cbn in *.
  bool_facts. rewrite bool_decide_eq_false_2 by done. done.
Qed.

(** X21. Round trip: right after a successful registration, a login with the
    registered password and an address that lower-cases to the stored one
    (the registered address in any letter case) answers 200 with a fresh
    30-day token for the new user's id, and changes nothing but that user's
    status (online) and [lastSeen]. *)
Theorem login_after_register now b w token id user w1 now' e p :
  register now b w = (mkResponse 201 (JsonRegistered token id user), w1) ->
  reg_password b = Some p ->
  e <> "" ->
  Js.toLowerCase e = User.email user ->
  login now' (mkLoginBody (Some e) (Some p)) w1
  = (mkAnswer 200
       (ReplyLogin (jwt_sign id (User.username user) now') id
          (User.set_presence User.online now' user)),
     World.set_users
       (<[id := User.set_presence User.online now' user]> (World.users w1))
       w1).
Proof.
  intros Hr Hp He Hlow.
  destruct (register_stores _ _ _ _ _ _ _ Hr)
    as (Hus & Hnew & (p' & Hp' & Hne & Hpw) & _).
  rewrite Hp in Hp'. injection Hp' as <-.
  unfold login. rewrite run_answer_route. cbn [login_email login_password].
  cbn [Js.falsy Js.or_else]. rewrite !bool_decide_eq_false_2 by done.
  cbn [orb]. cbv zeta. rewrite run_bind.
  rewrite (User_findOne_unique _ id user).
  - rewrite Hpw. cbn [bcrypt_compare].
    rewrite bool_decide_eq_true_2 by done. cbn [negb].
    unfold User_save. rewrite run_bind_modify, run_ret. f_equal.
    f_equal. apply map_eq. intros k. rewrite lookup_alter, lookup_insert.
    destruct (decide (id = k)) as [<-|]; [|done].
    rewrite Hus, lookup_insert_eq. done.
  - rewrite Hus. apply lookup_insert_eq.
  - by apply bool_decide_eq_true.
  - intros k' v'. rewrite Hus, lookup_insert.
    destruct (decide (id = k')) as [<-|]; [done|].
    intros Hk Hv. apply bool_decide_eq_true in Hv.
    destruct (Hnew _ _ Hk). congruence.
Qed.

Lemma login_after_register_witness :
  let w1 := (register 1000 bob_body (register 1000 alice_body World.init).2).2
  in
  let bob := User.mk "bob" "bob@thumbs.io" (Bcrypt "secret2" 12) "Bobby"
                     0 0 100 0 0 User.offline 1000 in
  login 7000 (mkLoginBody (Some "BOB@Thumbs.io") (Some "secret2")) w1
  = (mkAnswer 200
       (ReplyLogin (jwt_sign 2%nat (User.username bob) 7000) 2%nat
          (User.set_presence User.online 7000 bob)),
     World.set_users
       (<[2%nat := User.set_presence User.online 7000 bob]> (World.users w1))
       w1).
Proof.
  apply (login_after_register 1000 bob_body
           (register 1000 alice_body World.init).2
           (Jwt 2%nat "bob" (1000 / 1000 + 30 * 24 * 3600)) 2%nat
           (User.mk "bob" "bob@thumbs.io" (Bcrypt "secret2" 12) "Bobby"
                    0 0 100 0 0 User.offline 1000)
           _ 7000 "BOB@Thumbs.io" "secret2").
  - vm_compute. reflexivity.
  - reflexivity.
  - discriminate.
  - vm_compute. reflexivity.
Defined.



(** X23. A login followed by a logout of the same user leaves the world as the
    logout alone would: everything as before the login except that the user
    is offline with [lastSeen] at the logout. *)
Theorem logout_undoes_login t1 t2 b w token id user :
  (login t1 b w).1 = mkAnswer 200 (ReplyLogin token id user) ->
  logout t2 id (login t1 b w).2
  = (mkAnswer 200 ReplySuccess,
     World.set_users
       (alter (User.set_presence User.offline t2) id (World.users w)) w).
Proof.
  destruct (login t1 b w) as [r w1] eqn:Hr. cbn [fst snd]. intros ->.
  unfold login in Hr. rewrite run_answer_route in Hr.
  unfold User_findOne, User_save in Hr. cbv zeta in Hr.
  mcase Hr; [mfail Hr|].
  mcase Hr; [|mfail Hr]. destruct p as [k v].
  mcase Hr; [mfail Hr|].
  repeat mstep Hr. inversion Hr; subst; clear Hr.
  unfold logout, User_findByIdAndUpdate. rewrite run_answer_route.
  rewrite run_bind_modify, run_ret. f_equal.
  destruct w as [us ch ar dn tx nt nx cl sk ob].
  unfold World.set_users. cbn. f_equal.
  apply map_eq. intros i. destruct (decide (id = i)) as [<-|Hne].
  - rewrite !lookup_alter_eq. destruct (us !! id); reflexivity.
  - by rewrite !lookup_alter_ne.
Qed.

Lemma logout_undoes_login_witness :
  logout 8000 2%nat
    (login 7000 (mkLoginBody (Some "bob@thumbs.io") (Some "secret2"))
           w_users).2
  = (mkAnswer 200 ReplySuccess,
     World.set_users
       (alter (User.set_presence User.offline 8000) 2%nat
              (World.users w_users)) w_users).
Proof.
  apply (logout_undoes_login 7000 8000
           (mkLoginBody (Some "bob@thumbs.io") (Some "secret2")) w_users
           (jwt_sign 2%nat "bob" 7000) 2%nat
           (User.set_presence User.online 7000
              (User.mk "bob" "bob@thumbs.io" (Bcrypt "secret2" 12) "Bobby"
                       0 0 100 0 0 User.offline 1000))).
  vm_compute. reflexivity.
Defined.

(** ** Notifications *)

Lemma set_outbox_nil w : World.set_outbox (World.outbox w ++ []) w = w.
Proof. destruct w. unfold World.set_outbox. cbn. by rewrite app_nil_r. Qed.

Lemma set_outbox_app out1 out2 w :
  World.set_outbox
    (World.outbox (World.set_outbox (World.outbox w ++ out1) w) ++ out2)
    (World.set_outbox (World.outbox w ++ out1) w)
  = World.set_outbox (World.outbox w ++ (out1 ++ out2)) w.
Proof. destruct w. unfold World.set_outbox. cbn. by rewrite app_assoc. Qed.

Lemma sends_only_ret {A} (a : A) : sends_only (ret a).
Proof. intros w. exists a, []. by rewrite set_outbox_nil. Qed.

Lemma sends_only_gets {A} (f : World.t -> A) : sends_only (gets f).
Proof. intros w. exists (f w), []. by rewrite set_outbox_nil. Qed.

Lemma sends_only_send h msg : sends_only (send h msg).
Proof. intros w. by exists tt, [(h, msg)]. Qed.

Lemma sends_only_bind {A B} (m : M A) (k : A -> M B) :
  sends_only m -> (forall a, sends_only (k a)) -> sends_only (bind m k).
Proof.
  intros Hm Hk w. destruct (Hm w) as (a & out1 & E1).
  destruct (Hk a (World.set_outbox (World.outbox w ++ out1) w))
    as (b & out2 & E2).
  exists b, (out1 ++ out2). rewrite run_bind, E1, E2.
  by rewrite set_outbox_app.
Qed.

Lemma sends_only_when b (m : M unit) : sends_only m -> sends_only (when b m).
Proof. destruct b; [done|]. intros _. apply sends_only_ret. Qed.

Lemma sends_only_for_of {A} (xs : list A) (body : A -> M unit) :
  (forall x, sends_only (body x)) -> sends_only (for_of xs body).
Proof.
  intros Hb. induction xs as [|x xs IH]; cbn [for_of].
  - apply sends_only_ret.
  - apply sends_only_bind; [apply Hb|intros _; apply IH].
Qed.

Lemma sends_only_send_if_open id msg : sends_only (send_if_open id msg).
Proof.
  unfold send_if_open. apply sends_only_bind; [apply sends_only_gets|].
  intros [c|]; [|apply sends_only_ret].
  apply sends_only_bind; [apply sends_only_gets|].
  intros [so|]; [|apply sends_only_ret].
  apply sends_only_when, sends_only_send.
Qed.

Lemma sends_only_broadcastToArena a msg ex :
  sends_only (broadcastToArena a msg ex).
Proof.
  unfold broadcastToArena, Arena_findById.
  apply sends_only_bind; [apply sends_only_gets|].
  intros [arena|]; [|apply sends_only_ret].
  apply sends_only_bind; [apply sends_only_gets|]. intros pop.
  apply sends_only_bind.
  - apply sends_only_for_of. intros [user [doc|]]; [|apply sends_only_ret].
    apply sends_only_when, sends_only_send_if_open.
  - intros _. apply sends_only_for_of. intros p.
    apply sends_only_when, sends_only_send_if_open.
Qed.

Lemma unreadCount_app uid w l :
  Z.of_nat (length (List.filter (unread_of uid) (World.notifications w ++ l)))
  = unreadCount uid w + Z.of_nat (length (List.filter (unread_of uid) l)).
Proof. unfold unreadCount. rewrite List.filter_app, length_app. lia. Qed.

(** X24. A donation that answers 201 stores exactly one new notification: it is
    unread, of type donation, and belongs to the recipient, whose unread
    count rises by one; the unread count of every other user and all earlier
    notifications stay as they were. *)
Theorem donation_notifies_recipient now rnd uid b w :
  code (donate now rnd uid b w).1 = 201 ->
  let w' := (donate now rnd uid b w).2 in
  map notice (drop (length (World.notifications w)) (World.notifications w'))
  = [(db_recipientId b, Notification.donation, false)]
  /\ take (length (World.notifications w)) (World.notifications w')
     = World.notifications w
  /\ unreadCount (db_recipientId b) w' = unreadCount (db_recipientId b) w + 1
  /\ (forall v, v <> db_recipientId b -> unreadCount v w' = unreadCount v w).
Proof.
  destruct (donate now rnd uid b w) as [r w'] eqn:Hr. cbn [fst snd].
  intros Hc. unfold donate in Hr. rewrite run_route in Hr.
  unfold User_findById, Chart_findById, User_save, Chart_save,
    Transaction_save, Notification_save, Donation_insert in Hr.
  cbv zeta in Hr.
  do 2 (mcase Hr; [mfail Hr|]).
  mcase Hr; [|mfail Hr]. mcase Hr; [mfail Hr|].
  mcase Hr; [|mfail Hr]. mcase Hr; [|mfail Hr].
  do 2 (mcase Hr; [mfail Hr|]).
  mcase Hr; [|mfail Hr].
  repeat mstep Hr. rewrite run_bind in Hr.
  match type of Hr with context [send_if_open ?i ?m ?W] =>
    destruct (sends_only_send_if_open i m W) as ([] & out & E) end.
  rewrite E in Hr. rewrite run_json in Hr. inversion Hr; subst; clear Hr.
  unfold unreadCount. wsimpl_goal.
  rewrite drop_app_length, take_app_length.
  split; [reflexivity|]. split; [reflexivity|].
  split.
  - rewrite List.filter_app, length_app. cbn [List.filter].
    unfold unread_of at 2. cbn [Notification.user Notification.read negb].
    rewrite bool_decide_eq_true_2 by done. cbn. lia.
  - intros v Hv. rewrite List.filter_app, length_app. cbn [List.filter].
    unfold unread_of at 2. cbn [Notification.user Notification.read negb].
    rewrite bool_decide_eq_false_2 by done. cbn. lia.
Qed.

Lemma donation_notifies_recipient_witness :
  let w' := (donate 5000 "K3X9" 0%nat (mkDonationBody 7%nat 2%nat 30 None)
                    w_chart).2 in
  map notice (drop (length (World.notifications w_chart))
                   (World.notifications w'))
  = [(2%nat, Notification.donation, false)]
  /\ take (length (World.notifications w_chart)) (World.notifications w')
     = World.notifications w_chart
  /\ unreadCount 2%nat w' = unreadCount 2%nat w_chart + 1
  /\ (forall v, v <> 2%nat -> unreadCount v w' = unreadCount v w_chart).
Proof.
  apply (donation_notifies_recipient 5000 "K3X9" 0%nat
           (mkDonationBody 7%nat 2%nat 30 None) w_chart).
  vm_compute. reflexivity.
Defined.

(** *** Marking as read *)

Lemma unread_of_read uid n : unread_of uid (Notification_read n) = false.
Proof. unfold unread_of. cbn. apply andb_false_r. Qed.

Lemma read_all_filter uid v (l : list Notification.t) :
  List.filter (unread_of v)
    (map (fun n => if unread_of uid n then Notification_read n else n) l)
  = if bool_decide (v = uid) then [] else List.filter (unread_of v) l.
Proof.
  induction l as [|n l IH]; cbn [map List.filter].
  - by case_bool_decide.
  - destruct (unread_of uid n) eqn:Eu.
    + rewrite unread_of_read, IH. case_bool_decide as Ev; [done|].
      replace (unread_of v n) with false; [done|].
      symmetry. unfold unread_of in *. apply andb_true_iff in Eu as [Eu _].
      apply bool_decide_eq_true in Eu.
      rewrite bool_decide_eq_false_2 by congruence. done.
    + rewrite IH. case_bool_decide as Ev; [|done].
      subst v. by rewrite Eu.
Qed.

(** X25. Marking all as read answers 200, brings the caller's unread count to 0,
    and changes nothing else: the notifications of other users, their unread
    counts, the number, order, ids and owners of all notifications and the
    rest of the world stay as they were. *)
Theorem read_all_clears_own_unread uid w :
  let w' := (markAllNotificationsRead uid w).2 in
  (markAllNotificationsRead uid w).1 = mkAnswer 200 ReplySuccess
  /\ unreadCount uid w' = 0
  /\ (forall v, v <> uid ->
        List.filter (fun n => bool_decide (Notification.user n = v))
                    (World.notifications w')
        = List.filter (fun n => bool_decide (Notification.user n = v))
                      (World.notifications w))
  /\ (forall v, v <> uid -> unreadCount v w' = unreadCount v w)
  /\ map (fun n => (Notification._id n, Notification.user n))
         (World.notifications w')
     = map (fun n => (Notification._id n, Notification.user n))
           (World.notifications w)
  /\ World.set_notifications (World.notifications w) w' = w.
Proof.
  cbv zeta. unfold markAllNotificationsRead. rewrite run_answer_route.
  rewrite run_bind_modify, run_ret. cbn [fst snd]. unfold unreadCount.
  wsimpl_goal.
  split; [reflexivity|]. split.
  { rewrite read_all_filter, bool_decide_eq_true_2 by done. reflexivity. }
  split.
  { intros v Hv. induction (World.notifications w) as [|n l IH];
      cbn [map List.filter]; [done|].
    rewrite IH. unfold unread_of.
    destruct (bool_decide (Notification.user n = uid)) eqn:Eu; cbn [andb].
    - apply bool_decide_eq_true in Eu.
      destruct (negb (Notification.read n)); cbn [Notification_read
        Notification.user]; rewrite !bool_decide_eq_false_2 by congruence;
        done.
    - done. }
  split.
  { intros v Hv. rewrite read_all_filter.
    by rewrite bool_decide_eq_false_2. }
  split.
  { induction (World.notifications w) as [|n l IH]; cbn [map]; [done|].
    rewrite IH. by destruct (unread_of uid n). }
  by destruct w.
Qed.

(** X26. Marking one notification as read does not look at who asks: the stored
    notification with the given id is marked read whoever owns it, nothing
    else changes, and the unread count of a user drops by one exactly if the
    notification was an unread one of that user. *)
Theorem mark_read_asks_no_owner nid w before n after :
  World.notifications w = before ++ n :: after ->
  Notification._id n = nid ->
  (forall m, m ∈ before -> Notification._id m <> nid) ->
  markNotificationRead nid w
  = (mkAnswer 200 ReplySuccess,
     World.set_notifications (before ++ Notification_read n :: after) w)
  /\ forall uid,
       unreadCount uid (markNotificationRead nid w).2
       = unreadCount uid w - (if unread_of uid n then 1 else 0).
Proof.
  intros Hn Hid Hbefore.
  assert (E : Notification_findByIdAndUpdate_in nid Notification_read
                (before ++ n :: after)
              = before ++ Notification_read n :: after).
  { clear Hn. induction before as [|m l IH]; cbn.
    - by rewrite bool_decide_eq_true_2.
    - rewrite bool_decide_eq_false_2 by (apply Hbefore; by left).
      rewrite IH; [done|]. intros x Hx. apply Hbefore. by right. }
  unfold markNotificationRead. rewrite run_answer_route.
  rewrite run_bind_modify, run_ret. rewrite Hn, E. split; [reflexivity|].
  intros uid. cbn [snd]. unfold unreadCount. wsimpl_goal. rewrite Hn.
  rewrite !List.filter_app, !length_app. cbn [List.filter].
  rewrite unread_of_read. destruct (unread_of uid n); cbn [length]; lia.
Qed.

Lemma mark_read_asks_no_owner_witness :
  let before := take 1 (World.notifications w_arena) in
  let after := drop 2 (World.notifications w_arena) in
  markNotificationRead 11%nat w_arena
  = (mkAnswer 200 ReplySuccess,
     World.set_notifications
       (before ++ Notification_read bob_match_start :: after) w_arena)
  /\ forall uid,
       unreadCount uid (markNotificationRead 11%nat w_arena).2
       = unreadCount uid w_arena
         - (if unread_of uid bob_match_start then 1 else 0).
Proof.
  cbv zeta.
  apply (mark_read_asks_no_owner 11%nat w_arena
           (take 1 (World.notifications w_arena)) bob_match_start
           (drop 2 (World.notifications w_arena))).
  - vm_compute. reflexivity.
  - reflexivity.
  - apply Forall_forall. apply (bool_decide_unpack _). vm_compute. exact I.
Defined.

(** *** Who is notified of a settlement *)

(** A loop whose every round appends notifications. *)
Lemma for_of_notices {A} (xs : list A) (body : A -> M unit)
    (f : A -> list (Id * Notification.Type_ * bool)) :
  (forall x w, exists w' new,
     body x w = (Val tt, w')
     /\ World.notifications w' = World.notifications w ++ new
     /\ map notice new = f x) ->
  forall w, exists w' new,
    for_of xs body w = (Val tt, w')
    /\ World.notifications w' = World.notifications w ++ new
    /\ map notice new = concat (map f xs).
Proof.
  intros Hb. induction xs as [|x xs IH]; intros w; cbn [for_of map concat].
  - exists w, []. by rewrite app_nil_r.
  - destruct (Hb x w) as (w1 & n1 & E1 & N1 & M1).
    destruct (IH w1) as (w2 & n2 & E2 & N2 & M2).
    exists w2, (n1 ++ n2). rewrite run_bind, E1. split; [exact E2|].
    split; [by rewrite N2, N1, app_assoc|].
    by rewrite map_app, M1, M2.
Qed.

Lemma concat_map_filter {A B} (p : A -> bool) (g : A -> B) (xs : list A) :
  concat (map (fun x => if p x then [g x] else []) xs)
  = map g (List.filter p xs).
Proof.
  induction xs as [|x xs IH]; cbn; [done|].
  rewrite IH. by destruct (p x).
Qed.

(** X27. A settlement that returns a result stores exactly one new notification
    for each player entry of the arena other than the winner, in the order of
    the players, each unread and of type chart_completed; the winner gets
    none, and the earlier notifications stay as they were. *)
Theorem settlement_notifies_the_others now a wid w res w' arena :
  completeArena now a wid w = (Val (Some res), w') ->
  World.arenas w !! a = Some arena ->
  map notice (drop (length (World.notifications w)) (World.notifications w'))
  = map (fun p => (Arena.user p, Notification.chart_completed, false))
        (List.filter (fun p => negb (bool_decide (Arena.user p = wid)))
                     (Arena.players arena))
  /\ take (length (World.notifications w)) (World.notifications w')
     = World.notifications w.
Proof.
  intros Hr Ha. unfold completeArena in Hr. rewrite run_try_catch in Hr.
  unfold Arena_findById, Chart_findById, User_findById, Arena_save, Chart_save,
    User_save, Transaction_save in Hr.
  mstep Hr. rewrite Ha in Hr.
  destruct (bool_decide (Arena.status arena = Arena.finished)) eqn:Hs;
    [discriminate|].
  repeat mstep Hr.
  destruct (World.charts w !! Arena.chart arena) as [chart|] eqn:Hc;
    [|discriminate].
  repeat mstep Hr.
  destruct (World.users w !! wid) as [winner|] eqn:Hw; [|discriminate].
  repeat mstep Hr. rewrite run_bind in Hr.
  match type of Hr with context [for_of ?l ?body ?W] =>
    destruct (for_of_notices l body
                (fun p => if negb (bool_decide (Arena.user p = wid))
                          then [(Arena.user p, Notification.chart_completed,
                                 false)]
                          else []))
      with (w := W) as (w1 & new & E & Hn & Hm)
  end.
  { intros p w0. destruct (negb (bool_decide (Arena.user p = wid)));
      cbn [when].
    - rewrite run_bind_fresh. unfold Notification_save.
      rewrite run_bind_modify.
      match goal with |- context [send_if_open ?i ?m ?W] =>
        destruct (sends_only_send_if_open i m W) as ([] & out & E) end.
      eexists _, _. split; [exact E|]. wsimpl_goal. split; reflexivity.
    - exists w0, []. by rewrite app_nil_r. }
  rewrite E in Hr. rewrite run_bind in Hr.
  match type of Hr with context [broadcastToArena ?i ?m ?e ?W] =>
    destruct (sends_only_broadcastToArena i m e W) as ([] & out & E2) end.
  rewrite E2, run_ret in Hr. inversion Hr; subst; clear Hr.
  wsimpl_goal. rewrite Hn. wsimpl_goal.
  rewrite drop_app_length, take_app_length. split; [|reflexivity].
  rewrite Hm. apply concat_map_filter.
Qed.

Lemma settlement_notifies_the_others_witness :
  map notice (drop (length (World.notifications w_arena))
                   (World.notifications w_settled))
  = map (fun p => (Arena.user p, Notification.chart_completed, false))
        (List.filter (fun p => negb (bool_decide (Arena.user p = 2%nat)))
                     (Arena.players live_arena))
  /\ take (length (World.notifications w_arena))
          (World.notifications w_settled)
     = World.notifications w_arena.
Proof.
  eapply (settlement_notifies_the_others 4000 9%nat 2%nat w_arena _
            w_settled live_arena).
  - vm_compute. reflexivity.
  - vm_compute. reflexivity.
Defined.

(** ** The client: reconnecting *)

(** With the attempts used up, a close schedules nothing. *)
Lemma closes_exhausted n c :
  ApiClient.maxReconnectAttempts c <= ApiClient.reconnectAttempts c ->
  ApiClient.closes n c = (c, replicate n None).
Proof.
  intros H. induction n as [|n IH]; cbn [ApiClient.closes replicate]; [done|].
  unfold ApiClient.onclose.
  replace (ApiClient.reconnectAttempts c <? ApiClient.maxReconnectAttempts c)
    with false by (symmetry; apply Z.ltb_ge; lia).
  by rewrite IH.
Qed.

Lemma closes_add n m c :
  ApiClient.closes (n + m) c
  = ((ApiClient.closes m (ApiClient.closes n c).1).1,
     (ApiClient.closes n c).2 ++ (ApiClient.closes m (ApiClient.closes n c).1).2).
Proof.
  revert c. induction n as [|n IH]; intros c; cbn [ApiClient.closes Nat.add].
  - cbn [fst snd app]. by destruct (ApiClient.closes m c).
  - destruct (ApiClient.onclose c) as [c1 d]. rewrite IH.
    destruct (ApiClient.closes n c1) as [c2 ds]. cbn [fst snd].
    destruct (ApiClient.closes m c2). reflexivity.
Qed.

(** X28. Reconnecting: after an open, a run of n closes without an open in
    between schedules reconnects after 2, 4, 8, 16 and 30 seconds (the 32
    seconds of the fifth are capped), and none from the sixth close on. *)
Theorem reconnect_backoff c n :
  ApiClient.maxReconnectAttempts c = 5 ->
  (ApiClient.closes n (ApiClient.onopen c)).2
  = take n [Some 2000; Some 4000; Some 8000; Some 16000; Some 30000]
    ++ replicate (n - 5) None.
Proof.
  intros Hmax. destruct c as [tok att mx]. cbn in Hmax. subst mx.
  unfold ApiClient.onopen. cbn [ApiClient.token ApiClient.maxReconnectAttempts].
  do 5 (destruct n as [|n]; [vm_compute; reflexivity|]).
  change (S (S (S (S (S n))))) with (5 + n)%nat.
  rewrite closes_add. cbn [snd].
  change (ApiClient.closes 5 (ApiClient.mk tok 0 5))
    with (ApiClient.mk tok 5 5,
          [Some 2000; Some 4000; Some 8000; Some 16000; Some 30000]).
  cbn [fst snd].
  rewrite (closes_exhausted n (ApiClient.mk tok 5 5)) by (cbn; lia).
  cbn [snd]. replace (5 + n - 5)%nat with n by lia.
  rewrite take_ge by (cbn [length]; lia). reflexivity.
Qed.

Lemma reconnect_backoff_witness :
  (ApiClient.closes 7 (ApiClient.onopen (ApiClient.new (Some "token")))).2
  = take 7 [Some 2000; Some 4000; Some 8000; Some 16000; Some 30000]
    ++ replicate (7 - 5) None.
Proof.
  apply (reconnect_backoff (ApiClient.new (Some "token")) 7). reflexivity.
Defined.

(** ** What the pages show *)

(** X29. [formatDate] never shows a zero or an out-of-range figure: it says
    "Just now" below one minute (also for dates in the future), n minutes
    with 1 <= n <= 59, n hours with 1 <= n <= 23, n days with 1 <= n <= 6, each
    figure being the elapsed time rounded down, and the date itself from
    seven days on. *)
Theorem formatDate_ranges date now :
  match formatDate date now with
  | JustNow => now - date < 60000
  | MinutesAgo n =>
      1 <= n <= 59 /\ 60000 * n <= now - date < 60000 * (n + 1)
  | HoursAgo n =>
      1 <= n <= 23 /\ 3600000 * n <= now - date < 3600000 * (n + 1)
  | DaysAgo n =>
      1 <= n <= 6 /\ 86400000 * n <= now - date < 86400000 * (n + 1)
  | OnDate d => d = date /\ 7 * 86400000 <= now - date
  end.
Proof.
  unfold formatDate. cbv zeta.
  repeat match goal with
         | |- context [if ?c then _ else _] => destruct c eqn:?
         end;
    bool_facts; try split; try reflexivity;
    Z.div_mod_to_equations; lia.
Qed.

(** ** The chart cards of the feed *)


